(** * xView-to-YOLO conversion and dataset splitting: a Rocq model

    This development embeds the two data-transformation scripts of the
    repository,

    - [scripts/convert_xview_to_yolo.py] (class [xViewToYOLOConverter]) and
    - [scripts/split_dataset.py] (class [DatasetSplitter]),

    as executable Rocq functions, and states the properties of the
    specification about them.

    Modelling conventions.

    - A Python [float] is a [pyfloat]: an exact rational, an infinity or
      NaN.  Comparisons follow IEEE 754 (every comparison with NaN is
      false); the arithmetic on finite values is exact, that is, the
      rounding of binary64 operations is not modelled.  The only rounding
      that is modelled is the one the program asks for, the [.6f]
      formatting of the label fields.  The module [Binary64] gives the
      float expressions of the two scripts a second time, over the
      primitive binary64 floats, so that the scenarios of the
      specification are also evaluated bit for bit.
    - A Python exception is a value [Raised] of the type [exn]; the
      [try]/[except] of the conversion loop is a [match] on it.
    - The file system is a finite map from paths to file contents together
      with a finite set of directories; the statistics dictionary of the
      converter is a record threaded through the loop. *)

From Stdlib Require Import QArith Qround Qabs Lqa ZArith Lia.
From Stdlib Require Import Ascii String DecimalString.
From Stdlib Require DecimalFacts DecimalN DecimalPos.
From Stdlib Require PrimFloat FloatOps SpecFloat Uint63 FloatAxioms.
From stdpp Require Import gmap strings list fin_maps sorting.

Local Open Scope Z_scope.

(** ** Exceptions *)

Inductive exn (A : Type) : Type :=
| Ok (a : A)
| Raised.
Arguments Ok {A} a.
Arguments Raised {A}.

Definition exn_bind {A B} (x : exn A) (f : A → exn B) : exn B :=
  match x with
  | Ok a => f a
  | Raised => Raised
  end.

Notation "'try!' x ← e ; k" := (exn_bind e (λ x, k))
  (at level 10, x name, e at level 100, k at level 200,
   format "'try!'  x  ←  e ;  '/' k").

Fixpoint exn_map {A B} (f : A → exn B) (l : list A) : exn (list B) :=
  match l with
  | [] => Ok []
  | x :: l' => try! y ← f x; try! ys ← exn_map f l'; Ok (y :: ys)
  end.

(** ** Python floats *)

Module PyFloat.

Inductive pyfloat : Type :=
| PFin (q : Q)
| PInf (neg : bool)
| PNaN.

Definition Qltb (x y : Q) : bool := negb (Qle_bool y x).

Definition of_Z (z : Z) : pyfloat := PFin (inject_Z z).

(** [a < b] *)
Definition ltb (a b : pyfloat) : bool :=
  match a, b with
  | PNaN, _ | _, PNaN => false
  | PFin x, PFin y => Qltb x y
  | PFin _, PInf neg => negb neg
  | PInf neg, PFin _ => neg
  | PInf na, PInf nb => na && negb nb
  end.

(** [a <= b] *)
Definition leb (a b : pyfloat) : bool :=
  match a, b with
  | PNaN, _ | _, PNaN => false
  | PFin x, PFin y => Qle_bool x y
  | PFin _, PInf neg => negb neg
  | PInf neg, PFin _ => neg
  | PInf na, PInf nb => na || negb nb
  end.

(** The builtins [min(a, b)] and [max(a, b)]: the first argument is kept
    unless the second is strictly smaller (resp. larger). *)
Definition py_min (a b : pyfloat) : pyfloat := if ltb b a then b else a.
Definition py_max (a b : pyfloat) : pyfloat := if ltb a b then b else a.

(** [min(l)] and [max(l)] over a list; [ValueError] on the empty list. *)
Definition py_min_list (l : list pyfloat) : exn pyfloat :=
  match l with
  | [] => Raised
  | x :: l' => Ok (foldl py_min x l')
  end.

Definition py_max_list (l : list pyfloat) : exn pyfloat :=
  match l with
  | [] => Raised
  | x :: l' => Ok (foldl py_max x l')
  end.

Definition add (a b : pyfloat) : pyfloat :=
  match a, b with
  | PNaN, _ | _, PNaN => PNaN
  | PFin x, PFin y => PFin (x + y)
  | PFin _, PInf n | PInf n, PFin _ => PInf n
  | PInf na, PInf nb => if Bool.eqb na nb then PInf na else PNaN
  end.

Definition opp (a : pyfloat) : pyfloat :=
  match a with
  | PNaN => PNaN
  | PFin x => PFin (- x)
  | PInf n => PInf (negb n)
  end.

Definition sub (a b : pyfloat) : pyfloat := add a (opp b).

(** [a / b]; [ZeroDivisionError] when [b] is zero. *)
Definition div (a b : pyfloat) : exn pyfloat :=
  match a, b with
  | _, PFin y =>
      if Qeq_bool y 0 then Raised
      else match a with
           | PFin x => Ok (PFin (x / y))
           | PInf n => Ok (PInf (xorb n (Qltb y 0)))
           | PNaN => Ok PNaN
           end
  | PNaN, _ | _, PNaN => Ok PNaN
  | PFin _, PInf _ => Ok (PFin 0)
  | PInf _, PInf _ => Ok PNaN
  end.

Definition sign_of (q : Q) : comparison := (q ?= 0)%Q.

Definition mul (a b : pyfloat) : pyfloat :=
  match a, b with
  | PNaN, _ | _, PNaN => PNaN
  | PFin x, PFin y => PFin (x * y)
  | PFin x, PInf n | PInf n, PFin x =>
      match sign_of x with
      | Eq => PNaN
      | Gt => PInf n
      | Lt => PInf (negb n)
      end
  | PInf na, PInf nb => PInf (xorb na nb)
  end.

(** [abs(x)] *)
Definition py_abs (a : pyfloat) : pyfloat :=
  match a with
  | PNaN => PNaN
  | PFin x => PFin (Qabs x)
  | PInf _ => PInf false
  end.

(** [int(x)]: truncation towards zero; [ValueError] on NaN and
    [OverflowError] on an infinity. *)
Definition py_int (a : pyfloat) : exn Z :=
  match a with
  | PFin x => Ok (Z.quot (Qnum x) (Z.pos (Qden x)))
  | _ => Raised
  end.

End PyFloat.
Export PyFloat.

(** ** Strings: the builtins [str.split], [str.strip], [float] and the
    [.6f] format *)

Module PyStr.

Definition chars (s : string) : list ascii := list_ascii_of_string s.
Definition of_chars (l : list ascii) : string := string_of_list_ascii l.

Definition ascii_eqb (a b : ascii) : bool := Ascii.eqb a b.

(** [s.split(c)] for a one-character separator. *)
Fixpoint split_on (c : ascii) (s : list ascii) : list (list ascii) :=
  match s with
  | [] => [[]]
  | a :: s' =>
      let r := split_on c s' in
      if ascii_eqb a c then [] :: r
      else match r with
           | h :: t => (a :: h) :: t
           | [] => [[a]]
           end
  end.

(** ASCII white space, as [str.strip] and [float] understand it. *)
Definition is_space (a : ascii) : bool :=
  let n := N_of_ascii a in
  ((9 <=? n) && (n <=? 13) || (28 <=? n) && (n <=? 32))%N.

Fixpoint lstrip (s : list ascii) : list ascii :=
  match s with
  | a :: s' => if is_space a then lstrip s' else s
  | [] => []
  end.

Definition strip (s : list ascii) : list ascii :=
  rev (lstrip (rev (lstrip s))).

Definition digit_of (a : ascii) : option Z :=
  let n := N_of_ascii a in
  if ((48 <=? n) && (n <=? 57))%N then Some (Z.of_N n - 48) else None.

(** A run of decimal digits in which single underscores may separate
    digits; returns the digits read and the rest of the input. *)
Fixpoint digit_run (s : list ascii) : list Z * list ascii :=
  match s with
  | a :: s' =>
      match digit_of a with
      | Some d =>
          match s' with
          | u :: ((b :: _) as s'') =>
              if ascii_eqb u "_" && bool_decide (is_Some (digit_of b))
              then let '(ds, r) := digit_run s'' in (d :: ds, r)
              else let '(ds, r) := digit_run s' in (d :: ds, r)
          | _ => let '(ds, r) := digit_run s' in (d :: ds, r)
          end
      | None => ([], s)
      end
  | [] => ([], [])
  end.

Definition digits_value (ds : list Z) : Z :=
  foldl (λ acc d, 10 * acc + d) 0 ds.

Definition to_lower (a : ascii) : ascii :=
  let n := N_of_ascii a in
  if ((65 <=? n) && (n <=? 90))%N then ascii_of_N (n + 32) else a.

Definition pow10 (e : Z) : Q :=
  if 0 <=? e then inject_Z (10 ^ e) else / inject_Z (10 ^ (- e)).

(** The unsigned decimal literal [digits [. digits] [e [sign] digits]]. *)
Definition parse_decimal (s : list ascii) : exn Q :=
  let '(ip, r1) := digit_run s in
  let '(fp, r2) :=
    match r1 with
    | "."%char :: r1' => digit_run r1'
    | _ => ([], r1)
    end in
  match ip ++ fp with
  | [] => Raised
  | m =>
      let mant := digits_value m in
      let frac := Z.of_nat (length fp) in
      match r2 with
      | [] => Ok (inject_Z mant * pow10 (- frac))%Q
      | e :: r3 =>
          if ascii_eqb (to_lower e) "e" then
            let '(neg, r4) :=
              match r3 with
              | "-"%char :: r => (true, r)
              | "+"%char :: r => (false, r)
              | _ => (false, r3)
              end in
            match digit_run r4 with
            | (d :: ds, []) =>
                let ex := digits_value (d :: ds) in
                let ex := if neg then - ex else ex in
                Ok (inject_Z mant * pow10 (ex - frac))%Q
            | _ => Raised
            end
          else Raised
      end
  end.

(** The builtin [float(s)] on a string; [ValueError] is [Raised]. *)
Definition py_float (s : list ascii) : exn pyfloat :=
  let t := strip s in
  let '(neg, body) :=
    match t with
    | "-"%char :: r => (true, r)
    | "+"%char :: r => (false, r)
    | _ => (false, t)
    end in
  let low := of_chars (to_lower <$> body) in
  if bool_decide (low = "inf" ∨ low = "infinity") then Ok (PInf neg)
  else if bool_decide (low = "nan") then Ok PNaN
  else try! q ← parse_decimal body;
       Ok (PFin (if neg then - q else q)%Q).

(** Decimal digits of a natural number, as [str(n)] prints them. *)
Definition str_N (n : N) : string := NilZero.string_of_uint (N.to_uint n).

Definition str_Z (z : Z) : string :=
  if z <? 0 then String "-" (str_N (Z.to_N (- z))) else str_N (Z.to_N z).

(** Round to the nearest integer, ties to even. *)
Definition round_half_even (q : Q) : Z :=
  let f := Qfloor q in
  match (q - inject_Z f ?= 1 # 2)%Q with
  | Lt => f
  | Gt => f + 1
  | Eq => if Z.even f then f else f + 1
  end.

Definition zero_pad (n : nat) (s : string) : string :=
  of_chars (replicate (n - String.length s) "0"%char) +:+ s.

(** [x] rounded to six decimals, as a count of millionths. *)
Definition micro (q : Q) : Z := round_half_even (Qabs q * inject_Z 1000000)%Q.

(** [f"{x:.6f}"]. *)
Definition fmt6 (x : pyfloat) : string :=
  match x with
  | PNaN => "nan"
  | PInf neg => if neg then "-inf" else "inf"
  | PFin q =>
      let n := micro q in
      let body := str_N (Z.to_N (n / 1000000)) +:+ "." +:+
                  zero_pad 6 (str_N (Z.to_N (n mod 1000000))) in
      if Qltb q 0 then String "-" body else body
  end.

End PyStr.
Export PyStr.

(** ** The file system *)

Module FS.

(** A path is the list of its components, outermost first; [dir / name]
    is [dir ++ [name]]. *)
Definition path : Type := list string.

Record filesys : Type := mkFS {
  dirs : gset path;
  files : gmap path string;
}.

Definition set_files (f : gmap path string → gmap path string)
    (fs : filesys) : filesys :=
  {| dirs := dirs fs; files := f (files fs) |}.

(** [Path.name] and [Path.stem] (the name without its last suffix; a dot
    in first or last position does not start a suffix). *)
Definition name (p : path) : string := default ""%string (last p).

Fixpoint rfind (c : ascii) (s : list ascii) : option nat :=
  match s with
  | [] => None
  | a :: s' =>
      match rfind c s' with
      | Some i => Some (S i)
      | None => if ascii_eqb a c then Some O else None
      end
  end.

Definition stem (p : path) : string :=
  let n := chars (name p) in
  match rfind "." n with
  | Some i =>
      if ((0 <? i) && (i <? length n - 1))%nat then of_chars (take i n)
      else name p
  | None => name p
  end.

(** [Path.exists()]. *)
Definition exists_ (fs : filesys) (p : path) : bool :=
  bool_decide (is_Some (files fs !! p)) || bool_decide (p ∈ dirs fs).

(** [Path.mkdir(parents=True, exist_ok=True)], when it succeeds: the
    path and its ancestors are directories afterwards. *)
Definition mkdir_p (p : path) (fs : filesys) : filesys :=
  {| dirs := dirs fs ∪ list_to_set ((λ n, take n p) <$> seq 0 (S (length p)));
     files := files fs |}.

(** The same call with its exception: it raises ([FileExistsError] or
    [NotADirectoryError]) when the path or one of its ancestors is a
    regular file, and creates nothing then. *)
Definition mkdir (p : path) (fs : filesys) : exn filesys :=
  if bool_decide (Exists (λ n, is_Some (files fs !! take n p))
                         (seq 0 (S (length p))))
  then Raised
  else Ok (mkdir_p p fs).

(** [Path.touch()]: creates an empty file when there is none; an existing
    file keeps its contents. *)
Definition touch (p : path) (fs : filesys) : filesys :=
  match files fs !! p with
  | Some _ => fs
  | None => set_files <[p := ""%string]> fs
  end.

(** [open(p, 'w')] followed by [writelines]: the file is replaced. *)
Definition write (p : path) (lines : list string) (fs : filesys) : filesys :=
  set_files <[p := foldr String.append ""%string lines]> fs.

(** [shutil.copy2(src, dst)].  A destination that is a directory stands
    for the file of the same name inside it; the call raises when source
    and destination are the same file ([SameFileError]), when [src] is
    not a file, and when the destination cannot be opened for writing
    (it is a directory, or its parent directory is missing). *)
Definition copy2 (src dst : path) (fs : filesys) : exn filesys :=
  let dst := if bool_decide (dst ∈ dirs fs) then dst ++ [name src] else dst in
  match files fs !! src with
  | Some c =>
      if bool_decide (src = dst) then Raised
      else if bool_decide (dst ∈ dirs fs) then Raised
      else if bool_decide (removelast dst ∈ dirs fs)
           then Ok (set_files <[dst := c]> fs)
           else Raised
  | None => Raised
  end.

(** [name] matches the pattern [*ext]. *)
Definition ends_with (ext name : string) : bool :=
  bool_decide (chars ext `suffix_of` chars name).

Definition in_dir (dir p : path) : bool :=
  match last p with
  | Some n => bool_decide (p = dir ++ [n])
  | None => false
  end.

(** [dir.glob('*' + ext)], over the regular files of [dir]. *)
Definition glob (fs : filesys) (dir : path) (ext : string) : list path :=
  filter (λ p, in_dir dir p && ends_with ext (name p))
         (map_to_list (files fs)).*1.

(** The image files of a directory, in the order both scripts list them. *)
Definition image_files (fs : filesys) (images_dir : path) : list path :=
  glob fs images_dir ".jpg" ++ glob fs images_dir ".png" ++
  glob fs images_dir ".tif" ++ glob fs images_dir ".tiff".

End FS.
Export FS.

(** ** The converter: [xViewToYOLOConverter] *)

Module Convert.

(** A pixel box [[xmin, ymin, xmax, ymax]]. *)
Definition bbox : Type := pyfloat * pyfloat * pyfloat * pyfloat.

(** The [geometry] of a feature: an object with a [bounds] attribute (the
    value of that attribute is the list given here), or a GeoJSON
    dictionary with its optional ["type"] and ["coordinates"] entries. *)
Inductive geometry : Type :=
| GShape (bounds : list pyfloat)
| GDict (type : option string)
        (coordinates : option (list (list (list pyfloat)))).

(** [c[i]] on a list; [IndexError] is [Raised]. *)
Definition py_nth {A} (l : list A) (i : nat) : exn A :=
  match l !! i with
  | Some x => Ok x
  | None => Raised
  end.

(** [_extract_bbox_from_geometry]: every exception of the body is caught
    and turned into [None]. *)
Definition _extract_bbox_from_geometry (geometry : option geometry)
  : option bbox :=
  match geometry with
  | None => None
  | Some (GShape [xmin; ymin; xmax; ymax]) => Some (xmin, ymin, xmax, ymax)
  | Some (GShape _) => None
  | Some (GDict type coordinates) =>
      if bool_decide (type = Some "Polygon"%string) then
        let body :=
          try! rings ← (match coordinates with
                        | Some r => Ok r
                        | None => Raised
                        end);
          try! coords ← py_nth rings 0;
          try! x_coords ← exn_map (λ c, py_nth c 0) coords;
          try! y_coords ← exn_map (λ c, py_nth c 1) coords;
          try! x0 ← py_min_list x_coords;
          try! y0 ← py_min_list y_coords;
          try! x1 ← py_max_list x_coords;
          try! y1 ← py_max_list y_coords;
          Ok (x0, y0, x1, y1) in
        match body with
        | Ok b => Some b
        | Raised => None
        end
      else None
  end.

(** The numeric part of [_bbox_to_yolo_format]: clamping, centre and
    extent, and the validation; [None] is the rejection of the box. *)
Definition yolo_fields (b : bbox) (img_width img_height : Z)
  : exn (option (pyfloat * pyfloat * pyfloat * pyfloat)) :=
  let '(xmin, ymin, xmax, ymax) := b in
  let xmin := py_max (of_Z 0) (py_min xmin (of_Z img_width)) in
  let ymin := py_max (of_Z 0) (py_min ymin (of_Z img_height)) in
  let xmax := py_max (of_Z 0) (py_min xmax (of_Z img_width)) in
  let ymax := py_max (of_Z 0) (py_min ymax (of_Z img_height)) in
  try! xs ← div (add xmin xmax) (of_Z 2);
  try! x_center ← div xs (of_Z img_width);
  try! ys ← div (add ymin ymax) (of_Z 2);
  try! y_center ← div ys (of_Z img_height);
  try! box_width ← div (sub xmax xmin) (of_Z img_width);
  try! box_height ← div (sub ymax ymin) (of_Z img_height);
  if leb box_width (of_Z 0) || leb box_height (of_Z 0)
     || ltb x_center (of_Z 0) || ltb y_center (of_Z 0)
  then Ok None
  else Ok (Some (x_center, y_center, box_width, box_height)).

Definition fmt_fields (f : pyfloat * pyfloat * pyfloat * pyfloat) : string :=
  let '(x_center, y_center, box_width, box_height) := f in
  fmt6 x_center +:+ " " +:+ fmt6 y_center +:+ " " +:+
  fmt6 box_width +:+ " " +:+ fmt6 box_height.

(** [_bbox_to_yolo_format]. *)
Definition _bbox_to_yolo_format (b : bbox) (img_width img_height : Z)
  : exn (option string) :=
  try! r ← yolo_fields b img_width img_height;
  Ok (fmt_fields <$> r).

(** One row of the annotation store.  A field is [None] when the row has
    no such key.  [ann_image_id] and [ann_feature_id] hold the string of
    the value (the empty string stands for a value that is false in a
    condition); a taxonomy field holds the outcome of [int(...)] on its
    value; [ann_bounds_imcoords] holds [str(...)] of its value. *)
Record annotation : Type := mkAnn {
  ann_image_id : option string;
  ann_feature_id : option string;
  ann_type : option (exn Z);
  ann_class_type : option (exn Z);
  ann_type_id : option (exn Z);
  ann_bounds_imcoords : option string;
  ann_geometry : option geometry;
}.

(** The [stats] dictionary. *)
Record stats : Type := mkStats {
  total_images : Z;
  processed_images : Z;
  skipped_images : Z;
  total_objects : Z;
  objects_by_class : gmap Z Z;
  missing_images : list string;
  invalid_annotations : Z;
}.

Definition stats0 : stats :=
  mkStats 0 0 0 0 ∅ [] 0.

Definition incr_invalid (s : stats) : stats :=
  mkStats (total_images s) (processed_images s) (skipped_images s)
          (total_objects s) (objects_by_class s) (missing_images s)
          (invalid_annotations s + 1).

Definition incr_class (class_type : Z) (s : stats) : stats :=
  mkStats (total_images s) (processed_images s) (skipped_images s)
          (total_objects s)
          (<[class_type := default 0 (objects_by_class s !! class_type) + 1]>
             (objects_by_class s))
          (missing_images s) (invalid_annotations s).

Definition add_skipped (image_name : string) (s : stats) : stats :=
  mkStats (total_images s) (processed_images s) (skipped_images s + 1)
          (total_objects s) (objects_by_class s)
          (missing_images s ++ [image_name]) (invalid_annotations s).

Definition add_processed (objects_count : Z) (s : stats) : stats :=
  mkStats (total_images s) (processed_images s + 1) (skipped_images s)
          (total_objects s + objects_count) (objects_by_class s)
          (missing_images s) (invalid_annotations s).

Definition set_total_images (n : Z) (s : stats) : stats :=
  mkStats n (processed_images s) (skipped_images s)
          (total_objects s) (objects_by_class s)
          (missing_images s) (invalid_annotations s).

(** The default mapping of [_load_class_mapping] and, for a mapping given
    by the configuration, the renumbering in ascending order of the raw
    identifier. *)
Definition default_class_dict : list (Z * Z) :=
  [(11, 0); (12, 1); (13, 2); (15, 3); (21, 4);
   (37, 5); (52, 6); (57, 7); (58, 8); (59, 9)].

Definition _load_class_mapping (config : option (gmap Z Z)) : gmap Z Z :=
  let class_dict : gmap Z Z :=
    match config with
    | Some d => d
    | None => list_to_map default_class_dict
    end in
  let ids := merge_sort Z.le (map_to_list class_dict).*1 in
  list_to_map (zip ids (Z.of_nat <$> seq 0 (length ids))).

(** The grouping of the store by image identifier ([annotations_by_image]). *)
Definition image_id_of (row : annotation) : option string :=
  match ann_image_id row with
  | Some i => Some i
  | None =>
      match ann_feature_id row with
      | Some f => Some (of_chars (default [] (head (split_on "." (chars f)))))
      | None => None
      end
  end.

Definition group_annotations (gdf : list annotation)
  : gmap string (list annotation) :=
  foldl (λ m row,
           match image_id_of row with
           | Some i =>
               if bool_decide (i = ""%string) then m
               else <[i := default [] (m !! i) ++ [row]]> m
           | None => m
           end) ∅ gdf.

(** The taxonomy identifier of an annotation: the first present of the
    three keys; [None] when there is none. *)
Definition class_type_of (ann : annotation) : exn (option Z) :=
  match ann_type ann, ann_class_type ann, ann_type_id ann with
  | Some c, _, _ | None, Some c, _ | None, None, Some c =>
      try! z ← c; Ok (Some z)
  | None, None, None => Ok None
  end.

(** The box of an annotation (lines 212 to 221 of the script). *)
Definition bbox_of (ann : annotation) : exn (option bbox) :=
  match ann_bounds_imcoords ann with
  | Some coords_str =>
      if bool_decide (coords_str ≠ ""%string ∧ coords_str ≠ "nan"%string) then
        try! coords ← exn_map (λ x, py_float (strip x))
                              (split_on "," (chars coords_str));
        match coords with
        | [xmin; ymin; xmax; ymax] => Ok (Some (xmin, ymin, xmax, ymax))
        | _ => Ok None
        end
      else Ok None
  | None =>
      match ann_geometry ann with
      | Some g => Ok (_extract_bbox_from_geometry (Some g))
      | None => Ok None
      end
  end.

Definition nl : string := String "010"%char EmptyString.

(** The state of the loop over the annotations of one image. *)
Record loop_state : Type := mkLoop {
  label_lines : list string;
  objects_count : Z;
  loop_stats : stats;
}.

Definition count_invalid (s : loop_state) : loop_state :=
  mkLoop (label_lines s) (objects_count s) (incr_invalid (loop_stats s)).

(** The body of the [try] block for one annotation. *)
Definition try_annotation (class_map : gmap Z Z) (w h : Z)
    (s : loop_state) (ann : annotation) : exn loop_state :=
  try! class_type ← class_type_of ann;
  match class_type ≫= (λ c, (λ y, (c, y)) <$> class_map !! c) with
  | None => Ok s
  | Some (class_type, yolo_class_id) =>
      try! b ← bbox_of ann;
      match b with
      | None => Ok (count_invalid s)
      | Some b =>
          try! yolo_line ← _bbox_to_yolo_format b w h;
          match yolo_line with
          | Some l =>
              if bool_decide (l = ""%string) then Ok s
              else Ok (mkLoop
                         (label_lines s ++
                            [str_Z yolo_class_id +:+ " " +:+ l +:+ nl])
                         (objects_count s + 1)
                         (incr_class class_type (loop_stats s)))
          | None => Ok s
          end
      end
  end.

(** One iteration of [for ann in annotations], with its [except]. *)
Definition convert_annotation (class_map : gmap Z Z) (w h : Z)
    (s : loop_state) (ann : annotation) : loop_state :=
  match try_annotation class_map w h s ann with
  | Ok s' => s'
  | Raised => count_invalid s
  end.

Definition is_nil {A} (l : list A) : bool :=
  match l with [] => true | _ => false end.

Section Converter.

(** [cv2.imread] on the contents of a file: the height and the width of
    the decoded image, or [None]. *)
Variable imread : string → option (Z * Z).

Record converter : Type := mkConverter {
  images_dir : path;
  output_dir : path;
  labels_dir : path;
  class_map : gmap Z Z;
  init_stats : stats;
}.

(** [__init__]. *)
Definition init (images_dir output_dir : path)
    (classes_config : option (gmap Z Z)) (fs : filesys)
  : filesys * converter :=
  let labels_dir := output_dir ++ ["labels"%string] in
  (mkdir_p labels_dir (mkdir_p output_dir fs),
   mkConverter images_dir output_dir labels_dir
               (_load_class_mapping classes_config) stats0).

Definition label_path (c : converter) (image_file : path) : path :=
  labels_dir c ++ [stem image_file +:+ ".txt"].

(** The annotations looked up for an image: under its stem, else under
    its file name. *)
Definition annotations_for (idx : gmap string (list annotation))
    (image_file : path) : list annotation :=
  let annotations := default [] (idx !! stem image_file) in
  if is_nil annotations then default [] (idx !! name image_file)
  else annotations.

(** One iteration of [for image_file in image_files]. *)
Definition convert_image (c : converter)
    (idx : gmap string (list annotation))
    (s : filesys * stats) (image_file : path) : filesys * stats :=
  let '(fs, st) := s in
  match files fs !! image_file ≫= imread with
  | None => (fs, add_skipped (stem image_file) st)
  | Some (h, w) =>
      let annotations := annotations_for idx image_file in
      if is_nil annotations then (touch (label_path c image_file) fs, st)
      else
        let r := foldl (convert_annotation (class_map c) w h)
                       (mkLoop [] 0 st) annotations in
        if is_nil (label_lines r) then (fs, loop_stats r)
        else (write (label_path c image_file) (label_lines r) fs,
              add_processed (objects_count r) (loop_stats r))
  end.

(** [convert]: the file system after the run and the statistics. *)
Definition convert (c : converter) (gdf : list annotation)
    (fs : filesys) : filesys * stats :=
  let image_files := image_files fs (images_dir c) in
  let st := set_total_images (Z.of_nat (length image_files))
                             (init_stats c) in
  let annotations_by_image := group_annotations gdf in
  foldl (convert_image c annotations_by_image) (fs, st) image_files.

End Converter.

End Convert.

(** ** The splitter: [DatasetSplitter] *)

Module Split.

(** A slice bound [i] of a list of length [n], as Python normalises it: a
    negative bound counts from the end, and the result is clipped to
    [0..n]. *)
Definition slice_bound (n i : Z) : Z :=
  if i <? 0 then Z.max 0 (i + n) else Z.min i n.

(** [l[lo:hi]]; an omitted bound is [None]. *)
Definition py_slice {A} (l : list A) (lo hi : option Z) : list A :=
  let n := Z.of_nat (length l) in
  let lo' := from_option (slice_bound n) 0 lo in
  let hi' := from_option (slice_bound n) n hi in
  take (Z.to_nat (hi' - lo')) (drop (Z.to_nat lo') l).

Record splitter : Type := mkSplitter {
  images_dir : path;
  labels_dir : path;
  output_dir : path;
  train_ratio : pyfloat;
  val_ratio : pyfloat;
  test_ratio : pyfloat;
}.

Definition train_img_dir (sp : splitter) : path :=
  output_dir sp ++ ["images"; "train"]%string.
Definition val_img_dir (sp : splitter) : path :=
  output_dir sp ++ ["images"; "val"]%string.
Definition test_img_dir (sp : splitter) : path :=
  output_dir sp ++ ["images"; "test"]%string.
Definition train_lbl_dir (sp : splitter) : path :=
  output_dir sp ++ ["labels"; "train"]%string.
Definition val_lbl_dir (sp : splitter) : path :=
  output_dir sp ++ ["labels"; "val"]%string.
Definition test_lbl_dir (sp : splitter) : path :=
  output_dir sp ++ ["labels"; "test"]%string.

(** [__init__]: the file system after the call, and the object or the
    [ValueError]. *)
Definition init (images_dir labels_dir output_dir : path)
    (train_ratio val_ratio test_ratio : pyfloat) (fs : filesys)
  : filesys * exn splitter :=
  let total := add (add train_ratio val_ratio) test_ratio in
  if ltb (PFin (1 # 100)) (py_abs (sub total (of_Z 1))) then (fs, Raised)
  else
    let sp := mkSplitter images_dir labels_dir output_dir
                         train_ratio val_ratio test_ratio in
    (foldl (λ fs dir_path, mkdir_p dir_path fs) fs
           [train_img_dir sp; val_img_dir sp; test_img_dir sp;
            train_lbl_dir sp; val_lbl_dir sp; test_lbl_dir sp],
     Ok sp).

Definition label_of (sp : splitter) (img_file : path) : path :=
  labels_dir sp ++ [stem img_file +:+ ".txt"].

(** The images that have a label file, each with its label file. *)
Definition valid_pairs (sp : splitter) (fs : filesys) : list (path * path) :=
  omap (λ img_file,
          let label_file := label_of sp img_file in
          if exists_ fs label_file then Some (img_file, label_file)
          else None)
       (image_files fs (images_dir sp)).

(** The copies of one partition; the file system keeps what was copied
    before an exception. *)
Fixpoint copy_pairs (pairs : list (path * path)) (img_dir lbl_dir : path)
    (fs : filesys) : filesys * exn unit :=
  match pairs with
  | [] => (fs, Ok ())
  | (img_file, label_file) :: rest =>
      match copy2 img_file (img_dir ++ [name img_file]) fs with
      | Raised => (fs, Raised)
      | Ok fs1 =>
          match copy2 label_file (lbl_dir ++ [name label_file]) fs1 with
          | Raised => (fs1, Raised)
          | Ok fs2 => copy_pairs rest img_dir lbl_dir fs2
          end
      end
  end.

Section Splitter.

(** [random.seed(seed); random.shuffle(l)]. *)
Variable shuffle : Z → list (path * path) → list (path * path).

(** The three partitions [train_pairs], [val_pairs], [test_pairs]. *)
Definition partitions (sp : splitter) (seed : Z) (fs : filesys)
  : exn (list (path * path) * list (path * path) * list (path * path)) :=
  let valid_pairs := shuffle seed (valid_pairs sp fs) in
  let total := Z.of_nat (length valid_pairs) in
  try! train_end ← py_int (mul (train_ratio sp) (of_Z total));
  try! val_count ← py_int (mul (val_ratio sp) (of_Z total));
  let val_end := train_end + val_count in
  Ok (py_slice valid_pairs None (Some train_end),
      py_slice valid_pairs (Some train_end) (Some val_end),
      py_slice valid_pairs (Some val_end) None).

(** [split]: the file system after the call, and the three counts or
    the exception. *)
Definition split (sp : splitter) (seed : Z) (fs : filesys)
  : filesys * exn (Z * Z * Z) :=
  match partitions sp seed fs with
  | Raised => (fs, Raised)
  | Ok (train_pairs, val_pairs, test_pairs) =>
      match copy_pairs train_pairs (train_img_dir sp) (train_lbl_dir sp) fs
      with
      | (fs1, Raised) => (fs1, Raised)
      | (fs1, Ok _) =>
          match copy_pairs val_pairs (val_img_dir sp) (val_lbl_dir sp) fs1
          with
          | (fs2, Raised) => (fs2, Raised)
          | (fs2, Ok _) =>
              match copy_pairs test_pairs (test_img_dir sp)
                               (test_lbl_dir sp) fs2 with
              | (fs3, Raised) => (fs3, Raised)
              | (fs3, Ok _) =>
                  (fs3, Ok (Z.of_nat (length train_pairs),
                            Z.of_nat (length val_pairs),
                            Z.of_nat (length test_pairs)))
              end
          end
      end
  end.

End Splitter.

End Split.

(** ** The float expressions in binary64 *)

Module Binary64.

Import PrimFloat.
#[local] Set Warnings "-inexact-float".

(** [float(z)] for an integer below 2^63 in absolute value. *)
Definition of_int (z : Z) : float :=
  if (z <? 0)%Z then (- of_uint63 (Uint63.of_Z (- z)))%float
  else of_uint63 (Uint63.of_Z z).

(** The exact value of a float (both zeros are 0). *)
Definition to_pyfloat (x : float) : pyfloat :=
  match FloatOps.Prim2SF x with
  | SpecFloat.S754_zero _ => PFin 0
  | SpecFloat.S754_infinity s => PInf s
  | SpecFloat.S754_nan => PNaN
  | SpecFloat.S754_finite s m e =>
      let v := if (0 <=? e)%Z then inject_Z (Z.pos m * 2 ^ e)
               else Z.pos m # 2 ^ Z.to_pos (- e) in
      PFin (if s then - v else v)%Q
  end.

Definition py_min (a b : float) : float := if ltb b a then b else a.
Definition py_max (a b : float) : float := if ltb a b then b else a.

(** Lines 110 to 126 of [convert_xview_to_yolo.py]. *)
Definition yolo_fields (b : float * float * float * float)
    (img_width img_height : Z)
  : exn (option (float * float * float * float)) :=
  let '(xmin, ymin, xmax, ymax) := b in
  let xmin := py_max 0 (py_min xmin (of_int img_width)) in
  let ymin := py_max 0 (py_min ymin (of_int img_height)) in
  let xmax := py_max 0 (py_min xmax (of_int img_width)) in
  let ymax := py_max 0 (py_min ymax (of_int img_height)) in
  if bool_decide (img_width = 0%Z ∨ img_height = 0%Z) then Raised
  else
    let x_center := ((xmin + xmax) / 2 / of_int img_width)%float in
    let y_center := ((ymin + ymax) / 2 / of_int img_height)%float in
    let box_width := ((xmax - xmin) / of_int img_width)%float in
    let box_height := ((ymax - ymin) / of_int img_height)%float in
    if leb box_width 0 || leb box_height 0
       || ltb x_center 0 || ltb y_center 0
    then Ok None
    else Ok (Some (x_center, y_center, box_width, box_height)).

(** Line 128: the four fields at six decimals, correctly rounded from
    the exact value of each float. *)
Definition _bbox_to_yolo_format (b : float * float * float * float)
    (img_width img_height : Z) : exn (option string) :=
  try! r ← yolo_fields b img_width img_height;
  Ok ((λ '(x, y, w, h),
         Convert.fmt_fields
           (to_pyfloat x, to_pyfloat y, to_pyfloat w, to_pyfloat h)) <$> r).

(** Lines 33 and 34 of [split_dataset.py]: the ratios are rejected. *)
Definition ratios_rejected (train_ratio val_ratio test_ratio : float)
  : bool :=
  let total := (train_ratio + val_ratio + test_ratio)%float in
  ltb 0.01 (abs (total - 1.0)).

(** Lines 78 and 79: [train_end] and [val_end]. *)
Definition cut_points (train_ratio val_ratio : float) (total : Z)
  : exn (Z * Z) :=
  try! train_end ← py_int (to_pyfloat (train_ratio * of_int total));
  try! val_count ← py_int (to_pyfloat (val_ratio * of_int total));
  Ok (train_end, (train_end + val_count)%Z).

(** The splitter with its ratios as binary64 floats. *)
Record splitter : Type := mkSplitter {
  images_dir : path;
  labels_dir : path;
  output_dir : path;
  train_ratio : float;
  val_ratio : float;
  test_ratio : float;
}.

(** The same object with the exact values of its ratios; its paths are
    those of the splitter. *)
Definition paths (sp : splitter) : Split.splitter :=
  Split.mkSplitter (images_dir sp) (labels_dir sp) (output_dir sp)
                   (to_pyfloat (train_ratio sp)) (to_pyfloat (val_ratio sp))
                   (to_pyfloat (test_ratio sp)).

(** Lines 50 and 51: the loop of the [mkdir] calls; the directories made
    before an exception stay. *)
Fixpoint mkdirs (dir_paths : list path) (fs : filesys)
  : filesys * exn unit :=
  match dir_paths with
  | [] => (fs, Ok ())
  | dir_path :: rest =>
      match mkdir dir_path fs with
      | Ok fs' => mkdirs rest fs'
      | Raised => (fs, Raised)
      end
  end.

(** [__init__] (lines 28 to 51). *)
Definition init (images_dir labels_dir output_dir : path)
    (train_ratio val_ratio test_ratio : float) (fs : filesys)
  : filesys * exn splitter :=
  if ratios_rejected train_ratio val_ratio test_ratio then (fs, Raised)
  else
    let sp := mkSplitter images_dir labels_dir output_dir
                         train_ratio val_ratio test_ratio in
    match mkdirs [Split.train_img_dir (paths sp); Split.val_img_dir (paths sp);
                  Split.test_img_dir (paths sp); Split.train_lbl_dir (paths sp);
                  Split.val_lbl_dir (paths sp); Split.test_lbl_dir (paths sp)]
                 fs with
    | (fs', Ok _) => (fs', Ok sp)
    | (fs', Raised) => (fs', Raised)
    end.

Section Splitter.

(** [random.seed(seed); random.shuffle(l)]. *)
Variable shuffle : Z → list (path * path) → list (path * path).

(** Lines 64 to 84: the three partitions. *)
Definition partitions (sp : splitter) (seed : Z) (fs : filesys)
  : exn (list (path * path) * list (path * path) * list (path * path)) :=
  let valid_pairs := shuffle seed (Split.valid_pairs (paths sp) fs) in
  let total := Z.of_nat (length valid_pairs) in
  try! ends ← cut_points (train_ratio sp) (val_ratio sp) total;
  let '(train_end, val_end) := ends in
  Ok (Split.py_slice valid_pairs None (Some train_end),
      Split.py_slice valid_pairs (Some train_end) (Some val_end),
      Split.py_slice valid_pairs (Some val_end) None).

(** [split]: the file system after the call, and the three counts or
    the exception. *)
Definition split (sp : splitter) (seed : Z) (fs : filesys)
  : filesys * exn (Z * Z * Z) :=
  match partitions sp seed fs with
  | Raised => (fs, Raised)
  | Ok (train_pairs, val_pairs, test_pairs) =>
      let sp' := paths sp in
      match Split.copy_pairs train_pairs (Split.train_img_dir sp')
                             (Split.train_lbl_dir sp') fs with
      | (fs1, Raised) => (fs1, Raised)
      | (fs1, Ok _) =>
          match Split.copy_pairs val_pairs (Split.val_img_dir sp')
                                 (Split.val_lbl_dir sp') fs1 with
          | (fs2, Raised) => (fs2, Raised)
          | (fs2, Ok _) =>
              match Split.copy_pairs test_pairs (Split.test_img_dir sp')
                                     (Split.test_lbl_dir sp') fs2 with
              | (fs3, Raised) => (fs3, Raised)
              | (fs3, Ok _) =>
                  (fs3, Ok (Z.of_nat (length train_pairs),
                            Z.of_nat (length val_pairs),
                            Z.of_nat (length test_pairs)))
              end
          end
      end
  end.

End Splitter.

End Binary64.

(** * Vocabulary of the specification, and example data *)

Section BoxVocabulary.

Import Convert.
Local Open Scope Q_scope.



(** The value a [.6f] field denotes. *)
Definition rounded6 (q : Q) : Q := inject_Z (micro q) / 1000000.

(** A ring of vertices with finite coordinates. *)
Definition ring_of (pts : list (Q * Q)) : list (list pyfloat) :=
  (λ p, [PFin p.1; PFin p.2]) <$> pts.

(** An annotation whose bounds string has a non-numeric field and whose
    geometry is the square with the corners (100, 100) and (300, 300). *)
Definition polygon_ann : annotation :=
  mkAnn (Some "img1"%string) None (Some (Ok 13%Z)) None None
        (Some "100,abc,300,300"%string)
        (Some (GDict (Some "Polygon"%string)
                 (Some [ring_of [(100, 100); (300, 100); (300, 300);
                                 (100, 300); (100, 100)]]))).

(** The same annotation without the bounds key. *)
Definition polygon_only_ann : annotation :=
  mkAnn (Some "img1"%string) None (Some (Ok 13%Z)) None None None
        (ann_geometry polygon_ann).

End BoxVocabulary.

Section AnnotationVocabulary.

Import Convert.

(** The class of an annotation is known: its taxonomy identifier is read
    and is a key of the class map. *)
Definition mapped_class (class_map : gmap Z Z) (ann : annotation)
    (class_type yolo_class_id : Z) : Prop :=
  class_type_of ann = Ok (Some class_type) ∧
  class_map !! class_type = Some yolo_class_id.

(** The taxonomy identifier is read (or there is none) and is no key of
    the class map. *)
Definition unknown_class (class_map : gmap Z Z) (ann : annotation) : Prop :=
  class_type_of ann = Ok None ∨
  ∃ class_type, class_type_of ann = Ok (Some class_type) ∧
                class_map !! class_type = None.

(** An annotation is filtered out: its class is unknown, or its class is
    mapped and its geometry is unresolvable or its box is rejected by the
    normalizer. *)
Definition filtered_out (class_map : gmap Z Z) (w h : Z)
    (ann : annotation) : Prop :=
  unknown_class class_map ann ∨
  ∃ t y, mapped_class class_map ann t y ∧
         ((∀ b, bbox_of ann ≠ Ok (Some b)) ∨
          ∃ b, bbox_of ann = Ok (Some b) ∧
               _bbox_to_yolo_format b w h = Ok None).

(** The two rules of the specification, and their combination "first
    success wins". *)
Definition bounds_rule (ann : annotation) : option bbox :=
  match ann_bounds_imcoords ann with
  | Some coords_str =>
      match exn_map (λ x, py_float (strip x))
                    (split_on "," (chars coords_str)) with
      | Ok [xmin; ymin; xmax; ymax] => Some (xmin, ymin, xmax, ymax)
      | _ => None
      end
  | None => None
  end.

Definition polygon_rule (ann : annotation) : option bbox :=
  _extract_bbox_from_geometry (ann_geometry ann).

Definition first_success (ann : annotation) : option bbox :=
  match bounds_rule ann with
  | Some b => Some b
  | None => polygon_rule ann
  end.

(** The annotation of the scenario of the specification, a malformed one,
    one of an unknown class and a degenerate one. *)
Definition scenario_ann : annotation :=
  mkAnn (Some "a"%string) None (Some (Ok 13)) None None
        (Some "100,100,300,300"%string) None.

Definition malformed_ann : annotation :=
  mkAnn (Some "a"%string) None (Some (Ok 13)) None None
        (Some "100,abc,300,300"%string) None.

Definition unknown_ann : annotation :=
  mkAnn (Some "a"%string) None (Some (Ok 99)) None None
        (Some "100,100,300,300"%string) None.

Definition degenerate_ann : annotation :=
  mkAnn (Some "a"%string) None (Some (Ok 13)) None None
        (Some "2000,100,3000,300"%string) None.

(** An image directory with the single decodable image [a.jpg], an empty
    annotation store, and an output directory in which [labels/a.txt] is
    absent ([None]) or left over from an earlier run ([Some contents]). *)
Definition rerun_imread (contents : string) : option (Z * Z) :=
  if bool_decide (contents = "corrupt"%string) then None
  else Some (1024, 1024).

Definition stale_label : string :=
  "0 0.500000 0.500000 0.100000 0.100000" +:+ nl.

Definition rerun_fs (old : option string) : filesys :=
  let image : gmap path string :=
    {[ ["img"; "a.jpg"]%string := "pixels"%string ]} in
  mkFS {[ ["img"%string] ]}
       (match old with
        | Some contents =>
            <[ ["out"; "labels"; "a.txt"]%string := contents ]> image
        | None => image
        end).

Definition rerun (old : option string) : filesys * stats :=
  let '(fs, c) := init ["img"%string] ["out"%string] None (rerun_fs old) in
  convert rerun_imread c [] fs.

(** A fresh output directory and two decodable images with the same
    stem, [a.jpg] and [a.png]; the only annotation of the store carries
    the image identifier [a.jpg]. *)
Definition twin_fs : filesys :=
  mkFS {[ ["img"%string] ]}
       (list_to_map [(["img"; "a.jpg"], "pixels");
                     (["img"; "a.png"], "pixels")]%string).

Definition twin_ann : annotation :=
  mkAnn (Some "a.jpg"%string) None (Some (Ok 13)) None None
        (Some "100,100,300,300"%string) None.

Definition twin_run : filesys * stats :=
  let '(fs, c) := init ["img"%string] ["out"%string] None twin_fs in
  convert rerun_imread c [twin_ann] fs.

(** The converter of these runs. *)
Definition rerun_converter : converter :=
  (init ["img"%string] ["out"%string] None (rerun_fs None)).2.

End AnnotationVocabulary.

Section SplitVocabulary.

Import Split.

(** The elements of [l] whose index [i] satisfies [lo <= i < hi], the
    first element having the index [i0]. *)
Fixpoint index_range_from {A} (i0 lo hi : Z) (l : list A) : list A :=
  match l with
  | [] => []
  | x :: l' =>
      (if (lo <=? i0) && (i0 <? hi) then [x] else [])
        ++ index_range_from (i0 + 1) lo hi l'
  end.

Definition index_range {A} (l : list A) (lo hi : Z) : list A :=
  index_range_from 0 lo hi l.

(** The counts and the partition of the specification: cut points at
    [floor(ratio * N)]. *)
Definition floor_count (ratio : Q) (N : Z) : Z :=
  Qfloor (ratio * inject_Z N)%Q.

Definition cut_point_partition {A} (l : list A) (trainRatio valRatio : Q)
  : list A * list A * list A :=
  let N := Z.of_nat (length l) in
  let trainCount := floor_count trainRatio N in
  let valCount := floor_count valRatio N in
  (index_range l 0 trainCount,
   index_range l trainCount (trainCount + valCount),
   index_range l (trainCount + valCount) N).

(** A corpus of four labelled images and one image without label, and
    ratios that pass the check of the constructor although the train
    ratio is negative. *)
Definition neg_fs : filesys :=
  mkFS {[ ["img"%string]; ["lbl"%string] ]}
       (list_to_map
          [(["img"; "a.jpg"], "A"); (["img"; "b.jpg"], "B");
           (["img"; "c.png"], "C"); (["img"; "d.tif"], "D");
           (["img"; "e.tiff"], "E");
           (["lbl"; "a.txt"], ""); (["lbl"; "b.txt"], "");
           (["lbl"; "c.txt"], ""); (["lbl"; "d.txt"], "")]%string).

Definition neg_sp : splitter :=
  mkSplitter ["img"%string] ["lbl"%string] ["out"%string]
             (PFin (- 1 # 2)) (PFin (3 # 4)) (PFin (3 # 4)).

(** The default ratios, and a shuffle that reverses the list. *)
Definition default_sp : splitter :=
  mkSplitter ["img"%string] ["lbl"%string] ["out"%string]
             (PFin (8 # 10)) (PFin (15 # 100)) (PFin (5 # 100)).

Definition rev_shuffle (seed : Z) (l : list (path * path))
  : list (path * path) := reverse l.

(** The ratios of the two scenarios as binary64 floats. *)
Definition b64_ratio (percent : Z) : PrimFloat.float :=
  PrimFloat.div (Binary64.of_int percent) (Binary64.of_int 100).

End SplitVocabulary.

(** * Vocabulary of the run-level properties *)

Section RunVocabulary.

Import Convert.

(** The sum of the per-class counters,
    [sum(stats['objects_by_class'].values())]. *)
Definition class_total (m : gmap Z Z) : Z :=
  map_fold (λ _ v acc, v + acc) 0 m.

(** The line one annotation contributes to the label file of an image of
    width [w] and height [h], if any: lines 196 to 231 of the script
    without the counters. *)
Definition line_of (class_map : gmap Z Z) (w h : Z) (ann : annotation)
  : option string :=
  match class_type_of ann with
  | Ok (Some class_type) =>
      match class_map !! class_type, bbox_of ann with
      | Some yolo_class_id, Ok (Some b) =>
          match _bbox_to_yolo_format b w h with
          | Ok (Some yolo_line) =>
              Some (str_Z yolo_class_id +:+ " " +:+ yolo_line +:+ nl)
          | _ => None
          end
      | _, _ => None
      end
  | _ => None
  end.

(** What the loop over the annotations keeps, from the loop state [s0]
    to the loop state [s]: the lines appended are counted by
    [objects_count] and by the per-class counters, an annotation gives
    a line or an invalid annotation or neither, and the counters of the
    images are not touched. *)
Definition loop_inv (class_map : gmap Z Z) (anns : list annotation)
    (s0 s : loop_state) : Prop :=
  ∃ new : list string,
    label_lines s = label_lines s0 ++ new
    ∧ objects_count s = objects_count s0 + Z.of_nat (length new)
    ∧ invalid_annotations (loop_stats s0) ≤ invalid_annotations (loop_stats s)
    ∧ Z.of_nat (length new)
        + (invalid_annotations (loop_stats s)
           - invalid_annotations (loop_stats s0))
      ≤ Z.of_nat (length anns)
    ∧ class_total (objects_by_class (loop_stats s))
      = class_total (objects_by_class (loop_stats s0)) + Z.of_nat (length new)
    ∧ (∀ t, default 0 (objects_by_class (loop_stats s0) !! t)
            ≤ default 0 (objects_by_class (loop_stats s) !! t))
    ∧ (∀ t, objects_by_class (loop_stats s0) !! t = None →
            is_Some (objects_by_class (loop_stats s) !! t) →
            is_Some (class_map !! t))
    ∧ total_images (loop_stats s) = total_images (loop_stats s0)
    ∧ processed_images (loop_stats s) = processed_images (loop_stats s0)
    ∧ skipped_images (loop_stats s) = skipped_images (loop_stats s0)
    ∧ total_objects (loop_stats s) = total_objects (loop_stats s0)
    ∧ missing_images (loop_stats s) = missing_images (loop_stats s0).

(** The label lines the run computes for an image file, from the file
    system [fs] at the start of the run: none when the image cannot be
    decoded. *)
Definition lines_of_image (imread : string → option (Z * Z))
    (c : converter) (idx : gmap string (list annotation))
    (fs : filesys) (image_file : path) : list string :=
  match files fs !! image_file ≫= imread with
  | Some (h, w) =>
      omap (line_of (class_map c) w h) (annotations_for idx image_file)
  | None => []
  end.

(** The image cannot be decoded. *)
Definition undecodable (imread : string → option (Z * Z))
    (fs : filesys) (image_file : path) : bool :=
  bool_decide (files fs !! image_file ≫= imread = None).

(** The label file of an image after an iteration that starts with the
    label [old]: kept when the image is undecodable or when its group
    gives no line, created empty (or kept) when the image has no group,
    replaced by the lines otherwise. *)
Definition label_after (imread : string → option (Z * Z))
    (c : converter) (idx : gmap string (list annotation))
    (fs : filesys) (image_file : path) (old : option string)
  : option string :=
  match files fs !! image_file ≫= imread with
  | None => old
  | Some _ =>
      if is_nil (annotations_for idx image_file)
      then Some (default ""%string old)
      else
        let lines := lines_of_image imread c idx fs image_file in
        if is_nil lines then old
        else Some (foldr String.append ""%string lines)
  end.

(** The label files of the listed images can be written: the labels
    directory exists, as [__init__] leaves it, and no label path is a
    directory. *)
Definition labels_writable (c : converter) (fs : filesys) : Prop :=
  labels_dir c ∈ dirs fs ∧
  Forall (λ image_file, label_path c image_file ∉ dirs fs)
         (image_files fs (images_dir c)).

(** A corpus of three images, of which [c.tif] cannot be decoded, after
    the constructor of the converter has made the output directories;
    the store of the runs on it holds one annotation, of the image
    [a]. *)
Definition demo_fs : filesys :=
  (init ["img"%string] ["out"%string] None
        (mkFS {[ ["img"%string] ]}
              (list_to_map [(["img"; "a.jpg"], "pixels");
                            (["img"; "b.png"], "pixels");
                            (["img"; "c.tif"], "corrupt")]%string))).1.

End RunVocabulary.

Section SplitRunVocabulary.

Import Split.

(** The six directories of the partitions. *)
Definition partition_dirs (sp : splitter) : list path :=
  [train_img_dir sp; val_img_dir sp; test_img_dir sp;
   train_lbl_dir sp; val_lbl_dir sp; test_lbl_dir sp].




Definition demo_sp : splitter :=
  mkSplitter ["img"%string] ["out"; "labels"]%string ["data"%string]
             (PFin (8 # 10)) (PFin (15 # 100)) (PFin (5 # 100)).

End SplitRunVocabulary.

Section ClipVocabulary.


End ClipVocabulary.

Section DecimalVocabulary.

(** The digits of a decimal numeral, most significant first, and the
    characters that print them. *)
Fixpoint digits_of_uint (d : Decimal.uint) : list Z :=
  match d with
  | Decimal.Nil => []
  | Decimal.D0 l => 0 :: digits_of_uint l
  | Decimal.D1 l => 1 :: digits_of_uint l
  | Decimal.D2 l => 2 :: digits_of_uint l
  | Decimal.D3 l => 3 :: digits_of_uint l
  | Decimal.D4 l => 4 :: digits_of_uint l
  | Decimal.D5 l => 5 :: digits_of_uint l
  | Decimal.D6 l => 6 :: digits_of_uint l
  | Decimal.D7 l => 7 :: digits_of_uint l
  | Decimal.D8 l => 8 :: digits_of_uint l
  | Decimal.D9 l => 9 :: digits_of_uint l
  end.

Definition digit_char (d : Z) : ascii := ascii_of_N (Z.to_N d + 48).

Definition digit_chars (ds : list Z) : list ascii := digit_char <$> ds.

(** A list of decimal digits. *)
Definition is_digits (ds : list Z) : Prop := Forall (λ d, 0 ≤ d ≤ 9) ds.

(** The rest of the input does not continue a run of digits. *)
Definition stops (r : list ascii) : Prop :=
  match r with
  | [] => True
  | c :: _ => digit_of c = None ∧ c ≠ "_"%char
  end.

(** No character of [s] is white space. *)
Definition no_space (s : list ascii) : Prop :=
  Forall (λ c, is_space c = false) s.

(** [s.split()]: the maximal runs of characters that are not white
    space. *)
Fixpoint split_ws (s : list ascii) : list (list ascii) :=
  match s with
  | [] => []
  | a :: s' =>
      let r := split_ws s' in
      if is_space a then r
      else
        match s' with
        | b :: _ =>
            if is_space b then [a] :: r
            else match r with
                 | h :: t => (a :: h) :: t
                 | [] => [[a]]
                 end
        | [] => [[a]]
        end
  end.

(** The reader of a label line of [scripts/augment_data.py] (lines 140
    to 142): the numbers of a line of at least five fields; a shorter
    line is skipped. *)
Definition read_label_line (line : string) : exn (option (list pyfloat)) :=
  let parts := split_ws (strip (chars line)) in
  if (5 <=? length parts)%nat
  then try! bbox ← exn_map py_float parts; Ok (Some bbox)
  else Ok None.

(** [sep.join(l)]. *)
Fixpoint join (sep : string) (l : list string) : string :=
  match l with
  | [] => ""
  | [x] => x
  | x :: l' => x +:+ sep +:+ join sep l'
  end.

End DecimalVocabulary.

Section DataYamlVocabulary.

(** [main] of [scripts/create_data_yaml.py] (line 91): the names of the
    simplified classes in the order of [sorted(simplified.items())]; the
    keys of a dictionary are distinct, so the items are ordered by their
    keys. *)
Definition by_key (a b : Z * string) : Prop := a.1 ≤ b.1.

#[global] Instance by_key_dec : RelDecision by_key :=
  λ a b, decide (a.1 ≤ b.1).





End DataYamlVocabulary.

Section GeoVocabulary.

Local Open Scope Q_scope.


End GeoVocabulary.

(** * Vocabulary of the binary64 splitter *)

Section PathVocabulary.

(** No regular file stands at the path or at one of its ancestors, so
    that [mkdir] can make the directory. *)
Definition clear_path (fs : filesys) (p : path) : Prop :=
  Forall (λ n, files fs !! take n p = None) (seq 0 (S (length p))).

(** The splitter of the scenario, on the labelled corpus [neg_fs]. *)
Definition default_sp64 : Binary64.splitter :=
  Binary64.mkSplitter ["img"%string] ["lbl"%string] ["out"%string]
                      (b64_ratio 80) (b64_ratio 15) (b64_ratio 5).

End PathVocabulary.

Section CutPointVocabulary.

(** [0.0 <= x] in binary64: [x] is a zero, a positive number or the
    positive infinity. *)
Definition not_negative (x : PrimFloat.float) : Prop :=
  PrimFloat.leb (Binary64.of_int 0) x = true.

(** Ratios that pass the check of the constructor although the train
    ratio is negative: -0.5, 0.75 and 0.75, all of them binary64
    numbers. *)
Definition neg_sp64 : Binary64.splitter :=
  Binary64.mkSplitter ["img"%string] ["lbl"%string] ["out"%string]
                      (PrimFloat.opp (b64_ratio 50)) (b64_ratio 75)
                      (b64_ratio 75).

End CutPointVocabulary.

(** * Vocabulary of the binary64 arithmetic *)

Section FloatVocabulary.

(** The sign bit of a float is clear (a zero of either sign and NaN
    count as such). *)
Definition sf_nonneg (x : SpecFloat.spec_float) : Prop :=
  match x with
  | SpecFloat.S754_finite s _ _ | SpecFloat.S754_infinity s => s = false
  | _ => True
  end.

End FloatVocabulary.

(** * Properties *)

(** ** Binary64: signs *)

Section FloatSign.

Import PrimFloat SpecFloat FloatOps FloatAxioms.

Lemma binary_round_aux_sign (s : bool) (m e : Z) (l : location) :
  let r := binary_round_aux prec emax s m e l in
  r = S754_nan ∨ r = S754_zero s ∨ r = S754_infinity s
  ∨ ∃ m' e', r = S754_finite s m' e'.
Proof.
  unfold binary_round_aux.
  destruct (shr_fexp prec emax m e l) as [mrs' e'].
  destruct (shr_fexp prec emax _ e' loc_Exact) as [mrs'' e''].
  destruct (shr_m mrs''); [by right; left| |by left].
  destruct (e'' <=? emax - prec); [|by right; right; left].
  right; right; right. by do 2 eexists.
Qed.

Lemma binary_round_aux_nonneg (m e : Z) (l : location) :
  sf_nonneg (binary_round_aux prec emax false m e l).
Proof.
  destruct (binary_round_aux_sign false m e l)
    as [-> | [-> | [-> | (m' & e' & ->)]]]; done.
Qed.

Lemma of_int_nonneg (n : Z) : 0 ≤ n → sf_nonneg (Prim2SF (Binary64.of_int n)).
Proof.
  intros Hn. unfold Binary64.of_int.
  rewrite (proj2 (Z.ltb_ge n 0)) by done.
  rewrite of_uint63_spec.
  pose proof (Uint63.to_Z_bounded (Uint63.of_Z n)) as Hb.
  destruct (Uint63.to_Z (Uint63.of_Z n)) as [|p|p] eqn:E; [done| |lia].
  unfold binary_normalize, binary_round.
  destruct (shl_align _ _ _). apply binary_round_aux_nonneg.
Qed.

Lemma leb_zero_nonneg (x : PrimFloat.float) :
  PrimFloat.leb 0%float x = true → sf_nonneg (Prim2SF x).
Proof.
  rewrite leb_spec.
  change (Prim2SF 0%float) with (S754_zero false).
  destruct (Prim2SF x) as [s|s| |s m e]; cbn; try done; by destruct s.
Qed.

Lemma SFmul_nonneg (x y : spec_float) :
  sf_nonneg x → sf_nonneg y → sf_nonneg (SFmul prec emax x y).
Proof.
  destruct x as [sx|sx| |sx mx ex], y as [sy|sy| |sy my ey]; cbn;
    try done; intros -> ->; try done.
  apply binary_round_aux_nonneg.
Qed.

Lemma py_int_nonneg (x : PrimFloat.float) (z : Z) :
  sf_nonneg (Prim2SF x) →
  py_int (Binary64.to_pyfloat x) = Ok z → 0 ≤ z.
Proof.
  unfold Binary64.to_pyfloat.
  destruct (Prim2SF x) as [s|s| |s m e]; cbn; try done.
  - intros _ [= <-]. done.
  - intros -> [= <-]. destruct (0 <=? e) eqn:E.
    + cbn. apply Z.quot_pos; [|lia].
      apply Z.mul_nonneg_nonneg; [lia|]. apply Z.pow_nonneg. lia.
    + cbn. apply Z.quot_pos; lia.
Qed.

(** With ratios that are not negative the cut points are in order. *)
Lemma cut_points_ordered (train_ratio val_ratio : PrimFloat.float)
    (total train_end val_end : Z) :
  PrimFloat.leb 0%float train_ratio = true → PrimFloat.leb 0%float val_ratio = true →
  0 ≤ total →
  Binary64.cut_points train_ratio val_ratio total = Ok (train_end, val_end) →
  0 ≤ train_end ≤ val_end.
Proof.
  intros Ht Hv Hn. unfold Binary64.cut_points.
  destruct (py_int (Binary64.to_pyfloat (train_ratio * _)%float))
    as [a|] eqn:Ea; [|done].
  destruct (py_int (Binary64.to_pyfloat (val_ratio * _)%float))
    as [b|] eqn:Eb; [|done].
  cbn. intros [= <- <-].
  apply py_int_nonneg in Ea, Eb.
  - lia.
  - rewrite mul_spec. apply SFmul_nonneg;
      [by apply leb_zero_nonneg|by apply of_int_nonneg].
  - rewrite mul_spec. apply SFmul_nonneg;
      [by apply leb_zero_nonneg|by apply of_int_nonneg].
Qed.

End FloatSign.
(** ** Arithmetic of the model *)

Section Numeric.

Local Open Scope Q_scope.

Lemma Qltb_lt (x y : Q) : Qltb x y = true ↔ x < y.
Proof.
  unfold Qltb. rewrite negb_true_iff, <- not_true_iff_false, Qle_bool_iff.
  split; [apply Qnot_le_lt | apply Qlt_not_le].
Qed.

Lemma Qltb_ge (x y : Q) : Qltb x y = false ↔ y <= x.
Proof.
  unfold Qltb. rewrite negb_false_iff. apply Qle_bool_iff.
Qed.






End Numeric.

(** ** The box normalizer *)

Section Normalizer.

Import Convert.
Local Open Scope Q_scope.






End Normalizer.

Section NormalizerClaims.

Import Convert.
Local Open Scope Q_scope.








End NormalizerClaims.

Section RoundTrip.

Import Convert.
Local Open Scope Q_scope.



End RoundTrip.

(** ** The loop over the annotations of an image *)

Section Annotations.

Import Convert.

Variables (class_map : gmap Z Z) (w h : Z).

Implicit Types (s : loop_state) (ann : annotation).

Lemma convert_annotation_unknown s ann :
  unknown_class class_map ann → convert_annotation class_map w h s ann = s.
Proof.
  unfold convert_annotation, try_annotation.
  intros [-> | (t & -> & Ht)]; cbn; [done|]. by rewrite Ht.
Qed.

Lemma convert_annotation_mapped s ann t y :
  mapped_class class_map ann t y →
  convert_annotation class_map w h s ann =
    match bbox_of ann with
    | Ok (Some b) =>
        match _bbox_to_yolo_format b w h with
        | Ok (Some l) =>
            if bool_decide (l = ""%string) then s
            else mkLoop (label_lines s ++ [str_Z y +:+ " " +:+ l +:+ nl])
                        (objects_count s + 1)
                        (incr_class t (loop_stats s))
        | Ok None => s
        | Raised => count_invalid s
        end
    | _ => count_invalid s
    end.
Proof.
  intros [Hc Hm]. unfold convert_annotation, try_annotation.
  rewrite Hc. cbn. rewrite Hm. cbn.
  destruct (bbox_of ann) as [[b|]|]; cbn; try done.
  destruct (_bbox_to_yolo_format b w h) as [[l|]|]; cbn; try done.
  by case_bool_decide.
Qed.

Lemma convert_annotation_count_invalid s ann :
  convert_annotation class_map w h (count_invalid s) ann
  = count_invalid (convert_annotation class_map w h s ann).
Proof.
  unfold convert_annotation, try_annotation.
  destruct (class_type_of ann) as [[t|]|]; cbn; try done.
  destruct (class_map !! t) as [y|]; cbn; try done.
  destruct (bbox_of ann) as [[b|]|]; cbn; try done.
  destruct (_bbox_to_yolo_format b w h) as [[l|]|]; cbn; try done.
  by case_bool_decide.
Qed.

Lemma foldl_count_invalid s (l : list annotation) :
  foldl (convert_annotation class_map w h) (count_invalid s) l
  = count_invalid (foldl (convert_annotation class_map w h) s l).
Proof.
  revert s. induction l as [|a l IH]; intros s; [done|].
  cbn. by rewrite convert_annotation_count_invalid, IH.
Qed.

(** C7. For an annotation of a matched group: when its class is mapped
    and its geometry is unresolvable (no box, or an exception such as a
    malformed coordinate string), the invalid-annotation counter grows by
    exactly one and nothing else changes; when its taxonomy identifier is
    absent from the class map, or when its box is rejected by the
    normalizer, nothing changes at all.  In each case the loop goes on:
    the outcome for the whole group is the outcome for the group without
    that annotation (up to the counter in the first case). *)
Theorem dropped_annotations s ann (before after : list annotation) :
  let step := convert_annotation class_map w h in
  ((∃ t y, mapped_class class_map ann t y) → (∀ b, bbox_of ann ≠ Ok (Some b)) →
     label_lines (step s ann) = label_lines s ∧
     objects_count (step s ann) = objects_count s ∧
     loop_stats (step s ann) = incr_invalid (loop_stats s) ∧
     invalid_annotations (loop_stats (step s ann))
       = invalid_annotations (loop_stats s) + 1 ∧
     foldl step s (before ++ ann :: after)
       = count_invalid (foldl step s (before ++ after)))
  ∧ (unknown_class class_map ann →
     step s ann = s ∧
     foldl step s (before ++ ann :: after) = foldl step s (before ++ after))
  ∧ (∀ t y b, mapped_class class_map ann t y → bbox_of ann = Ok (Some b) →
     _bbox_to_yolo_format b w h = Ok None →
     step s ann = s ∧
     foldl step s (before ++ ann :: after) = foldl step s (before ++ after)).
Proof.
  intros step. unfold step. split; [|split].
  - intros (t & y & Hm) Hb.
    assert (∀ s', convert_annotation class_map w h s' ann = count_invalid s')
      as E.
    { intros s'. rewrite (convert_annotation_mapped _ _ _ _ Hm).
      destruct (bbox_of ann) as [[b|]|]; [by destruct (Hb b)|done..]. }
    rewrite E. repeat split; try done.
    rewrite !foldl_app. cbn. by rewrite E, foldl_count_invalid.
  - intros Hu.
    split; [by apply convert_annotation_unknown|].
    rewrite !foldl_app. cbn. by rewrite convert_annotation_unknown.
  - intros t y b Hm Hb Hy.
    assert (∀ s', convert_annotation class_map w h s' ann = s') as E.
    { intros s'. by rewrite (convert_annotation_mapped _ _ _ _ Hm), Hb, Hy. }
    split; [done|]. rewrite !foldl_app. cbn. by rewrite E.
Qed.

End Annotations.

(** ** Geometry resolution *)

Section Geometry.

Import Convert.
Local Open Scope Q_scope.

Lemma foldl_py_min_fin (x : Q) (l : list Q) :
  ∃ m, foldl py_min (PFin x) (PFin <$> l) = PFin m ∧
       m ∈ x :: l ∧ ∀ v, v ∈ x :: l → m <= v.
Proof.
  revert x. induction l as [|a l IH]; intros x.
  - exists x. split; [done|]. split; [by left|].
    intros v ->%list_elem_of_singleton. apply Qle_refl.
  - cbn [fmap list_fmap foldl]. unfold py_min at 2. cbn [ltb].
    destruct (Qltb a x) eqn:E; [apply Qltb_lt in E|apply Qltb_ge in E].
    + destruct (IH a) as (m & -> & Hin & Hle). exists m. split; [done|].
      split; [by right|]. intros v [->|Hv]%elem_of_cons.
      * specialize (Hle a ltac:(by left)). lra.
      * by apply Hle.
    + destruct (IH x) as (m & -> & Hin & Hle). exists m. split; [done|].
      split.
      { apply elem_of_cons in Hin as [->|Hin]; [by left|by do 2 right]. }
      intros v [->|[->|Hv]%elem_of_cons]%elem_of_cons.
      * apply Hle. by left.
      * specialize (Hle x ltac:(by left)). lra.
      * apply Hle. by right.
Qed.

Lemma foldl_py_max_fin (x : Q) (l : list Q) :
  ∃ m, foldl py_max (PFin x) (PFin <$> l) = PFin m ∧
       m ∈ x :: l ∧ ∀ v, v ∈ x :: l → v <= m.
Proof.
  revert x. induction l as [|a l IH]; intros x.
  - exists x. split; [done|]. split; [by left|].
    intros v ->%list_elem_of_singleton. apply Qle_refl.
  - cbn [fmap list_fmap foldl]. unfold py_max at 2. cbn [ltb].
    destruct (Qltb x a) eqn:E; [apply Qltb_lt in E|apply Qltb_ge in E].
    + destruct (IH a) as (m & -> & Hin & Hle). exists m. split; [done|].
      split; [by right|]. intros v [->|Hv]%elem_of_cons.
      * specialize (Hle a ltac:(by left)). lra.
      * by apply Hle.
    + destruct (IH x) as (m & -> & Hin & Hle). exists m. split; [done|].
      split.
      { apply elem_of_cons in Hin as [->|Hin]; [by left|by do 2 right]. }
      intros v [->|[->|Hv]%elem_of_cons]%elem_of_cons.
      * apply Hle. by left.
      * specialize (Hle x ltac:(by left)). lra.
      * apply Hle. by right.
Qed.

Lemma ring_coords (pts : list (Q * Q)) :
  exn_map (λ c : list pyfloat, py_nth c 0) (ring_of pts) = Ok (PFin <$> pts.*1)
  ∧ exn_map (λ c : list pyfloat, py_nth c 1) (ring_of pts)
    = Ok (PFin <$> pts.*2).
Proof.
  induction pts as [|[x y] pts [IH1 IH2]]; [done|].
  cbn. unfold ring_of in IH1, IH2. by rewrite IH1, IH2.
Qed.

(** The polygon rule computes the axis-aligned bounding box of the first
    ring. *)
Lemma polygon_bbox (p : Q * Q) (pts : list (Q * Q))
    (rest : list (list (list pyfloat))) :
  ∃ x0 y0 x1 y1 : Q,
    _extract_bbox_from_geometry
      (Some (GDict (Some "Polygon"%string) (Some (ring_of (p :: pts) :: rest))))
    = Some (PFin x0, PFin y0, PFin x1, PFin y1) ∧
    x0 ∈ (p :: pts).*1 ∧ x1 ∈ (p :: pts).*1 ∧
    y0 ∈ (p :: pts).*2 ∧ y1 ∈ (p :: pts).*2 ∧
    ∀ q, q ∈ p :: pts → x0 <= q.1 <= x1 ∧ y0 <= q.2 <= y1.
Proof.
  destruct (foldl_py_min_fin p.1 pts.*1) as (x0 & Ex0 & Ix0 & Lx0).
  destruct (foldl_py_min_fin p.2 pts.*2) as (y0 & Ey0 & Iy0 & Ly0).
  destruct (foldl_py_max_fin p.1 pts.*1) as (x1 & Ex1 & Ix1 & Lx1).
  destruct (foldl_py_max_fin p.2 pts.*2) as (y1 & Ey1 & Iy1 & Ly1).
  exists x0, y0, x1, y1. split.
  - unfold _extract_bbox_from_geometry.
    rewrite bool_decide_eq_true_2 by done.
    cbn [py_nth lookup list_lookup exn_bind].
    destruct (ring_coords (p :: pts)) as [-> ->].
    cbn [exn_bind fmap list_fmap py_min_list py_max_list].
    by rewrite Ex0, Ey0, Ex1, Ey1.
  - repeat split; try done.
    + apply Lx0. change (q.1 ∈ (p :: pts).*1). by apply list_elem_of_fmap_2.
    + apply Lx1. change (q.1 ∈ (p :: pts).*1). by apply list_elem_of_fmap_2.
    + apply Ly0. change (q.2 ∈ (p :: pts).*2). by apply list_elem_of_fmap_2.
    + apply Ly1. change (q.2 ∈ (p :: pts).*2). by apply list_elem_of_fmap_2.
Qed.

(** Counterexample to C9 as stated: the bounds-string rule fails on
    ["100,abc,300,300"], the polygon of the annotation resolves to the
    box (100, 100, 300, 300), and yet the annotation is not resolved: the
    resolution raises, and the conversion loop counts the annotation as
    invalid. *)
Lemma first_success_fails :
  bounds_rule polygon_ann = None ∧
  first_success polygon_ann
    = Some (PFin 100, PFin 100, PFin 300, PFin 300) ∧
  bbox_of polygon_ann = Raised ∧
  bbox_of polygon_ann ≠ Ok (first_success polygon_ann) ∧
  convert_annotation (_load_class_mapping None) 1024 1024
    (mkLoop [] 0 stats0) polygon_ann
  = mkLoop [] 0 (incr_invalid stats0).
Proof.
  assert (bbox_of polygon_ann = Raised) as E by (vm_compute; reflexivity).
  split; [vm_compute; reflexivity|].
  split; [vm_compute; reflexivity|].
  split; [done|]. split; [by rewrite E|].
  vm_compute; reflexivity.
Qed.

(** C9 (amended). When the bounds key is present, the box is the one of
    the bounds string if that string parses as four floats, and the
    annotation is unresolved otherwise, whatever its geometry; when the
    bounds key is absent, the box is the one of the geometry, which for a
    polygon is the minimum and maximum of x and y over the vertices of its
    first ring. *)
Theorem geometry_resolution (ann : annotation) :
  (is_Some (ann_bounds_imcoords ann) →
     (∀ b, bounds_rule ann = Some b → bbox_of ann = Ok (Some b)) ∧
     (bounds_rule ann = None → ∀ b, bbox_of ann ≠ Ok (Some b)))
  ∧ (ann_bounds_imcoords ann = None →
     bbox_of ann = Ok (polygon_rule ann) ∧
     ∀ p pts rest,
       ann_geometry ann
         = Some (GDict (Some "Polygon"%string)
                       (Some (ring_of (p :: pts) :: rest))) →
       ∃ x0 y0 x1 y1 : Q,
         bbox_of ann = Ok (Some (PFin x0, PFin y0, PFin x1, PFin y1)) ∧
         x0 ∈ (p :: pts).*1 ∧ x1 ∈ (p :: pts).*1 ∧
         y0 ∈ (p :: pts).*2 ∧ y1 ∈ (p :: pts).*2 ∧
         ∀ q, q ∈ p :: pts → x0 <= q.1 <= x1 ∧ y0 <= q.2 <= y1).
Proof.
  split.
  - intros [s Hs]. unfold bounds_rule, bbox_of. rewrite Hs.
    case_bool_decide as Hd.
    + destruct (exn_map _ _) as [[|x0 [|x1 [|x2 [|x3 [|x4 c]]]]]|];
        cbn; split; intros; by simplify_eq.
    + assert (s = ""%string ∨ s = "nan"%string) as [-> | ->].
      { destruct (decide (s = ""%string)); [by left|].
        destruct (decide (s = "nan"%string)); [by right|]. by destruct Hd. }
      all: split; [by vm_compute|intros; by simplify_eq].
  - intros Hn. unfold bbox_of, polygon_rule. rewrite Hn.
    assert (match ann_geometry ann with
            | Some g => Ok (_extract_bbox_from_geometry (Some g))
            | None => Ok None
            end = Ok (_extract_bbox_from_geometry (ann_geometry ann))) as ->
      by by destruct (ann_geometry ann).
    split; [done|]. intros p pts rest ->.
    destruct (polygon_bbox p pts rest) as (x0 & y0 & x1 & y1 & -> & H).
    by exists x0, y0, x1, y1.
Qed.

End Geometry.

(** ** The conversion run *)

Section Run.

Import Convert.

Variable imread : string → option (Z * Z).

Implicit Types (c : converter) (idx : gmap string (list annotation))
  (fs : filesys) (st : stats) (image_file : path).

Lemma fmt_fields_nonempty f : fmt_fields f ≠ ""%string.
Proof.
  destruct f as [[[a b] c] d]. unfold fmt_fields.
  by destruct (fmt6 a).
Qed.

(** An image without annotation group: its label file is touched. *)
Lemma convert_image_no_group c idx fs st image_file h w :
  files fs !! image_file ≫= imread = Some (h, w) →
  annotations_for idx image_file = [] →
  convert_image imread c idx (fs, st) image_file
  = (touch (label_path c image_file) fs, st).
Proof. intros Hd Ha. unfold convert_image. by rewrite Hd, Ha. Qed.

(** An image whose group yields no line: nothing is written. *)
Lemma convert_image_no_line c idx fs st image_file h w :
  files fs !! image_file ≫= imread = Some (h, w) →
  annotations_for idx image_file ≠ [] →
  label_lines (foldl (convert_annotation (class_map c) w h) (mkLoop [] 0 st)
                     (annotations_for idx image_file)) = [] →
  (convert_image imread c idx (fs, st) image_file).1 = fs.
Proof.
  intros Hd Ha Hl. unfold convert_image. rewrite Hd.
  destruct (annotations_for idx image_file); [done|].
  cbn [is_nil]. by rewrite Hl.
Qed.

(** The only file an iteration can change is the label file of its
    image, and no directory changes. *)
Lemma convert_image_frame c idx fs st image_file p :
  p ≠ label_path c image_file →
  files (convert_image imread c idx (fs, st) image_file).1 !! p
  = files fs !! p.
Proof.
  intros Hp. unfold convert_image.
  destruct (_ ≫= imread) as [[h w]|]; [|done].
  destruct (is_nil (annotations_for _ _)).
  - cbn. unfold touch. destruct (files fs !! label_path _ _); [done|].
    cbn. by rewrite lookup_insert_ne.
  - destruct (is_nil (label_lines _)); [done|].
    cbn. by rewrite lookup_insert_ne.
Qed.

Lemma convert_image_dirs c idx fs st image_file :
  dirs (convert_image imread c idx (fs, st) image_file).1 = dirs fs.
Proof.
  unfold convert_image.
  destruct (_ ≫= imread) as [[h w]|]; [|done].
  destruct (is_nil (annotations_for _ _)).
  - cbn. unfold touch. by destruct (files fs !! label_path _ _).
  - by destruct (is_nil (label_lines _)).
Qed.

Lemma foldl_convert_image_frame c idx (l : list path) fs st p :
  p ∉ label_path c <$> l →
  files (foldl (convert_image imread c idx) (fs, st) l).1 !! p
  = files fs !! p.
Proof.
  revert fs st. induction l as [|i l IH]; intros fs st Hp; [done|].
  cbn [foldl].
  destruct (convert_image imread c idx (fs, st) i) as [fs1 st1] eqn:E.
  rewrite IH by (intros ?; apply Hp; by right).
  change fs1 with (fs1, st1).1. rewrite <- E.
  apply convert_image_frame. intros ->. apply Hp. by left.
Qed.

(** A run changes no file other than the label files of the images it
    scans; in particular it removes none. *)
Lemma convert_frame c gdf fs p :
  p ∉ label_path c <$> image_files fs (images_dir c) →
  files (convert imread c gdf fs).1 !! p = files fs !! p.
Proof. apply foldl_convert_image_frame. Qed.

Lemma touch_lookup (p : path) fs :
  files (touch p fs) !! p = Some (default ""%string (files fs !! p)).
Proof.
  unfold touch. destruct (files fs !! p) eqn:E; cbn; [done|].
  by rewrite lookup_insert_eq.
Qed.

Lemma filtered_out_lines cm w h s ann :
  filtered_out cm w h ann →
  label_lines (convert_annotation cm w h s ann) = label_lines s.
Proof.
  intros [Hu | (t & y & Hm & [Hb | (b & Hb & Hy)])].
  - by rewrite convert_annotation_unknown.
  - rewrite (convert_annotation_mapped _ _ _ _ _ _ _ Hm).
    destruct (bbox_of ann) as [[b|]|]; [by destruct (Hb b)|done..].
  - by rewrite (convert_annotation_mapped _ _ _ _ _ _ _ Hm), Hb, Hy.
Qed.

Lemma foldl_filtered_out_lines cm w h s (l : list annotation) :
  Forall (filtered_out cm w h) l →
  label_lines (foldl (convert_annotation cm w h) s l) = label_lines s.
Proof.
  intros H. revert s. induction H as [|ann l Ha _ IH]; intros s; [done|].
  cbn. by rewrite IH, filtered_out_lines.
Qed.

(** An image whose group matches and whose annotations are all filtered
    out (unknown class, unresolvable geometry or degenerate box): the
    iteration writes no file at all. *)
Lemma filtered_group_writes_nothing c idx fs st image_file h w :
  files fs !! image_file ≫= imread = Some (h, w) →
  annotations_for idx image_file ≠ [] →
  Forall (filtered_out (class_map c) w h) (annotations_for idx image_file) →
  (convert_image imread c idx (fs, st) image_file).1 = fs.
Proof.
  intros Hd Hne Hf.
  apply (convert_image_no_line _ _ _ _ _ h w); [done..|].
  by rewrite foldl_filtered_out_lines.
Qed.

(** C1, at the failing input.  A run over a fresh output directory and
    the two decodable images [a.jpg] and [a.png]; the only annotation of
    the store carries the image identifier [a.jpg].  No annotation group
    matches the stem [a] or the file name [a.png] of the second image, so
    the claim promises an empty label file (0 bytes) named after its
    stem.  That file is [a.txt]; the iteration of [a.png] only calls
    [touch] on it, under the comment "Create empty label file", and after
    the run it holds the 38 bytes written for [a.jpg]. *)
Theorem twin_images_share_label :
  image_files twin_fs ["img"%string]
    = [["img"; "a.jpg"]; ["img"; "a.png"]]%string ∧
  files twin_fs !! ["img"; "a.png"]%string ≫= rerun_imread
    = Some (1024, 1024) ∧
  group_annotations [twin_ann] !! stem ["img"; "a.png"]%string = None ∧
  group_annotations [twin_ann] !! name ["img"; "a.png"]%string = None ∧
  label_path rerun_converter ["img"; "a.png"]%string
    = ["out"; "labels"; "a.txt"]%string ∧
  files twin_fs !! ["out"; "labels"; "a.txt"]%string = None ∧
  files twin_run.1 !! ["out"; "labels"; "a.txt"]%string
    = Some ("2 0.195312 0.195312 0.195312 0.195312" +:+ nl) ∧
  String.length ("2 0.195312 0.195312 0.195312 0.195312" +:+ nl) = 38%nat.
Proof. vm_compute. repeat split; reflexivity. Qed.

(** C10. An annotation with the bounds string "100,100,300,300" and a
    taxonomy identifier mapped to class index 2, alone in the group of a
    decodable 1024x1024 image: whatever the file system and the statistics
    before, the label file of the image holds exactly the line
    [2 0.195312 0.195312 0.195312 0.195312] after its iteration.  The
    four fields are the same when the normalizer is evaluated in
    binary64. *)
Theorem scenario_label_line c idx fs st image_file ann class_type :
  files fs !! image_file ≫= imread = Some (1024, 1024) →
  annotations_for idx image_file = [ann] →
  class_type_of ann = Ok (Some class_type) →
  class_map c !! class_type = Some 2 →
  ann_bounds_imcoords ann = Some "100,100,300,300"%string →
  convert_annotation (class_map c) 1024 1024 (mkLoop [] 0 st) ann
  = mkLoop ["2 0.195312 0.195312 0.195312 0.195312" +:+ nl] 1
           (incr_class class_type st)
  ∧ files (convert_image imread c idx (fs, st) image_file).1
      !! label_path c image_file
    = Some ("2 0.195312 0.195312 0.195312 0.195312" +:+ nl)
  ∧ Binary64._bbox_to_yolo_format
      (Binary64.of_int 100, Binary64.of_int 100,
       Binary64.of_int 300, Binary64.of_int 300) 1024 1024
    = Ok (Some "0.195312 0.195312 0.195312 0.195312"%string).
Proof.
  intros Hd Ha Hc Hm Hb.
  assert (convert_annotation (class_map c) 1024 1024 (mkLoop [] 0 st) ann
          = mkLoop ["2 0.195312 0.195312 0.195312 0.195312" +:+ nl] 1
                   (incr_class class_type st)) as E.
  { assert (bbox_of ann
            = Ok (Some (PFin 100, PFin 100, PFin 300, PFin 300))) as Hbox
      by (unfold bbox_of; rewrite Hb; vm_compute; reflexivity).
    assert (_bbox_to_yolo_format (PFin 100, PFin 100, PFin 300, PFin 300)
              1024 1024
            = Ok (Some "0.195312 0.195312 0.195312 0.195312"%string)) as Hy
      by (vm_compute; reflexivity).
    rewrite (convert_annotation_mapped _ _ _ _ _ class_type 2) by done.
    by rewrite Hbox, Hy. }
  split; [done|]. split; [|vm_compute; reflexivity].
  unfold convert_image. rewrite Hd, Ha. cbn [is_nil foldl]. rewrite E.
  cbn. by rewrite lookup_insert_eq.
Qed.

End Run.

(** ** A run over an output directory that already holds a label *)

Section Rerun.

Import Convert.

(** C3, at the failing input.  The image [a.jpg] decodes and the
    annotation store is empty.  Two runs on this same store, corpus and
    class configuration end with different contents of the label file
    they touch, according to what it held before: the 38 bytes left by an
    earlier run are kept, an empty file stays empty. *)
Theorem rerun_depends_on_old_label :
  image_files (rerun_fs (Some stale_label)) ["img"%string]
    = [["img"; "a.jpg"]%string] ∧
  String.length stale_label = 38%nat ∧
  files (rerun (Some stale_label)).1 !! ["out"; "labels"; "a.txt"]%string
    = Some stale_label ∧
  files (rerun (Some ""%string)).1 !! ["out"; "labels"; "a.txt"]%string
    = Some ""%string ∧
  files (rerun (Some stale_label)).1 !! ["out"; "labels"; "a.txt"]%string
    ≠ files (rerun (Some ""%string)).1 !! ["out"; "labels"; "a.txt"]%string.
Proof. vm_compute. by repeat split. Qed.

End Rerun.

(** ** The splitter *)

Section Slices.

Import Split.
Context {A : Type}.
Implicit Types (l : list A).

Lemma index_range_from_take_drop l i0 lo hi :
  index_range_from i0 lo hi l
  = take (Z.to_nat (hi - Z.max lo i0)) (drop (Z.to_nat (lo - i0)) l).
Proof.
  revert i0. induction l as [|x l IH]; intros i0.
  { cbn. by rewrite drop_nil, take_nil. }
  cbn [index_range_from]. rewrite IH.
  destruct (lo <=? i0) eqn:E1; [apply Z.leb_le in E1|apply Z.leb_gt in E1];
    [destruct (i0 <? hi) eqn:E2; [apply Z.ltb_lt in E2|apply Z.ltb_ge in E2]|];
    cbn [andb].
  - replace (Z.to_nat (lo - i0)) with 0%nat by lia.
    replace (Z.to_nat (lo - (i0 + 1))) with 0%nat by lia.
    replace (Z.to_nat (hi - Z.max lo i0))
      with (S (Z.to_nat (hi - Z.max lo (i0 + 1)))) by lia.
    done.
  - replace (Z.to_nat (hi - Z.max lo (i0 + 1))) with 0%nat by lia.
    replace (Z.to_nat (hi - Z.max lo i0)) with 0%nat by lia.
    done.
  - replace (Z.to_nat (lo - i0)) with (S (Z.to_nat (lo - (i0 + 1)))) by lia.
    replace (Z.max lo (i0 + 1)) with (Z.max lo i0) by lia.
    done.
Qed.

Lemma index_range_take_drop l lo hi :
  0 ≤ lo →
  index_range l lo hi = take (Z.to_nat hi - Z.to_nat lo) (drop (Z.to_nat lo) l).
Proof.
  intros Hlo. unfold index_range. rewrite index_range_from_take_drop.
  f_equal; [lia|f_equal; lia].
Qed.

Lemma take_clip l (n : nat) : take (n `min` length l) l = take n l.
Proof.
  destruct (decide (n ≤ length l)%nat).
  - by replace (n `min` length l)%nat with n by lia.
  - replace (n `min` length l)%nat with (length l) by lia.
    by rewrite !take_ge by lia.
Qed.

Lemma py_slice_prefix l hi :
  0 ≤ hi → py_slice l None (Some hi) = take (Z.to_nat hi) l.
Proof.
  intros H. unfold py_slice, slice_bound. cbn.
  replace (hi <? 0) with false by (symmetry; by apply Z.ltb_ge).
  rewrite drop_0, <- (take_clip l (Z.to_nat hi)). f_equal. lia.
Qed.

Lemma py_slice_middle l lo hi :
  0 ≤ lo → 0 ≤ hi →
  py_slice l (Some lo) (Some hi)
  = take (Z.to_nat hi - Z.to_nat lo) (drop (Z.to_nat lo) l).
Proof.
  intros Hlo Hhi. unfold py_slice, slice_bound. cbn.
  replace (lo <? 0) with false by (symmetry; by apply Z.ltb_ge).
  replace (hi <? 0) with false by (symmetry; by apply Z.ltb_ge).
  destruct (decide (Z.of_nat (length l) ≤ lo)).
  - rewrite !drop_ge by lia. by rewrite !take_nil.
  - replace (Z.to_nat (lo `min` Z.of_nat (length l))) with (Z.to_nat lo) by lia.
    rewrite <- (take_clip (drop (Z.to_nat lo) l) (Z.to_nat hi - Z.to_nat lo)).
    f_equal. rewrite length_drop. lia.
Qed.

Lemma py_slice_suffix l lo :
  0 ≤ lo → py_slice l (Some lo) None = drop (Z.to_nat lo) l.
Proof.
  intros Hlo. unfold py_slice, slice_bound. cbn.
  replace (lo <? 0) with false by (symmetry; by apply Z.ltb_ge).
  destruct (decide (Z.of_nat (length l) ≤ lo)).
  - rewrite !drop_ge by lia. by rewrite take_nil.
  - replace (Z.to_nat (lo `min` Z.of_nat (length l))) with (Z.to_nat lo) by lia.
    rewrite take_ge; [done|]. rewrite length_drop. lia.
Qed.

(** With non-negative cut points the three slices split the list. *)
Lemma py_slices_app l (a b : Z) :
  0 ≤ a → 0 ≤ b →
  py_slice l None (Some a) ++ py_slice l (Some a) (Some (a + b))
    ++ py_slice l (Some (a + b)) None = l.
Proof.
  intros Ha Hb.
  rewrite py_slice_prefix, py_slice_middle, py_slice_suffix by lia.
  replace (Z.to_nat (a + b)) with (Z.to_nat a + Z.to_nat b)%nat by lia.
  replace (Z.to_nat a + Z.to_nat b - Z.to_nat a)%nat with (Z.to_nat b) by lia.
  rewrite <- drop_drop, take_drop. apply take_drop.
Qed.

End Slices.

Section Enumeration.

Lemma ends_with_exclusive (e1 e2 n : string) :
  ends_with e1 e2 = false → ends_with e2 e1 = false →
  ends_with e1 n = true → ends_with e2 n = true → False.
Proof.
  unfold ends_with.
  intros H12%bool_decide_eq_false H21%bool_decide_eq_false
         H1%bool_decide_eq_true H2%bool_decide_eq_true.
  by destruct (suffix_weak_total _ _ _ H1 H2).
Qed.

Lemma NoDup_glob fs dir ext : NoDup (glob fs dir ext).
Proof. apply NoDup_filter, NoDup_fst_map_to_list. Qed.

Lemma elem_of_glob fs dir ext p :
  p ∈ glob fs dir ext → ends_with ext (name p) = true.
Proof.
  unfold glob. intros [H _]%list_elem_of_filter.
  by apply andb_prop_elim in H as [_ H%Is_true_true].
Qed.

(** The four patterns match disjoint sets of names, so an image is
    listed once. *)
Lemma NoDup_image_files fs dir : NoDup (image_files fs dir).
Proof.
  unfold image_files.
  repeat (apply NoDup_app; split; [apply NoDup_glob|split]);
    try apply NoDup_glob.
  all: intros p Hp%elem_of_glob Hq.
  all: repeat (apply elem_of_app in Hq as [Hq|Hq]).
  all: apply elem_of_glob in Hq.
  all: by eapply (ends_with_exclusive _ _ (name p)); [| |exact Hp|exact Hq].
Qed.

End Enumeration.

Section SplitterClaims.

Import Split.

Lemma floor_count_nonneg (ratio : Q) (N : Z) :
  (0 <= ratio)%Q → 0 ≤ N → 0 ≤ floor_count ratio N.
Proof.
  intros Hr HN. unfold floor_count. change 0 with (Qfloor 0).
  apply Qfloor_resp_le, Qmult_le_0_compat; [done|].
  change 0%Q with (inject_Z 0). by rewrite <- Zle_Qle.
Qed.

Lemma py_int_floor (ratio : Q) (N : Z) :
  (0 <= ratio)%Q → 0 ≤ N →
  py_int (mul (PFin ratio) (of_Z N)) = Ok (floor_count ratio N).
Proof.
  intros Hr HN. unfold py_int, mul, of_Z, floor_count. f_equal.
  set (q := (ratio * inject_Z N)%Q).
  assert (0 <= q)%Q as Hq.
  { apply Qmult_le_0_compat; [done|].
    change 0%Q with (inject_Z 0). by rewrite <- Zle_Qle. }
  destruct q as [n d]. unfold Qle in Hq. cbn in *.
  apply Z.quot_div_nonneg; lia.
Qed.

Lemma cut_point_partition_slices {A} (l : list A) (tr vr : Q) :
  (0 <= tr)%Q → (0 <= vr)%Q →
  let N := Z.of_nat (length l) in
  let a := floor_count tr N in
  let b := floor_count vr N in
  cut_point_partition l tr vr
  = (py_slice l None (Some a), py_slice l (Some a) (Some (a + b)),
     py_slice l (Some (a + b)) None).
Proof.
  intros Htr Hvr N a b.
  assert (0 ≤ a) by (apply floor_count_nonneg; [done|lia]).
  assert (0 ≤ b) by (apply floor_count_nonneg; [done|lia]).
  unfold cut_point_partition. fold N a b.
  rewrite py_slice_prefix, py_slice_middle, py_slice_suffix by lia.
  rewrite !index_range_take_drop by lia.
  f_equal; [f_equal|].
  - f_equal. lia.
  - rewrite take_ge; [done|]. rewrite length_drop. lia.
Qed.

End SplitterClaims.
Section RatioCheck.

Import Split.

Lemma dirs_mkdir_p (p : path) (fs : filesys) :
  dirs (mkdir_p p fs)
  = dirs fs ∪ list_to_set ((λ n, take n p) <$> seq 0 (S (length p))).
Proof. done. Qed.

Lemma mkdir_p_self (p : path) (fs : filesys) : p ∈ dirs (mkdir_p p fs).
Proof.
  rewrite dirs_mkdir_p. apply elem_of_union_r, elem_of_list_to_set.
  apply list_elem_of_fmap. exists (length p). split; [by rewrite take_ge|].
  apply elem_of_seq. lia.
Qed.

Lemma mkdir_p_mono (p q : path) (fs : filesys) :
  q ∈ dirs fs → q ∈ dirs (mkdir_p p fs).
Proof. intros H. rewrite dirs_mkdir_p. by apply elem_of_union_l. Qed.

Lemma mkdir_clear (p : path) (fs : filesys) :
  clear_path fs p → mkdir p fs = Ok (mkdir_p p fs).
Proof.
  intros H. unfold mkdir. rewrite bool_decide_eq_false_2; [done|].
  intros HE. apply Exists_exists in HE as (n & Hn & [c Hc]).
  unfold clear_path in H. rewrite Forall_forall in H.
  specialize (H n Hn). congruence.
Qed.

Lemma mkdirs_files (ds : list path) (fs : filesys) :
  files (Binary64.mkdirs ds fs).1 = files fs.
Proof.
  revert fs. induction ds as [|d ds IH]; intros fs; [done|].
  cbn [Binary64.mkdirs]. unfold mkdir. case_bool_decide; [done|].
  by rewrite IH.
Qed.

Lemma mkdirs_dirs (ds : list path) (fs : filesys) (d : path) :
  d ∈ dirs fs → d ∈ dirs (Binary64.mkdirs ds fs).1.
Proof.
  revert fs. induction ds as [|d' ds IH]; intros fs Hd; [done|].
  cbn [Binary64.mkdirs]. unfold mkdir. case_bool_decide; [done|].
  by apply IH, mkdir_p_mono.
Qed.

Lemma mkdirs_clear (ds : list path) (fs : filesys) :
  Forall (clear_path fs) ds →
  (Binary64.mkdirs ds fs).2 = Ok () ∧
  Forall (λ d, d ∈ dirs (Binary64.mkdirs ds fs).1) ds.
Proof.
  revert fs. induction ds as [|d ds IH]; intros fs H; [done|].
  apply Forall_cons in H as [Hd H].
  cbn [Binary64.mkdirs]. rewrite (mkdir_clear _ _ Hd).
  destruct (IH (mkdir_p d fs)) as [IH1 IH2]; [done|].
  split; [done|]. constructor; [|done].
  apply mkdirs_dirs, mkdir_p_self.
Qed.

Lemma mkdirs_blocked (ds : list path) (fs : filesys) :
  ¬ Forall (clear_path fs) ds → (Binary64.mkdirs ds fs).2 = Raised.
Proof.
  revert fs. induction ds as [|d ds IH]; intros fs H.
  - by destruct H.
  - cbn [Binary64.mkdirs]. unfold mkdir. case_bool_decide as Hd; [done|].
    apply IH. intros HF. apply H. constructor; [|done].
    apply Forall_forall. intros n Hn.
    destruct (files fs !! take n d) eqn:E; [|done].
    destruct Hd. apply Exists_exists. exists n. by rewrite E.
Qed.

(** Counterexample to C5 as stated: the ratios 0.8, 0.1 and 0.09 sum to
    0.99, which is within the tolerance 0.01 of 1.0 (and so is the sum
    of the exact values of the three floats), and the constructor
    rejects them: the float [0.8 + 0.1 + 0.09 - 1.0] is
    -0.010000000000000009, beyond the float 0.01. *)
Lemma tolerance_is_binary64 :
  (∃ a b c : Q,
     Binary64.to_pyfloat (b64_ratio 80) = PFin a ∧
     Binary64.to_pyfloat (b64_ratio 10) = PFin b ∧
     Binary64.to_pyfloat (b64_ratio 9) = PFin c ∧
     (Qabs (a + b + c - 1) <= 1 # 100)%Q) ∧
  (Qabs ((80 # 100) + (10 # 100) + (9 # 100) - 1) <= 1 # 100)%Q ∧
  Binary64.init ["img"%string] ["lbl"%string] ["out"%string]
                (b64_ratio 80) (b64_ratio 10) (b64_ratio 9) neg_fs
  = (neg_fs, Raised).
Proof.
  split; [|split].
  - do 3 eexists. split; [vm_compute; reflexivity|].
    split; [vm_compute; reflexivity|]. split; [vm_compute; reflexivity|].
    apply Qle_bool_iff. vm_compute. reflexivity.
  - apply Qle_bool_iff. vm_compute. reflexivity.
  - vm_compute. reflexivity.
Qed.

(** C5 (amended). The constructor evaluates
    [abs(train_ratio + val_ratio + test_ratio - 1.0) > 0.01] in binary64.
    When the comparison holds it raises and the file system is left as it
    was: no directory is created and no file is copied (there is no
    splitter object to call [split] on).  When it does not hold and no
    regular file stands on the path of one of the six output
    directories, the object is returned, every directory is kept and the
    six directories exist; when such a file is in the way, the
    constructor raises.  In no case does it change a file.  The ratios
    0.8, 0.1, 0.05 are rejected. *)
Theorem ratio_check (images_dir labels_dir output_dir : path)
    (train_ratio val_ratio test_ratio : PrimFloat.float) (fs : filesys) :
  let sp := Binary64.mkSplitter images_dir labels_dir output_dir
                                train_ratio val_ratio test_ratio in
  let r := Binary64.init images_dir labels_dir output_dir
                         train_ratio val_ratio test_ratio fs in
  (Binary64.ratios_rejected train_ratio val_ratio test_ratio = true →
   r = (fs, Raised))
  ∧ (Binary64.ratios_rejected train_ratio val_ratio test_ratio = false →
     Forall (clear_path fs) (partition_dirs (Binary64.paths sp)) →
     r.2 = Ok sp ∧ dirs fs ⊆ dirs r.1 ∧
     Forall (λ d, d ∈ dirs r.1) (partition_dirs (Binary64.paths sp)))
  ∧ (¬ Forall (clear_path fs) (partition_dirs (Binary64.paths sp)) →
     r.2 = Raised)
  ∧ files r.1 = files fs
  ∧ Binary64.ratios_rejected (b64_ratio 80) (b64_ratio 10) (b64_ratio 5)
    = true.
Proof.
  intros sp r. unfold r, Binary64.init. fold sp.
  change [train_img_dir (Binary64.paths sp); val_img_dir (Binary64.paths sp);
          test_img_dir (Binary64.paths sp); train_lbl_dir (Binary64.paths sp);
          val_lbl_dir (Binary64.paths sp); test_lbl_dir (Binary64.paths sp)]
    with (partition_dirs (Binary64.paths sp)).
  pose proof (mkdirs_files (partition_dirs (Binary64.paths sp)) fs) as Hf.
  pose proof (mkdirs_clear (partition_dirs (Binary64.paths sp)) fs) as Hc.
  pose proof (mkdirs_blocked (partition_dirs (Binary64.paths sp)) fs) as Hb.
  pose proof (λ d, mkdirs_dirs (partition_dirs (Binary64.paths sp)) fs d)
    as Hd.
  destruct (Binary64.mkdirs _ fs) as [fs' [[]|]]; cbn [fst snd] in *.
  - split_and!.
    + by intros ->.
    + intros -> HF. destruct (Hc HF) as [_ Hc'].
      split; [done|]. split; [|done]. intros d. apply Hd.
    + intros H. by specialize (Hb H).
    + by destruct (Binary64.ratios_rejected _ _ _).
    + vm_compute. reflexivity.
  - split_and!.
    + by intros ->.
    + intros _ H. by destruct (Hc H).
    + by destruct (Binary64.ratios_rejected _ _ _).
    + by destruct (Binary64.ratios_rejected _ _ _).
    + vm_compute. reflexivity.
Qed.

End RatioCheck.

Section NegativeRatio.

Import Split.

Lemma neg_sp_accepted :
  (init ["img"%string] ["lbl"%string] ["out"%string]
        (PFin (- 1 # 2)) (PFin (3 # 4)) (PFin (3 # 4)) neg_fs).2
  = Ok neg_sp.
Proof. by vm_compute. Qed.

Lemma neg_valid_pairs_length : length (valid_pairs neg_sp neg_fs) = 4%nat.
Proof. by vm_compute. Qed.

Lemma neg_partitions shuffle :
  (∀ seed l, shuffle seed l ≡ₚ l) →
  ∃ x0 x1 x2 x3,
    shuffle 42 (valid_pairs neg_sp neg_fs) = [x0; x1; x2; x3] ∧
    partitions shuffle neg_sp 42 neg_fs
    = Ok ([x0; x1], [], [x1; x2; x3]).
Proof.
  intros Hperm. unfold partitions.
  pose proof (Permutation_length (Hperm 42 (valid_pairs neg_sp neg_fs))) as Hl.
  rewrite neg_valid_pairs_length in Hl.
  destruct (shuffle 42 _) as [|x0 [|x1 [|x2 [|x3 [|x4 l]]]]]; try done.
  exists x0, x1, x2, x3. split; [done|]. by vm_compute.
Qed.

Lemma neg_sp64_accepted :
  Binary64.init ["img"%string] ["lbl"%string] ["out"%string]
                (PrimFloat.opp (b64_ratio 50)) (b64_ratio 75) (b64_ratio 75)
                neg_fs
  = ((init ["img"%string] ["lbl"%string] ["out"%string]
           (PFin (- 1 # 2)) (PFin (3 # 4)) (PFin (3 # 4)) neg_fs).1,
     Ok neg_sp64).
Proof. vm_compute. reflexivity. Qed.

Lemma neg_partitions64 shuffle :
  (∀ seed l, shuffle seed l ≡ₚ l) →
  ∃ x0 x1 x2 x3,
    shuffle 42 (valid_pairs (Binary64.paths neg_sp64) neg_fs)
    = [x0; x1; x2; x3] ∧
    Binary64.partitions shuffle neg_sp64 42 neg_fs
    = Ok ([x0; x1], [], [x1; x2; x3]).
Proof.
  intros Hperm. unfold Binary64.partitions.
  pose proof (Permutation_length
                (Hperm 42 (valid_pairs (Binary64.paths neg_sp64) neg_fs)))
    as Hl.
  change (length (valid_pairs (Binary64.paths neg_sp64) neg_fs))
    with 4%nat in Hl.
  destruct (shuffle 42 _) as [|x0 [|x1 [|x2 [|x3 [|x4 l]]]]]; try done.
  exists x0, x1, x2, x3. split; [done|]. by vm_compute.
Qed.

(** Counterexample to C2 as stated.  The cut points are
    [int(ratio * N)] in binary64, which is not always
    [floor(ratio * N)]: for the ratios 0.58 and 0.21 and 50 pairs the
    train cut is 28 and floor(0.58 * 50) is 29; for the ratio 0.3 and 10
    pairs the cut is 3 and the floor of the exact value of the float
    0.3, times 10, is 2.  And with the ratios -0.5, 0.75, 0.75 (sum 1.0)
    and four retained pairs, trainCount = floor(-0.5 * 4) = -2, so the
    interval [0, trainCount) is empty, whereas the program puts the
    first two pairs of the shuffled list into train, whatever the
    shuffle. *)
Lemma cut_points_negative_ratio :
  (Binary64.cut_points (b64_ratio 58) (b64_ratio 21) 50 = Ok (28, 38) ∧
   floor_count (58 # 100) 50 = 29) ∧
  (Binary64.cut_points (b64_ratio 30) (b64_ratio 30) 10 = Ok (3, 6) ∧
   ∃ q, Binary64.to_pyfloat (b64_ratio 30) = PFin q ∧ floor_count q 10 = 2) ∧
  (Binary64.init ["img"%string] ["lbl"%string] ["out"%string]
                 (PrimFloat.opp (b64_ratio 50)) (b64_ratio 75) (b64_ratio 75)
                 neg_fs).2
  = Ok neg_sp64 ∧
  ¬ ∃ shuffle : Z → list (path * path) → list (path * path),
      (∀ seed l, shuffle seed l ≡ₚ l) ∧
      Binary64.partitions shuffle neg_sp64 42 neg_fs
      = Ok (cut_point_partition
              (shuffle 42 (valid_pairs (Binary64.paths neg_sp64) neg_fs))
              (- 1 # 2) (3 # 4)).
Proof.
  split; [by vm_compute|].
  split; [split; [by vm_compute|eexists; split; by vm_compute]|].
  split; [by rewrite neg_sp64_accepted|].
  intros (shuffle & Hperm & H).
  destruct (neg_partitions64 shuffle Hperm) as (x0 & x1 & x2 & x3 & E & EP).
  rewrite EP, E in H. vm_compute in H. discriminate H.
Qed.

(** Counterexample to C4 as stated: with the same ratios the second pair
    of the shuffled list is both in train and in test, whatever the
    shuffle. *)
Lemma partitions_overlap_negative_ratio :
  (init ["img"%string] ["lbl"%string] ["out"%string]
        (PFin (- 1 # 2)) (PFin (3 # 4)) (PFin (3 # 4)) neg_fs).2
  = Ok neg_sp ∧
  ¬ ∃ shuffle : Z → list (path * path) → list (path * path),
      (∀ seed l, shuffle seed l ≡ₚ l) ∧
      ∃ train val test,
        partitions shuffle neg_sp 42 neg_fs = Ok (train, val, test) ∧
        train.*1 ## test.*1.
Proof.
  split; [apply neg_sp_accepted|].
  intros (shuffle & Hperm & train & val & test & H & Hdisj).
  destruct (neg_partitions shuffle Hperm) as (x0 & x1 & x2 & x3 & E & EP).
  rewrite EP in H. injection H as <- <- <-.
  apply (Hdisj x1.1); cbn; [by right; left|by left].
Qed.

End NegativeRatio.

Section Partition.

Import Split.

(** [random.shuffle] permutes its argument. *)
Variable shuffle : Z → list (path * path) → list (path * path).
Hypothesis shuffle_perm : ∀ seed l, shuffle seed l ≡ₚ l.

Lemma valid_pairs_images sp fs :
  (valid_pairs sp fs).*1
  = filter (λ img, exists_ fs (label_of sp img) = true)
           (image_files fs (images_dir sp)).
Proof.
  unfold valid_pairs. induction (image_files fs (images_dir sp)) as [|i l IH];
    [done|].
  cbn [omap list_omap]. rewrite filter_cons.
  destruct (exists_ fs (label_of sp i)) eqn:E.
  - rewrite decide_True by done. cbn. by rewrite IH.
  - rewrite decide_False by done. done.
Qed.

Lemma NoDup_valid_pairs sp fs : NoDup (valid_pairs sp fs).*1.
Proof.
  rewrite valid_pairs_images. apply NoDup_filter, NoDup_image_files.
Qed.

(** With non-negative train and validation ratios the partitions are the
    three slices at the floor cut points. *)
Lemma partitions_nonneg sp seed fs (tr vr : Q) :
  train_ratio sp = PFin tr → val_ratio sp = PFin vr →
  (0 <= tr)%Q → (0 <= vr)%Q →
  let l := shuffle seed (valid_pairs sp fs) in
  let a := floor_count tr (Z.of_nat (length l)) in
  let b := floor_count vr (Z.of_nat (length l)) in
  0 ≤ a ∧ 0 ≤ b ∧
  partitions shuffle sp seed fs
  = Ok (py_slice l None (Some a), py_slice l (Some a) (Some (a + b)),
        py_slice l (Some (a + b)) None).
Proof.
  intros Ht Hv Htr Hvr l a b.
  split; [apply floor_count_nonneg; [done|lia]|].
  split; [apply floor_count_nonneg; [done|lia]|].
  unfold partitions. fold l. rewrite Ht, Hv.
  rewrite !py_int_floor by (done || lia). done.
Qed.

Lemma py_slices_index_range {A} (l : list A) (a e : Z) :
  0 ≤ a ≤ e →
  (py_slice l None (Some a), py_slice l (Some a) (Some e),
   py_slice l (Some e) None)
  = (index_range l 0 a, index_range l a e,
     index_range l e (Z.of_nat (length l))).
Proof.
  intros H.
  rewrite py_slice_prefix, py_slice_middle, py_slice_suffix by lia.
  rewrite !index_range_take_drop by lia.
  f_equal; [f_equal|].
  - f_equal. lia.
  - rewrite take_ge; [done|]. rewrite length_drop. lia.
Qed.

(** C2 (amended). For train and validation ratios that are not negative,
    the partitions of a split run are the index intervals
    [0, trainCount), [trainCount, trainCount + valCount) and
    [trainCount + valCount, N) of the shuffled list of the N retained
    pairs, where trainCount and valCount are [int(ratio * N)] with the
    product rounded to binary64; the run raises when such a product is
    not a finite number.  With N = 950 and the ratios 0.8 and 0.15 the
    three counts are 760, 142 and 48. *)
Theorem partition_by_cut_points (sp : Binary64.splitter) seed fs :
  not_negative (Binary64.train_ratio sp) →
  not_negative (Binary64.val_ratio sp) →
  let l := shuffle seed (valid_pairs (Binary64.paths sp) fs) in
  let N := Z.of_nat (length l) in
  let ends := Binary64.cut_points (Binary64.train_ratio sp)
                                  (Binary64.val_ratio sp) N in
  (∀ train_end val_end, ends = Ok (train_end, val_end) →
     0 ≤ train_end ≤ val_end ∧
     Binary64.partitions shuffle sp seed fs
     = Ok (index_range l 0 train_end, index_range l train_end val_end,
           index_range l val_end N))
  ∧ (ends = Raised → Binary64.partitions shuffle sp seed fs = Raised)
  ∧ (Binary64.train_ratio sp = b64_ratio 80 →
     Binary64.val_ratio sp = b64_ratio 15 → N = 950 →
     ∃ train val test,
       Binary64.partitions shuffle sp seed fs = Ok (train, val, test) ∧
       length train = 760%nat ∧ length val = 142%nat ∧
       length test = 48%nat).
Proof.
  intros Ht Hv l N ends.
  assert (∀ a e, ends = Ok (a, e) →
            0 ≤ a ≤ e ∧
            Binary64.partitions shuffle sp seed fs
            = Ok (py_slice l None (Some a), py_slice l (Some a) (Some e),
                  py_slice l (Some e) None)) as Hok.
  { intros a e E. split.
    - apply (cut_points_ordered (Binary64.train_ratio sp)
               (Binary64.val_ratio sp) N); [exact Ht|exact Hv|lia|done].
    - unfold Binary64.partitions. fold l N ends. by rewrite E. }
  split; [|split].
  - intros a e E. destruct (Hok a e E) as [Hord ->].
    split; [done|]. by rewrite (py_slices_index_range l a e).
  - intros E. unfold Binary64.partitions. fold l N ends. by rewrite E.
  - intros Etr Evr HN.
    assert (ends = Ok (760, 902)) as E.
    { unfold ends. rewrite Etr, Evr, HN. by vm_compute. }
    destruct (Hok _ _ E) as [_ ->]. do 3 eexists. split; [done|].
    assert (length l = 950%nat) as Hl by lia.
    rewrite py_slice_prefix, py_slice_middle, py_slice_suffix by lia.
    rewrite !length_take, !length_drop, Hl.
    by vm_compute.
Qed.

(** C4 (amended). For non-negative train and validation ratios, the three
    partitions of a split run hold pairwise disjoint sets of images, no
    image twice, and an image is in one of them exactly when it was
    enumerated and its label file existed; an image without label file is
    in no partition. *)
Theorem partitions_disjoint_and_complete sp seed fs (tr vr : Q) :
  train_ratio sp = PFin tr → val_ratio sp = PFin vr →
  (0 <= tr)%Q → (0 <= vr)%Q →
  ∃ train val test,
    partitions shuffle sp seed fs = Ok (train, val, test) ∧
    NoDup (train.*1 ++ val.*1 ++ test.*1) ∧
    train.*1 ## val.*1 ∧ train.*1 ## test.*1 ∧ val.*1 ## test.*1 ∧
    (∀ img, img ∈ train.*1 ++ val.*1 ++ test.*1 ↔
            (img ∈ image_files fs (images_dir sp) ∧
             exists_ fs (label_of sp img) = true)) ∧
    (∀ img, exists_ fs (label_of sp img) = false →
            (img ∉ train.*1) ∧ (img ∉ val.*1) ∧ (img ∉ test.*1)).
Proof.
  intros Ht Hv Htr Hvr.
  destruct (partitions_nonneg sp seed fs tr vr Ht Hv Htr Hvr)
    as (Ha & Hb & EP).
  set (l := shuffle seed (valid_pairs sp fs)) in *.
  set (a := floor_count tr _) in *. set (b := floor_count vr _) in *.
  pose proof (py_slices_app l a b Ha Hb) as Happ.
  set (train := py_slice l None (Some a)) in *.
  set (val := py_slice l (Some a) (Some (a + b))) in *.
  set (test := py_slice l (Some (a + b)) None) in *.
  exists train, val, test. split; [done|].
  assert (train.*1 ++ val.*1 ++ test.*1 ≡ₚ (valid_pairs sp fs).*1) as HP.
  { rewrite <- !fmap_app, Happ. unfold l. by rewrite shuffle_perm. }
  assert (NoDup (train.*1 ++ val.*1 ++ test.*1)) as ND
    by (rewrite HP; apply NoDup_valid_pairs).
  assert (∀ img, img ∈ train.*1 ++ val.*1 ++ test.*1 ↔
                 (img ∈ image_files fs (images_dir sp) ∧
                  exists_ fs (label_of sp img) = true)) as Hmem.
  { intros img. rewrite HP, valid_pairs_images, list_elem_of_filter.
    tauto. }
  split; [done|].
  apply NoDup_app in ND as (_ & D1 & ND).
  apply NoDup_app in ND as (_ & D2 & _).
  split; [intros x H1 H2; apply (D1 x H1), elem_of_app; by left|].
  split; [intros x H1 H2; apply (D1 x H1), elem_of_app; by right|].
  split; [intros x H1 H2; by apply (D2 x H1)|].
  split; [done|].
  intros img Hex.
  assert (img ∉ train.*1 ++ val.*1 ++ test.*1) as Hn.
  { rewrite Hmem. intros [_ H]. congruence. }
  apply not_elem_of_app in Hn as [? Hn].
  by apply not_elem_of_app in Hn as [? ?].
Qed.

End Partition.

(** ** The theorems at concrete inputs *)

Section Instances.

Import Convert.



(** A malformed coordinate string between two good annotations, an
    annotation of the unmapped class 99, and a box to the right of the
    image. *)
Lemma dropped_annotations_witness :
  let step := convert_annotation (_load_class_mapping None) 1024 1024 in
  let s0 := mkLoop [] 0 stats0 in
  foldl step s0 ([scenario_ann] ++ malformed_ann :: [scenario_ann])
  = count_invalid (foldl step s0 ([scenario_ann] ++ [scenario_ann]))
  ∧ step s0 unknown_ann = s0
  ∧ step s0 degenerate_ann = s0.
Proof.
  intros step s0. split; [|split].
  - apply (proj1 (dropped_annotations (_load_class_mapping None) 1024 1024
                    s0 malformed_ann [scenario_ann] [scenario_ann])).
    + exists 13, 2. split; reflexivity.
    + intros b. vm_compute. discriminate.
  - apply (proj1 (proj2 (dropped_annotations (_load_class_mapping None)
                           1024 1024 s0 unknown_ann [] []))).
    right. exists 99. split; reflexivity.
  - apply (proj2 (proj2 (dropped_annotations (_load_class_mapping None)
                           1024 1024 s0 degenerate_ann [] []))
             13 2 (PFin 2000, PFin 100, PFin 3000, PFin 300)).
    + split; reflexivity.
    + vm_compute; reflexivity.
    + vm_compute; reflexivity.
Defined.

(** The polygon of [polygon_only_ann]. *)
Lemma geometry_resolution_witness :
  bbox_of polygon_only_ann = Ok (polygon_rule polygon_only_ann).
Proof.
  apply (proj2 (geometry_resolution polygon_only_ann)). reflexivity.
Defined.

(** The scenario of the specification, on the image [a.jpg]. *)
Lemma scenario_label_line_witness :
  files (convert_image rerun_imread rerun_converter
           (group_annotations [scenario_ann]) (rerun_fs None, stats0)
           ["img"; "a.jpg"]%string).1
    !! label_path rerun_converter ["img"; "a.jpg"]%string
  = Some ("2 0.195312 0.195312 0.195312 0.195312" +:+ nl).
Proof.
  apply (proj1 (proj2 (scenario_label_line rerun_imread rerun_converter
           (group_annotations [scenario_ann]) (rerun_fs None) stats0
           ["img"; "a.jpg"]%string scenario_ann 13
           ltac:(vm_compute; reflexivity) ltac:(vm_compute; reflexivity)
           ltac:(vm_compute; reflexivity) ltac:(vm_compute; reflexivity)
           ltac:(vm_compute; reflexivity)))).
Defined.

End Instances.

Section SplitInstances.

Import Split.

(** The default ratios on the corpus [neg_fs]: the six directories are
    made. *)
Lemma ratio_check_witness :
  (Binary64.init ["img"%string] ["lbl"%string] ["out"%string]
                 (b64_ratio 80) (b64_ratio 15) (b64_ratio 5) neg_fs).2
  = Ok default_sp64.
Proof.
  apply (proj1 (proj2 (ratio_check ["img"%string] ["lbl"%string]
                         ["out"%string] (b64_ratio 80) (b64_ratio 15)
                         (b64_ratio 5) neg_fs))).
  - vm_compute. reflexivity.
  - refine (@bool_decide_unpack _ _ _). vm_compute. exact I.
Defined.

Lemma rev_shuffle_perm seed l : rev_shuffle seed l ≡ₚ l.
Proof. apply reverse_Permutation. Qed.

(** The default ratios on the four labelled images of [neg_fs]: the
    cut points are 3 and 3. *)
Lemma partition_by_cut_points_witness :
  let l := rev_shuffle 42 (valid_pairs (Binary64.paths default_sp64) neg_fs) in
  Binary64.partitions rev_shuffle default_sp64 42 neg_fs
  = Ok (index_range l 0 3, index_range l 3 3, index_range l 3 4).
Proof.
  apply (proj1 (partition_by_cut_points rev_shuffle default_sp64 42 neg_fs
                  ltac:(by vm_compute) ltac:(by vm_compute)) 3 3).
  by vm_compute.
Defined.

Lemma partitions_disjoint_and_complete_witness :
  ∃ train val test,
    partitions rev_shuffle default_sp 42 neg_fs = Ok (train, val, test) ∧
    train.*1 ## val.*1 ∧ train.*1 ## test.*1 ∧ val.*1 ## test.*1.
Proof.
  destruct (partitions_disjoint_and_complete rev_shuffle rev_shuffle_perm
              default_sp 42 neg_fs (8 # 10) (15 # 100)
              eq_refl eq_refl ltac:(by vm_compute) ltac:(by vm_compute))
    as (train & val & test & H & _ & D1 & D2 & D3 & _).
  exists train, val, test. repeat split; assumption.
Defined.

End SplitInstances.

(** * Further properties of the converter *)

(** ** The class map *)

Section ClassMap.

Import Convert.






End ClassMap.

(** ** The annotation index *)

Section AnnotationIndex.

Import Convert.

Implicit Types (m : gmap string (list annotation)) (i : string).

Lemma group_fold_lookup (gdf : list annotation) m i :
  i ≠ ""%string →
  let m' := foldl (λ m row,
                     match image_id_of row with
                     | Some i =>
                         if bool_decide (i = ""%string) then m
                         else <[i := default [] (m !! i) ++ [row]]> m
                     | None => m
                     end) m gdf in
  default [] (m' !! i)
  = default [] (m !! i) ++ filter (λ row, image_id_of row = Some i) gdf
  ∧ (m !! ""%string = None → m' !! ""%string = None)
  ∧ ((∀ j g, m !! j = Some g → g ≠ []) → ∀ j g, m' !! j = Some g → g ≠ []).
Proof.
  intros Hi. revert m. induction gdf as [|row gdf IH]; intros m.
  { cbn. by rewrite app_nil_r. }
  cbn [foldl]. rewrite filter_cons.
  destruct (image_id_of row) as [j|] eqn:Ej.
  - case_bool_decide as Hj.
    + subst j. rewrite decide_False by congruence. apply IH.
    + destruct (IH (<[j := default [] (m !! j) ++ [row]]> m))
        as (E1 & E2 & E3).
      split; [|split].
      * rewrite E1. destruct (decide (j = i)) as [->|Hne].
        -- rewrite decide_True by done. rewrite lookup_insert_eq. cbn.
           by rewrite <- app_assoc.
        -- rewrite decide_False by congruence.
           by rewrite lookup_insert_ne.
      * intros Hm. apply E2. by rewrite lookup_insert_ne.
      * intros Hm. apply E3. intros k g.
        destruct (decide (j = k)) as [->|Hne].
        -- rewrite lookup_insert_eq. intros [= <-].
           by destruct (default [] (m !! k)).
        -- rewrite lookup_insert_ne by done. apply Hm.
  - rewrite decide_False by done. apply IH.
Qed.

(** X2. The annotation index groups the store by image identifier: the
    group of a non-empty identifier holds exactly the rows that resolve
    to this identifier, in the order of the store; there is no group
    under the empty identifier, and no group is empty. *)
Theorem group_annotations_spec (gdf : list annotation) :
  (∀ i, i ≠ ""%string →
        default [] (group_annotations gdf !! i)
        = filter (λ row, image_id_of row = Some i) gdf)
  ∧ group_annotations gdf !! ""%string = None
  ∧ (∀ i g, group_annotations gdf !! i = Some g → g ≠ []).
Proof.
  split; [|split].
  - intros i Hi.
    destruct (group_fold_lookup gdf ∅ i Hi) as (E & _ & _).
    unfold group_annotations. by rewrite E, lookup_empty.
  - assert (("x" : string) ≠ ""%string) as Hx by done.
    destruct (group_fold_lookup gdf ∅ "x" Hx) as (_ & E & _).
    by apply E.
  - assert (("x" : string) ≠ ""%string) as Hx by done.
    destruct (group_fold_lookup gdf ∅ "x" Hx) as (_ & _ & E).
    apply E. intros j g. by rewrite lookup_empty.
Qed.

Lemma chars_app (s t : string) : chars (s +:+ t) = chars s ++ chars t.
Proof.
  unfold chars. induction s as [|a s IH]; [done|].
  change (String a s +:+ t) with (String a (s +:+ t)). cbn. f_equal. apply IH.
Qed.

Lemma of_chars_chars (s : string) : of_chars (chars s) = s.
Proof. apply string_of_list_ascii_of_string. Qed.

Lemma chars_of_chars (l : list ascii) : chars (of_chars l) = l.
Proof. apply list_ascii_of_string_of_list_ascii. Qed.

Lemma ascii_eqb_eq (a b : ascii) : ascii_eqb a b = true ↔ a = b.
Proof. apply Ascii.eqb_eq. Qed.

Lemma split_on_head (c : ascii) (s1 s2 : list ascii) :
  c ∉ s1 →
  head (split_on c s1) = Some s1 ∧
  head (split_on c (s1 ++ c :: s2)) = Some s1.
Proof.
  induction s1 as [|a s1 IH]; intros Hc.
  - split; [done|]. cbn. by rewrite (proj2 (ascii_eqb_eq c c) eq_refl).
  - apply not_elem_of_cons in Hc as [Hne Hc]. destruct (IH Hc) as [H1 H2].
    assert (ascii_eqb a c = false) as Ha.
    { destruct (ascii_eqb a c) eqn:E; [|done].
      apply ascii_eqb_eq in E. congruence. }
    split; cbn; rewrite Ha.
    + by destruct (split_on c s1); simplify_eq/=.
    + by destruct (split_on c (s1 ++ c :: s2)); simplify_eq/=.
Qed.

(** X3. A row without image identifier key falls back on its feature
    identifier: the image identifier is the part of the feature
    identifier before its first dot, and the whole feature identifier
    when it has no dot. *)
Theorem feature_id_prefix (row : annotation) (image_id object_id : string) :
  ann_image_id row = None →
  "."%char ∉ chars image_id →
  ann_feature_id row = Some (image_id +:+ "." +:+ object_id)
  ∨ ann_feature_id row = Some image_id →
  image_id_of row = Some image_id.
Proof.
  intros Hn Hdot Hf. unfold image_id_of. rewrite Hn.
  destruct (split_on_head "." (chars image_id) (chars object_id) Hdot)
    as [H1 H2].
  destruct Hf as [-> | ->].
  - rewrite !chars_app. change (chars ".") with ["."%char].
    cbn [app]. rewrite H2. cbn. by rewrite of_chars_chars.
  - rewrite H1. cbn. by rewrite of_chars_chars.
Qed.

End AnnotationIndex.

(** ** Geometry extraction *)

Section GeometryEdges.

Import Convert.

Lemma exn_map_length {A B} (f : A → exn B) (l : list A) (ys : list B) :
  exn_map f l = Ok ys → length ys = length l.
Proof.
  revert ys. induction l as [|x l IH]; intros ys; cbn.
  - by intros [= <-].
  - destruct (f x); [|done]. cbn. destruct (exn_map f l); [|done]. cbn.
    intros [= <-]. cbn. f_equal. by apply IH.
Qed.

Lemma exn_map_py_nth (k : nat) (ring : list (list pyfloat)) :
  (∃ ys, exn_map (λ c : list pyfloat, py_nth c k) ring = Ok ys)
  ↔ Forall (λ c, (k < length c)%nat) ring.
Proof.
  induction ring as [|c ring IH].
  { split; [by constructor|]. intros _. by exists []. }
  cbn [exn_map]. unfold py_nth at 1. split.
  - intros (ys & H). destruct (c !! k) as [x|] eqn:Ec; [|done].
    cbn in H. destruct (exn_map _ ring) as [zs|] eqn:Er; [|done].
    constructor; [by eapply lookup_lt_Some|].
    apply IH. by exists zs.
  - intros [Hc (zs & Hz)%IH]%Forall_cons.
    destruct (lookup_lt_is_Some_2 c k Hc) as [x ->]. cbn.
    rewrite Hz. cbn. by exists (x :: zs).
Qed.

(** X4. [_extract_bbox_from_geometry] gives a box for an object with a
    [bounds] attribute exactly when the attribute has four entries, and
    for a GeoJSON dictionary exactly when its type is "Polygon", its
    coordinates hold at least one ring, the first ring is not empty and
    every vertex of the first ring has at least two coordinates; in all
    other cases (missing geometry included) the answer is [None], never
    an exception. *)
Theorem extractable_geometries :
  _extract_bbox_from_geometry None = None
  ∧ (∀ bounds, is_Some (_extract_bbox_from_geometry (Some (GShape bounds)))
               ↔ length bounds = 4%nat)
  ∧ (∀ type coordinates,
       is_Some (_extract_bbox_from_geometry (Some (GDict type coordinates)))
       ↔ type = Some "Polygon"%string ∧
         ∃ ring rest, coordinates = Some (ring :: rest) ∧ ring ≠ [] ∧
                      Forall (λ c, (2 ≤ length c)%nat) ring).
Proof.
  split; [done|]. split.
  - intros bounds. cbn.
    destruct bounds as [|a [|b [|c [|d [|e l]]]]]; cbn;
      split; (done || by intros [? ?] || (intros _; by eexists)).
  - intros type coordinates. cbn. case_bool_decide as Ht.
    2: { split; [by intros [? ?]|]. by intros [? _]. }
    destruct coordinates as [[|ring rest]|]; cbn.
    1,3: split; [by intros [? ?]|]; intros (_ & ? & ? & ? & _); done.
    destruct (exn_map (λ c, py_nth c 0) ring) as [xs|] eqn:Ex; cbn.
    2: { split; [by intros [? ?]|].
         intros (_ & ? & ? & [= <- <-] & _ & HF).
         assert (∃ ys, exn_map (λ c : list pyfloat, py_nth c 0) ring = Ok ys)
           as [ys Hy]; [|congruence].
         apply exn_map_py_nth. eapply Forall_impl; [exact HF|]. cbn. lia. }
    destruct (exn_map (λ c, py_nth c 1) ring) as [ys|] eqn:Ey; cbn.
    2: { split; [by intros [? ?]|].
         intros (_ & ? & ? & [= <- <-] & _ & HF).
         assert (∃ ys, exn_map (λ c : list pyfloat, py_nth c 1) ring = Ok ys)
           as [ys Hy]; [|congruence].
         by apply exn_map_py_nth. }
    pose proof (exn_map_length _ _ _ Ex) as Lx.
    pose proof (exn_map_length _ _ _ Ey) as Ly.
    destruct ring as [|c ring].
    + destruct xs; [|done]. cbn.
      split; [by intros [? ?]|]. intros (_ & ? & ? & [= <- <-] & ? & _).
      done.
    + destruct xs as [|x xs]; [done|]. destruct ys as [|y ys]; [done|].
      cbn. split; [|by intros _; eexists].
      intros _. split; [done|]. exists (c :: ring), rest.
      split; [done|]. split; [done|].
      apply (exn_map_py_nth 1). by exists (y :: ys).
Qed.

End GeometryEdges.

(** ** Accounting of the loop over the annotations *)

Section LoopAccounting.

Import Convert.

Variables (class_map : gmap Z Z) (w h : Z).

Implicit Types (s : loop_state) (ann : annotation).

Lemma class_total_insert (m : gmap Z Z) (k v : Z) :
  class_total (<[k := v]> m) = class_total m - default 0 (m !! k) + v.
Proof.
  unfold class_total.
  assert (∀ (m' : gmap Z Z) k' v', m' !! k' = None →
            map_fold (λ _ v acc, v + acc) 0 (<[k' := v']> m')
            = v' + map_fold (λ _ v acc, v + acc) 0 m') as Hins.
  { intros m' k' v' Hn. apply (map_fold_insert_L (λ _ v acc, v + acc)); [|done].
    intros. lia. }
  destruct (m !! k) as [x|] eqn:E; cbn.
  - rewrite <- (insert_delete_id m k x E) at 2.
    rewrite <- (insert_delete_eq m).
    rewrite !Hins by apply lookup_delete_eq. lia.
  - rewrite Hins by done. lia.
Qed.

(** The three outcomes of one iteration. *)
Lemma convert_annotation_cases s ann :
  (line_of class_map w h ann = None ∧
   (convert_annotation class_map w h s ann = s
    ∨ convert_annotation class_map w h s ann = count_invalid s))
  ∨ ∃ t y line,
      mapped_class class_map ann t y ∧
      line_of class_map w h ann = Some line ∧
      convert_annotation class_map w h s ann
      = mkLoop (label_lines s ++ [line])
               (objects_count s + 1) (incr_class t (loop_stats s)).
Proof.
  unfold convert_annotation, try_annotation, line_of.
  destruct (class_type_of ann) as [[t|]|] eqn:Et; cbn;
    [|by left; split; [|left]|by left; split; [|right]].
  destruct (class_map !! t) as [y|] eqn:Ey; cbn; [|by left; split; [|left]].
  destruct (bbox_of ann) as [[b|]|] eqn:Eb; cbn;
    [|by left; split; [|right]..].
  destruct (_bbox_to_yolo_format b w h) as [[l|]|] eqn:El; cbn;
    [|by left; split; [|left]|by left; split; [|right]].
  case_bool_decide as Hl.
  { exfalso. unfold _bbox_to_yolo_format in El.
    destruct (yolo_fields b w h) as [[f|]|]; cbn in El; try done.
    injection El as El. subst l. by eapply fmt_fields_nonempty. }
  right. by exists t, y, (str_Z y +:+ " " +:+ l +:+ nl).
Qed.

Lemma loop_inv_foldl (anns : list annotation) s0 :
  loop_inv class_map anns s0 (foldl (convert_annotation class_map w h) s0 anns)
  ∧ label_lines (foldl (convert_annotation class_map w h) s0 anns)
    = label_lines s0 ++ omap (line_of class_map w h) anns.
Proof.
  induction anns as [|ann anns IH] using rev_ind.
  { split; [|by cbn; rewrite app_nil_r].
    exists []. cbn. rewrite app_nil_r.
    split_and!; try done; try lia. intros t -> [? ?]. done. }
  rewrite foldl_app, omap_app. cbn [foldl omap list_omap].
  set (s := foldl _ s0 anns) in *.
  destruct IH as [(new & Hl & Hc & Hi & Hn & Ht & Hm & Hd & H1 & H2 & H3 & H4
                   & H5) Ho].
  unfold loop_inv. rewrite length_app. cbn [length].
  destruct (convert_annotation_cases s ann)
    as [[Hline [-> | ->]] | (t & y & line & Hmc & Hline & ->)];
    rewrite Hline; cbn.
  - split; [|by rewrite app_nil_r].
    exists new. split_and!; try done. lia.
  - split; [|by rewrite app_nil_r].
    exists new. cbn. split_and!; try done; lia.
  - split; [|by rewrite Ho, app_assoc].
    exists (new ++ [line]). cbn.
    rewrite Hl, Hc, length_app, class_total_insert, Ht. cbn [length].
    split; [by rewrite app_assoc|]. split; [lia|]. split; [done|].
    split; [lia|]. split; [lia|]. split.
    { intros t'. destruct (decide (t' = t)) as [->|Hne].
      - rewrite lookup_insert_eq. cbn. specialize (Hm t). lia.
      - rewrite lookup_insert_ne by done. apply Hm. }
    split; [|done].
    intros t' Hn' Hs. destruct (decide (t' = t)) as [->|Hne].
    + destruct Hmc as [_ Hmc]. by rewrite Hmc.
    + rewrite lookup_insert_ne in Hs by done. by apply Hd.
Qed.

(** X5. Accounting of the loop over the annotations of one image,
    whatever the annotations, the class map, the image size and the
    statistics before: [objects_count] is the number of label lines; an
    annotation gives at most one line or one invalid annotation, so lines
    plus new invalid annotations do not exceed the number of annotations;
    the per-class counters grow in total by exactly the number of lines,
    none of them decreases, and a class that appears in them for the
    first time is a key of the class map; the counters of the images
    ([total_images], [processed_images], [skipped_images],
    [total_objects], [missing_images]) are not touched by the loop. *)
Theorem annotation_loop_accounting (st : stats) (annotations : list annotation) :
  let r := foldl (convert_annotation class_map w h) (mkLoop [] 0 st)
                 annotations in
  let invalid := invalid_annotations (loop_stats r) - invalid_annotations st in
  objects_count r = Z.of_nat (length (label_lines r))
  ∧ 0 ≤ invalid
  ∧ objects_count r + invalid ≤ Z.of_nat (length annotations)
  ∧ class_total (objects_by_class (loop_stats r))
    = class_total (objects_by_class st) + objects_count r
  ∧ (∀ t, default 0 (objects_by_class st !! t)
          ≤ default 0 (objects_by_class (loop_stats r) !! t))
  ∧ (∀ t, objects_by_class st !! t = None →
          is_Some (objects_by_class (loop_stats r) !! t) →
          is_Some (class_map !! t))
  ∧ total_images (loop_stats r) = total_images st
  ∧ processed_images (loop_stats r) = processed_images st
  ∧ skipped_images (loop_stats r) = skipped_images st
  ∧ total_objects (loop_stats r) = total_objects st
  ∧ missing_images (loop_stats r) = missing_images st.
Proof.
  intros r invalid. unfold invalid, r.
  destruct (loop_inv_foldl annotations (mkLoop [] 0 st))
    as [(new & Hl & Hc & Hi & Hn & Ht & Hm & Hd & H1 & H2 & H3 & H4 & H5) _].
  cbn in *. rewrite Hl, Hc, Ht.
  split_and!; try done; lia.
Qed.

(** X6. The label lines of an image are the lines of its annotations
    taken one by one, in the order of the annotations: an annotation
    contributes its line whatever the other annotations of the group and
    the statistics are, and each line is the class index of the
    annotation, a space, the four fields of its box and a line feed. *)
Theorem label_lines_in_annotation_order (st : stats)
    (annotations : list annotation) :
  label_lines (foldl (convert_annotation class_map w h) (mkLoop [] 0 st)
                     annotations)
  = omap (line_of class_map w h) annotations
  ∧ Forall (λ line, ∃ ann t y b f,
              ann ∈ annotations ∧
              class_type_of ann = Ok (Some t) ∧ class_map !! t = Some y ∧
              bbox_of ann = Ok (Some b) ∧
              yolo_fields b w h = Ok (Some f) ∧
              line = str_Z y +:+ " " +:+ fmt_fields f +:+ nl)
      (omap (line_of class_map w h) annotations).
Proof.
  split; [apply (loop_inv_foldl annotations (mkLoop [] 0 st))|].
  apply Forall_forall. intros line (ann & Ha & Hl)%list_elem_of_omap.
  unfold line_of in Hl.
  destruct (class_type_of ann) as [[t|]|] eqn:Et; try done.
  destruct (class_map !! t) as [y|] eqn:Ey; try done.
  destruct (bbox_of ann) as [[b|]|] eqn:Eb; try done.
  unfold _bbox_to_yolo_format in Hl.
  destruct (yolo_fields b w h) as [[f|]|] eqn:Ef; cbn in Hl; try done.
  injection Hl as <-. by exists ann, t, y, b, f.
Qed.

End LoopAccounting.

(** ** The statistics and the files of a run *)

Section RunAccounting.

Import Convert.

Variable imread : string → option (Z * Z).

Implicit Types (c : converter) (idx : gmap string (list annotation))
  (fs : filesys) (st : stats) (image_file : path).

Lemma name_snoc (dir : path) (n : string) : name (dir ++ [n]) = n.
Proof. unfold name. by rewrite last_snoc. Qed.

Lemma ends_with_app (e s : string) : ends_with e (s +:+ e) = true.
Proof.
  unfold ends_with. apply bool_decide_eq_true. rewrite chars_app.
  by apply suffix_app_r.
Qed.

Lemma label_path_txt c image_file :
  ends_with ".txt" (name (label_path c image_file)) = true.
Proof. unfold label_path. rewrite name_snoc. apply ends_with_app. Qed.

(** No image file is the label file of an image. *)
Lemma image_not_label c fs dir p image_file :
  p ∈ image_files fs dir → p ≠ label_path c image_file.
Proof.
  intros Hp ->. pose proof (label_path_txt c image_file) as Ht.
  unfold image_files in Hp.
  repeat (apply elem_of_app in Hp as [Hp|Hp]).
  all: apply elem_of_glob in Hp.
  all: by eapply (ends_with_exclusive _ _ (name (label_path c image_file)));
         [| |exact Ht|exact Hp].
Qed.

Lemma write_lookup (p : path) (lines : list string) fs :
  files (write p lines fs) !! p = Some (foldr String.append ""%string lines).
Proof. unfold write. cbn. by rewrite lookup_insert_eq. Qed.

(** One iteration, in terms of the lines of its image. *)
Lemma convert_image_spec c idx fs st image_file :
  let r := convert_image imread c idx (fs, st) image_file in
  let lines := lines_of_image imread c idx fs image_file in
  let bad := undecodable imread fs image_file in
  files r.1 !! label_path c image_file
  = label_after imread c idx fs image_file
                (files fs !! label_path c image_file)
  ∧ total_images r.2 = total_images st
  ∧ missing_images r.2
    = missing_images st ++ (if bad then [stem image_file] else [])
  ∧ skipped_images r.2 = skipped_images st + (if bad then 1 else 0)
  ∧ processed_images r.2
    = processed_images st + (if is_nil lines then 0 else 1)
  ∧ total_objects r.2 = total_objects st + Z.of_nat (length lines)
  ∧ class_total (objects_by_class r.2)
    = class_total (objects_by_class st) + Z.of_nat (length lines)
  ∧ invalid_annotations st ≤ invalid_annotations r.2.
Proof.
  unfold convert_image, label_after, lines_of_image, undecodable.
  destruct (files fs !! image_file ≫= imread) as [[h w]|] eqn:Ed; cbn zeta.
  2: { rewrite bool_decide_eq_true_2 by done. cbn.
       split_and!; try done; lia. }
  rewrite bool_decide_eq_false_2 by done.
  destruct (annotations_for idx image_file) as [|a anns] eqn:Ea.
  { cbn. rewrite touch_lookup, app_nil_r. split_and!; try done; lia. }
  cbn [is_nil]. rewrite <- Ea.
  destruct (loop_inv_foldl (class_map c) w h
              (annotations_for idx image_file) (mkLoop [] 0 st))
    as [(new & Hl & Hc & Hi & Hn & Ht & Hm & Hd & H1 & H2 & H3 & H4 & H5) Ho].
  cbn [label_lines objects_count loop_stats app] in *.
  rewrite Ho in *. subst new.
  remember (foldl _ _ _) as r eqn:Er. clear Er.
  destruct (omap _ _) as [|line lines] eqn:El.
  - cbn. rewrite H5, app_nil_r, Ht. cbn in *. split_and!; try done; lia.
  - cbn [is_nil fst snd]. rewrite write_lookup.
    cbn -[Z.of_nat length]. rewrite H5, app_nil_r, Ht, H4, Hc, H2, H3.
    split_and!; try done; lia.
Qed.

Lemma lines_of_image_ext c idx fs fs' image_file :
  files fs' !! image_file = files fs !! image_file →
  lines_of_image imread c idx fs' image_file
  = lines_of_image imread c idx fs image_file
  ∧ undecodable imread fs' image_file = undecodable imread fs image_file
  ∧ ∀ old, label_after imread c idx fs' image_file old
           = label_after imread c idx fs image_file old.
Proof.
  intros E. unfold label_after, lines_of_image, undecodable. by rewrite E.
Qed.

Lemma is_nil_length {A} (l : list A) :
  (if is_nil l then 0 else 1)
  = Z.of_nat (length (filter (λ x : list A, x ≠ []) [l])).
Proof. by destruct l. Qed.

(** The statistics after the iterations over [l], when no image of [l]
    is the label file of an image of [l]. *)
Lemma run_stats c idx (l : list path) fs0 st0 :
  (∀ i j, i ∈ l → j ∈ l → i ≠ label_path c j) →
  let r := foldl (convert_image imread c idx) (fs0, st0) l in
  let lines := lines_of_image imread c idx fs0 <$> l in
  let bad := filter (λ i, undecodable imread fs0 i) l in
  total_images r.2 = total_images st0
  ∧ missing_images r.2 = missing_images st0 ++ (stem <$> bad)
  ∧ skipped_images r.2 = skipped_images st0 + Z.of_nat (length bad)
  ∧ processed_images r.2
    = processed_images st0
      + Z.of_nat (length (filter (λ x : list string, x ≠ []) lines))
  ∧ total_objects r.2 = total_objects st0 + Z.of_nat (length (concat lines))
  ∧ class_total (objects_by_class r.2)
    = class_total (objects_by_class st0) + Z.of_nat (length (concat lines))
  ∧ invalid_annotations st0 ≤ invalid_annotations r.2.
Proof.
  induction l as [|i l IH] using rev_ind; intros Hl.
  { cbn. rewrite app_nil_r. split_and!; try done; lia. }
  cbn zeta. rewrite foldl_app, fmap_app, !filter_app, concat_app, fmap_app.
  rewrite !length_app. cbn [foldl].
  destruct IH as (I1 & I2 & I3 & I4 & I5 & I6 & I7).
  { intros a b Ha Hb. apply Hl; apply elem_of_app; by left. }
  destruct (foldl (convert_image imread c idx) (fs0, st0) l) as [fs st] eqn:E.
  assert (files fs !! i = files fs0 !! i) as Hi.
  { change fs with (fs, st).1. rewrite <- E.
    apply foldl_convert_image_frame.
    intros (j & -> & Hj)%list_elem_of_fmap.
    eapply (Hl (label_path c j) j); [|by apply elem_of_app; left|done].
    apply elem_of_app. right. by apply list_elem_of_singleton. }
  destruct (lines_of_image_ext c idx fs0 fs i Hi) as (L1 & L2 & _).
  pose proof (convert_image_spec c idx fs st i) as S. cbn zeta in S.
  destruct (convert_image imread c idx (fs, st) i) as [fs' st'].
  destruct S as (_ & S1 & S2 & S3 & S4 & S5 & S6 & S7).
  rewrite L1, L2 in *. cbn [fst snd] in *.
  rewrite S1, S2, S3, S4, S5, S6, I1, I2, I3, I4, I5, I6.
  rewrite is_nil_length. cbn [fmap list_fmap concat].
  rewrite app_nil_r, filter_cons, filter_nil.
  destruct (undecodable imread fs0 i).
  - rewrite decide_True by done. cbn [fmap list_fmap length].
    rewrite <- app_assoc. split_and!; try done; lia.
  - rewrite decide_False by (by intros []). cbn [fmap list_fmap length].
    rewrite !app_nil_r. split_and!; try done; lia.
Qed.

Lemma nonempty_le_concat {A} (ls : list (list A)) :
  (length (filter (λ x : list A, x ≠ []) ls) ≤ length (concat ls))%nat.
Proof.
  induction ls as [|x ls IH]; [done|].
  rewrite filter_cons. cbn [concat]. rewrite length_app.
  destruct x; [by rewrite decide_False by (by intros [])|].
  rewrite decide_True by done. cbn. lia.
Qed.

Lemma lines_or_bad c idx fs (l : list path) :
  (length (filter (λ x : list string, x ≠ [])
                  (lines_of_image imread c idx fs <$> l))
   + length (filter (λ i, undecodable imread fs i) l) ≤ length l)%nat.
Proof.
  induction l as [|i l IH]; [done|].
  assert (undecodable imread fs i → lines_of_image imread c idx fs i = [])
    as Hb.
  { unfold undecodable, lines_of_image.
    by intros ->%bool_decide_unpack. }
  cbn [fmap list_fmap]. rewrite !filter_cons.
  destruct (decide (lines_of_image imread c idx fs i ≠ [])) as [Hl|Hl];
    destruct (decide (undecodable imread fs i)) as [Hu|Hu];
    cbn [length]; try lia.
  by destruct Hl; apply Hb.
Qed.

(** X7. The statistics of a run that can write its label files, read
    from the file system before the run: [total_images] is the number
    of image files listed; [missing_images] receives the stems of the
    images that cannot be decoded, in listing order, and
    [skipped_images] grows by their number; [processed_images] grows by
    the number of images with at least one label line; [total_objects]
    and the sum of the per-class counters both grow by the total number
    of label lines; the counter of invalid annotations never decreases.
    The counters that the run does not reset keep accumulating from
    their earlier values. *)
Theorem run_statistics c (gdf : list annotation) fs :
  labels_writable c fs →
  let images := image_files fs (images_dir c) in
  let st0 := init_stats c in
  let st := (convert imread c gdf fs).2 in
  let lines :=
    lines_of_image imread c (group_annotations gdf) fs <$> images in
  let bad := filter (λ i, undecodable imread fs i) images in
  total_images st = Z.of_nat (length images)
  ∧ missing_images st = missing_images st0 ++ (stem <$> bad)
  ∧ skipped_images st = skipped_images st0 + Z.of_nat (length bad)
  ∧ processed_images st
    = processed_images st0
      + Z.of_nat (length (filter (λ x : list string, x ≠ []) lines))
  ∧ total_objects st = total_objects st0 + Z.of_nat (length (concat lines))
  ∧ class_total (objects_by_class st)
    = class_total (objects_by_class st0) + Z.of_nat (length (concat lines))
  ∧ invalid_annotations st0 ≤ invalid_annotations st.
Proof.
  intros _ images st0 st lines bad. unfold st, convert.
  destruct (run_stats c (group_annotations gdf) images fs
              (set_total_images (Z.of_nat (length images)) st0))
    as (H1 & H2 & H3 & H4 & H5 & H6 & H7).
  { intros i j Hi _. by eapply image_not_label. }
  done.
Qed.

(** X8. The numbers returned by the run of a converter whose statistics
    start from zero (as [__init__] sets them) and whose label files can
    be written are consistent: every counter is non-negative,
    [skipped_images] is the length of [missing_images], processed and
    skipped images together do not exceed [total_images], every
    processed image has at least one object, and [total_objects] is the
    sum of the per-class counters. *)
Theorem statistics_consistent c (gdf : list annotation) fs :
  labels_writable c fs →
  init_stats c = stats0 →
  let st := (convert imread c gdf fs).2 in
  0 ≤ processed_images st ∧ 0 ≤ skipped_images st
  ∧ 0 ≤ invalid_annotations st
  ∧ skipped_images st = Z.of_nat (length (missing_images st))
  ∧ processed_images st + skipped_images st ≤ total_images st
  ∧ processed_images st ≤ total_objects st
  ∧ total_objects st = class_total (objects_by_class st).
Proof.
  intros _ H0 st. unfold st, convert.
  set (images := image_files fs (images_dir c)).
  destruct (run_stats c (group_annotations gdf) images fs
              (set_total_images (Z.of_nat (length images)) (init_stats c)))
    as (H1 & H2 & H3 & H4 & H5 & H6 & H7).
  { intros i j Hi _. by eapply image_not_label. }
  rewrite H0 in *. cbn [set_total_images stats0 total_images missing_images
    skipped_images processed_images total_objects objects_by_class
    invalid_annotations] in *.
  rewrite H1, H2, H3, H4, H5, H6.
  pose proof (nonempty_le_concat
                (lines_of_image imread c (group_annotations gdf) fs
                   <$> images)).
  pose proof (lines_or_bad c (group_annotations gdf) fs images).
  cbn [app]. rewrite length_fmap.
  change (class_total ∅) with 0.
  split_and!; lia.
Qed.

End RunAccounting.

(** ** The files of a run *)

Section RunFiles.

Import Convert.

Variable imread : string → option (Z * Z).

Implicit Types (c : converter) (idx : gmap string (list annotation))
  (fs : filesys) (st : stats) (image_file : path).

Lemma foldl_convert_image_dirs c idx (l : list path) fs st :
  dirs (foldl (convert_image imread c idx) (fs, st) l).1 = dirs fs.
Proof.
  revert fs st. induction l as [|i l IH]; intros fs st; [done|].
  cbn [foldl].
  destruct (convert_image imread c idx (fs, st) i) as [fs1 st1] eqn:E.
  rewrite IH. change fs1 with (fs1, st1).1. rewrite <- E.
  apply convert_image_dirs.
Qed.

Lemma label_after_keeps c idx fs image_file old :
  is_Some old → is_Some (label_after imread c idx fs image_file old).
Proof.
  intros Ho. unfold label_after.
  destruct (_ ≫= imread); [|done].
  destruct (is_nil (annotations_for _ _)); [done|].
  by destruct (is_nil (lines_of_image _ _ _ _ _)).
Qed.

Lemma label_after_idem c idx fs image_file old :
  label_after imread c idx fs image_file
              (label_after imread c idx fs image_file old)
  = label_after imread c idx fs image_file old.
Proof.
  unfold label_after.
  destruct (_ ≫= imread); [|done].
  destruct (is_nil (annotations_for _ _)); [done|].
  by destruct (is_nil (lines_of_image _ _ _ _ _)).
Qed.

Lemma label_after_ext c c' idx fs fs' image_file old :
  class_map c' = class_map c →
  files fs' !! image_file = files fs !! image_file →
  label_after imread c' idx fs' image_file old
  = label_after imread c idx fs image_file old.
Proof.
  intros Hc Hf. unfold label_after, lines_of_image. by rewrite Hc, Hf.
Qed.

Lemma foldl_convert_image_keeps c idx (l : list path) fs st p :
  is_Some (files fs !! p) →
  is_Some (files (foldl (convert_image imread c idx) (fs, st) l).1 !! p).
Proof.
  revert fs st. induction l as [|i l IH]; intros fs st Hp; [done|].
  cbn [foldl].
  destruct (convert_image imread c idx (fs, st) i) as [fs1 st1] eqn:E.
  apply IH. change fs1 with (fs1, st1).1. rewrite <- E.
  destruct (decide (p = label_path c i)) as [->|Hne].
  - destruct (convert_image_spec imread c idx fs st i) as [-> _].
    by apply label_after_keeps.
  - by rewrite convert_image_frame.
Qed.

Lemma elem_of_glob_iff fs dir ext p :
  p ∈ glob fs dir ext
  ↔ is_Some (files fs !! p) ∧ in_dir dir p = true
    ∧ ends_with ext (name p) = true.
Proof.
  unfold glob. rewrite list_elem_of_filter, list_elem_of_fmap.
  rewrite andb_True, !Is_true_true. split.
  - intros [[Hd He] ([q x] & -> & Hq%elem_of_map_to_list)]. cbn in *.
    by rewrite Hq.
  - intros ([x Hx] & Hd & He). split; [done|].
    exists (p, x). split; [done|]. by apply elem_of_map_to_list.
Qed.

Lemma elem_of_image_files fs dir p :
  p ∈ image_files fs dir
  ↔ is_Some (files fs !! p) ∧ in_dir dir p = true
    ∧ (ends_with ".jpg" (name p) = true ∨ ends_with ".png" (name p) = true
       ∨ ends_with ".tif" (name p) = true
       ∨ ends_with ".tiff" (name p) = true).
Proof.
  unfold image_files. rewrite !elem_of_app, !elem_of_glob_iff. tauto.
Qed.

(** A file whose name ends in an image extension is no label file. *)
Lemma image_name_not_label c image_file p :
  ends_with ".jpg" (name p) = true ∨ ends_with ".png" (name p) = true
  ∨ ends_with ".tif" (name p) = true ∨ ends_with ".tiff" (name p) = true →
  p ≠ label_path c image_file.
Proof.
  intros Hp ->. pose proof (label_path_txt c image_file) as Ht.
  destruct Hp as [Hp|[Hp|[Hp|Hp]]].
  all: by eapply (ends_with_exclusive _ _ (name (label_path c image_file)));
         [| |exact Ht|exact Hp].
Qed.

Lemma foldl_convert_image_images c idx (l : list path) fs st p :
  ends_with ".jpg" (name p) = true ∨ ends_with ".png" (name p) = true
  ∨ ends_with ".tif" (name p) = true ∨ ends_with ".tiff" (name p) = true →
  files (foldl (convert_image imread c idx) (fs, st) l).1 !! p
  = files fs !! p.
Proof.
  intros Hp. apply foldl_convert_image_frame.
  intros (j & E & _)%list_elem_of_fmap.
  by eapply image_name_not_label.
Qed.

Lemma foldl_convert_image_listing c idx (l : list path) fs st dir :
  image_files (foldl (convert_image imread c idx) (fs, st) l).1 dir
  ≡ₚ image_files fs dir.
Proof.
  apply NoDup_Permutation; [apply NoDup_image_files..|].
  intros p. rewrite !elem_of_image_files.
  split; intros (Hs & Hd & He); (split; [|done]).
  - by rewrite foldl_convert_image_images in Hs.
  - by rewrite foldl_convert_image_images.
Qed.

(** X9. A run that can write its label files writes label files and
    nothing else: the directories are the same after the run; a path
    that is not the label path of a listed image holds what it held
    before; no file is removed; every file whose name ends in an image
    extension, in whatever directory, is unchanged; and every directory
    lists the same images after the run as before. *)
Theorem run_writes_labels_only c (gdf : list annotation) fs :
  labels_writable c fs →
  let fs' := (convert imread c gdf fs).1 in
  dirs fs' = dirs fs
  ∧ (∀ p, p ∉ label_path c <$> image_files fs (images_dir c) →
          files fs' !! p = files fs !! p)
  ∧ (∀ p, is_Some (files fs !! p) → is_Some (files fs' !! p))
  ∧ (∀ p, ends_with ".jpg" (name p) = true ∨ ends_with ".png" (name p) = true
          ∨ ends_with ".tif" (name p) = true
          ∨ ends_with ".tiff" (name p) = true →
          files fs' !! p = files fs !! p)
  ∧ (∀ dir, image_files fs' dir ≡ₚ image_files fs dir).
Proof.
  intros _. cbn zeta. unfold convert. split_and!.
  - apply foldl_convert_image_dirs.
  - intros p. apply foldl_convert_image_frame.
  - intros p. apply foldl_convert_image_keeps.
  - intros p. apply foldl_convert_image_images.
  - intros dir. apply foldl_convert_image_listing.
Qed.

Lemma append_inj_l (s1 s2 t : string) : s1 +:+ t = s2 +:+ t → s1 = s2.
Proof.
  intros E. apply (f_equal chars) in E. rewrite !chars_app in E.
  apply app_inv_tail in E.
  by rewrite <- (of_chars_chars s1), <- (of_chars_chars s2), E.
Qed.

Lemma NoDup_label_paths c (l : list path) :
  NoDup (stem <$> l) → NoDup (label_path c <$> l).
Proof.
  intros H.
  assert (label_path c <$> l
          = (λ s, labels_dir c ++ [s +:+ ".txt"]) <$> (stem <$> l)) as ->
    by (by rewrite <- list_fmap_compose).
  apply NoDup_fmap_2; [|done].
  intros s1 s2 E. apply app_inv_head in E. injection E as E.
  by apply append_inj_l in E.
Qed.

(** With distinct label paths, the label file of an image after the
    iterations over [l] is the one its own iteration makes from the file
    system before them. *)
Lemma foldl_convert_image_label c idx (l : list path) fs0 st0 i :
  NoDup (label_path c <$> l) →
  (∀ a b, a ∈ l → b ∈ l → a ≠ label_path c b) →
  i ∈ l →
  files (foldl (convert_image imread c idx) (fs0, st0) l).1 !! label_path c i
  = label_after imread c idx fs0 i (files fs0 !! label_path c i).
Proof.
  induction l as [|j l IH] using rev_ind; intros Hnd Hl Hi.
  { by apply elem_of_nil in Hi. }
  rewrite fmap_app in Hnd. apply NoDup_app in Hnd as (Hnd & Hj & _).
  rewrite foldl_app. cbn [foldl].
  destruct (foldl (convert_image imread c idx) (fs0, st0) l) as [fs st] eqn:E.
  assert (∀ p, p ∉ label_path c <$> l → files fs !! p = files fs0 !! p) as Hf.
  { intros p Hp. change fs with (fs, st).1. rewrite <- E.
    by apply foldl_convert_image_frame. }
  assert (label_path c j ∉ label_path c <$> l) as Hjl.
  { intros Hin. apply (Hj _ Hin). cbn. by left. }
  destruct (decide (label_path c i = label_path c j)) as [Eij|Nij].
  - rewrite Eij.
    destruct (convert_image_spec imread c idx fs st j) as [-> _].
    rewrite (Hf _ Hjl).
    assert (i = j) as ->.
    { apply elem_of_app in Hi as [Hi|Hi%list_elem_of_singleton]; [|done].
      destruct Hjl. rewrite <- Eij. by apply list_elem_of_fmap_2. }
    apply (label_after_ext c c); [done|].
    apply Hf. intros (b & Eb & Hb)%list_elem_of_fmap.
    eapply (Hl j b); [| |exact Eb]; apply elem_of_app; [right|by left].
    by apply list_elem_of_singleton.
  - rewrite convert_image_frame by done.
    apply IH; [done| |].
    + intros a b Ha Hb. apply Hl; apply elem_of_app; by left.
    + apply elem_of_app in Hi as [Hi|Hi%list_elem_of_singleton]; [done|].
      by subst.
Qed.

(** X10. When the label files can be written and the listed images have
    distinct stems, the label file of each of them after the run depends
    on that image alone: it is the file from before the run when the
    image cannot be decoded or when its annotation group gives no line;
    it exists, empty unless it existed before, when the image has no
    annotation group; and it holds exactly the lines of the annotations
    of its group, in their order, otherwise. *)
Theorem label_file_after_run c (gdf : list annotation) fs image_file :
  labels_writable c fs →
  NoDup (stem <$> image_files fs (images_dir c)) →
  image_file ∈ image_files fs (images_dir c) →
  let idx := group_annotations gdf in
  let old := files fs !! label_path c image_file in
  let new := files (convert imread c gdf fs).1 !! label_path c image_file in
  let lines := lines_of_image imread c idx fs image_file in
  new = label_after imread c idx fs image_file old
  ∧ (undecodable imread fs image_file → new = old)
  ∧ (¬ undecodable imread fs image_file →
     (annotations_for idx image_file = [] →
        new = Some (default ""%string old))
     ∧ (annotations_for idx image_file ≠ [] → lines = [] → new = old)
     ∧ (lines ≠ [] → new = Some (foldr String.append ""%string lines))).
Proof.
  intros _ Hnd Hi idx old new lines.
  assert (new = label_after imread c idx fs image_file old) as ->.
  { unfold new, convert.
    apply foldl_convert_image_label;
      [|by intros a b Ha _; eapply image_not_label|done].
    by apply NoDup_label_paths. }
  split; [done|]. unfold label_after, undecodable, lines, lines_of_image.
  destruct (files fs !! image_file ≫= imread) as [[h w]|] eqn:Ed.
  2: { split; [done|]. intros Hu. destruct Hu. by apply bool_decide_pack. }
  split; [by intros ?%bool_decide_unpack|]. intros _.
  destruct (annotations_for idx image_file) as [|a anns] eqn:Ea.
  { cbn. split_and!; done. }
  cbn [is_nil]. rewrite <- Ea.
  destruct (omap _ _) as [|x xs] eqn:El; cbn [is_nil];
    split_and!; intros; try done; congruence.
Qed.

(** X11. Running the conversion again on its own output, with the same
    annotations, the same directories and the same class map, changes
    nothing, provided the label files can be written and the listed
    images have distinct stems: the file system after the second run is
    the file system after the first. *)
Theorem rerun_changes_nothing c c' (gdf : list annotation) fs :
  labels_writable c fs →
  NoDup (stem <$> image_files fs (images_dir c)) →
  images_dir c' = images_dir c → labels_dir c' = labels_dir c →
  class_map c' = class_map c →
  let fs1 := (convert imread c gdf fs).1 in
  (convert imread c' gdf fs1).1 = fs1.
Proof.
  intros _ Hnd Hi Hl Hc fs1.
  assert (∀ i, label_path c' i = label_path c i) as Hlp
    by (intros i; unfold label_path; by rewrite Hl).
  assert (image_files fs1 (images_dir c') ≡ₚ image_files fs (images_dir c))
    as Hperm.
  { rewrite Hi. apply foldl_convert_image_listing. }
  assert (∀ i, i ∈ image_files fs (images_dir c) →
               files fs1 !! i = files fs !! i) as Himg.
  { intros i (_ & _ & He)%elem_of_image_files.
    by apply foldl_convert_image_images. }
  assert (dirs (convert imread c' gdf fs1).1 = dirs fs1) as Hd
    by apply foldl_convert_image_dirs.
  assert (files (convert imread c' gdf fs1).1 = files fs1) as Hf.
  { apply map_eq. intros p.
    destruct (decide (p ∈ label_path c' <$> image_files fs1 (images_dir c')))
      as [Hp|Hp]; [|by apply foldl_convert_image_frame].
    apply list_elem_of_fmap in Hp as (i & -> & Hin).
    assert (i ∈ image_files fs (images_dir c)) as Hin0 by (by rewrite <- Hperm).
    unfold convert at 1.
    rewrite foldl_convert_image_label;
      [| |by intros a b Ha _; eapply image_not_label|done].
    2: { apply NoDup_label_paths. by rewrite Hperm. }
    rewrite (label_after_ext c c' _ fs fs1) by (done || by apply Himg).
    rewrite Hlp. unfold fs1, convert.
    rewrite foldl_convert_image_label;
      [| |by intros a b Ha _; eapply image_not_label|done].
    2: by apply NoDup_label_paths.
    apply label_after_idem. }
  destruct (convert imread c' gdf fs1).1 as [d2 f2], fs1 as [d1 f1].
  cbn in Hd, Hf. by subst.
Qed.

End RunFiles.

(** ** The copies of the splitter *)

Section SplitEdges.

Import Split.

Variable shuffle : Z → list (path * path) → list (path * path).





End SplitEdges.

(** ** The outcome of a split *)

Section SplitRun.

Import Split.

Variable shuffle : Z → list (path * path) → list (path * path).
Hypothesis shuffle_perm : ∀ seed l, shuffle seed l ≡ₚ l.

Implicit Types (sp : splitter) (fs : filesys) (pairs : list (path * path)).






Lemma elem_of_valid_pairs sp fs img lbl :
  (img, lbl) ∈ valid_pairs sp fs
  ↔ img ∈ image_files fs (images_dir sp) ∧ lbl = label_of sp img
    ∧ exists_ fs lbl = true.
Proof.
  unfold valid_pairs. rewrite list_elem_of_omap. split.
  - intros (i & Hi & H). destruct (exists_ fs (label_of sp i)) eqn:E; [|done].
    injection H as <- <-. done.
  - intros (Hi & -> & E). exists img. by rewrite E.
Qed.


Lemma NoDup_partition_dirs sp : NoDup (partition_dirs sp).
Proof.
  assert (partition_dirs sp
          = (λ t, output_dir sp ++ t)
              <$> [["images"; "train"]; ["images"; "val"]; ["images"; "test"];
                   ["labels"; "train"]; ["labels"; "val"];
                   ["labels"; "test"]]%string) as -> by done.
  apply NoDup_fmap_2; [intros x y; apply app_inv_head|].
  repeat (apply NoDup_cons; split;
          [rewrite ?elem_of_cons, elem_of_nil; intros H;
           repeat (destruct H as [H|H]; try discriminate H); done|]).
  apply NoDup_nil_2.
Qed.


End SplitRun.

(** ** From the converter to the splitter *)

Section Pipeline.

Variable imread : string → option (Z * Z).

Lemma label_after_is_Some (c : Convert.converter)
    (idx : gmap string (list Convert.annotation)) (fs : filesys)
    (image_file : path) (old : option string) :
  is_Some (label_after imread c idx fs image_file old)
  ↔ is_Some old
    ∨ (¬ undecodable imread fs image_file
       ∧ (Convert.annotations_for idx image_file = []
          ∨ lines_of_image imread c idx fs image_file ≠ [])).
Proof.
  unfold label_after, undecodable, lines_of_image.
  destruct (files fs !! image_file ≫= imread) as [[h w]|] eqn:Ed.
  2: { rewrite bool_decide_eq_true_2 by done. split; [by left|].
       intros [?|[H _]]; [done|]. by destruct H. }
  rewrite bool_decide_eq_false_2 by done.
  destruct (Convert.annotations_for idx image_file) as [|a anns] eqn:Ea.
  { cbn. split; [|done]. intros _. right. split; [by intros []|by left]. }
  cbn [Convert.is_nil].
  destruct (omap _ _) as [|x xs]; cbn [Convert.is_nil].
  - split; [by left|]. intros [?|[_ [?|?]]]; done.
  - split; [|done]. intros _. right. split; [by intros []|by right].
Qed.

(** X14. The converter followed by the splitter on the same image and
    label directories, for label files that can be written and images
    with distinct stems: after the conversion run the splitter retains
    exactly the listed images whose label file existed before the run,
    or that decode and have either no annotation group or at least one
    label line; each is paired with the label file named after its
    stem.  An image whose annotations are all filtered out is dropped
    from the data set unless an older label file is present. *)
Theorem converted_images_are_retained (c : Convert.converter)
    (sp : Split.splitter) (gdf : list Convert.annotation) (fs : filesys)
    (img lbl : path) :
  labels_writable c fs →
  NoDup (stem <$> image_files fs (Convert.images_dir c)) →
  Split.images_dir sp = Convert.images_dir c →
  Split.labels_dir sp = Convert.labels_dir c →
  let fs' := (Convert.convert imread c gdf fs).1 in
  let idx := Convert.group_annotations gdf in
  (img, lbl) ∈ Split.valid_pairs sp fs'
  ↔ img ∈ image_files fs (Convert.images_dir c)
    ∧ lbl = Convert.label_path c img
    ∧ (exists_ fs lbl = true
       ∨ (¬ undecodable imread fs img
          ∧ (Convert.annotations_for idx img = []
             ∨ lines_of_image imread c idx fs img ≠ []))).
Proof.
  intros _ Hnd Hi Hl fs' idx.
  assert (Split.label_of sp img = Convert.label_path c img) as Hlp
    by (unfold Split.label_of, Convert.label_path; by rewrite Hl).
  assert (img ∈ image_files fs' (Split.images_dir sp)
          ↔ img ∈ image_files fs (Convert.images_dir c)) as Him.
  { rewrite Hi. unfold fs', Convert.convert.
    by rewrite foldl_convert_image_listing. }
  assert (dirs fs' = dirs fs) as Hd
    by apply foldl_convert_image_dirs.
  rewrite elem_of_valid_pairs, Him, Hlp.
  split; intros (Hin & -> & Hex); (split; [done|]); (split; [done|]).
  - unfold exists_ in Hex |- *. rewrite Hd in Hex.
    apply orb_true_iff in Hex as [Hex|Hex].
    2: { left. rewrite Hex. apply orb_true_r. }
    apply bool_decide_eq_true in Hex. unfold fs', Convert.convert in Hex.
    rewrite foldl_convert_image_label in Hex;
      [|by apply NoDup_label_paths
       |by intros a b Ha _; eapply image_not_label|done].
    apply label_after_is_Some in Hex as [Hex|Hex]; [|by right].
    left. by rewrite (bool_decide_eq_true_2 _ Hex).
  - unfold exists_ in Hex |- *. rewrite Hd.
    apply orb_true_iff.
    assert (is_Some (files fs !! Convert.label_path c img)
            ∨ (¬ undecodable imread fs img
               ∧ (Convert.annotations_for idx img = []
                  ∨ lines_of_image imread c idx fs img ≠ []))
            ∨ Convert.label_path c img ∈ dirs fs) as [H|[H|H]].
    { destruct Hex as [[H|H]%orb_true_iff|H]; [| |by right; left].
      - left. by apply bool_decide_eq_true in H.
      - do 2 right. by apply bool_decide_eq_true in H. }
    + left. apply bool_decide_eq_true. unfold fs', Convert.convert.
      rewrite foldl_convert_image_label;
        [|by apply NoDup_label_paths
         |by intros a b Ha _; eapply image_not_label|done].
      apply label_after_is_Some. by left.
    + left. apply bool_decide_eq_true. unfold fs', Convert.convert.
      rewrite foldl_convert_image_label;
        [|by apply NoDup_label_paths
         |by intros a b Ha _; eapply image_not_label|done].
      apply label_after_is_Some. by right.
    + right. by apply bool_decide_eq_true.
Qed.

End Pipeline.

(** ** The normalizer clips the box to the image *)

Section Clipping.

Import Convert.
Local Open Scope Q_scope.



End Clipping.

(** ** Decimal numerals: printing and reading *)

Section Decimals.

Lemma digit_char_facts (d : Z) :
  0 ≤ d ≤ 9 →
  digit_of (digit_char d) = Some d ∧ digit_char d ≠ "_"%char
  ∧ is_space (digit_char d) = false
  ∧ to_lower (digit_char d) = digit_char d
  ∧ digit_char d ≠ "-"%char ∧ digit_char d ≠ "+"%char
  ∧ digit_char d ≠ ","%char ∧ digit_char d ≠ "."%char
  ∧ digit_char d ≠ "i"%char ∧ digit_char d ≠ "n"%char.
Proof.
  intros H.
  assert (d = 0 ∨ d = 1 ∨ d = 2 ∨ d = 3 ∨ d = 4 ∨ d = 5 ∨ d = 6 ∨ d = 7
          ∨ d = 8 ∨ d = 9) as Hd by lia.
  repeat (destruct Hd as [->|Hd]); try subst d; by vm_compute.
Qed.

Lemma chars_string_of_uint (d : Decimal.uint) :
  chars (NilEmpty.string_of_uint d) = digit_chars (digits_of_uint d).
Proof.
  unfold chars, digit_chars. induction d; cbn; [done|by f_equal..].
Qed.

Lemma is_digits_of_uint (d : Decimal.uint) : is_digits (digits_of_uint d).
Proof.
  unfold is_digits. induction d; cbn; [by constructor|..];
    (constructor; [lia|done]).
Qed.

Lemma digit_run_cons (a : ascii) (s : list ascii) (x : Z) :
  digit_of a = Some x →
  (∀ u t, s = u :: t → u ≠ "_"%char) →
  digit_run (a :: s) = (x :: (digit_run s).1, (digit_run s).2).
Proof.
  intros Ha Hs. cbn [digit_run]. rewrite Ha.
  destruct s as [|u [|b s'']].
  - done.
  - by destruct (digit_run [u]).
  - assert (ascii_eqb u "_" = false) as ->.
    { apply Ascii.eqb_neq. by eapply Hs. }
    cbn [andb]. by destruct (digit_run (u :: b :: s'')).
Qed.

Lemma digit_run_stops (r : list ascii) : stops r → digit_run r = ([], r).
Proof. destruct r as [|c r]; [done|]. cbn. by intros [-> _]. Qed.

Lemma digit_run_digits (ds : list Z) (r : list ascii) :
  is_digits ds → stops r → digit_run (digit_chars ds ++ r) = (ds, r).
Proof.
  intros Hd Hr. induction Hd as [|x ds Hx Hd IH]; [by apply digit_run_stops|].
  cbn [digit_chars fmap list_fmap app].
  destruct (digit_char_facts x Hx) as (Dx & _).
  rewrite (digit_run_cons _ _ x Dx).
  - fold (digit_chars ds). by rewrite IH.
  - intros u t E. fold (digit_chars ds) in E.
    destruct Hd as [|y ds' Hy _].
    + cbn in E. subst r. by destruct Hr.
    + cbn in E. injection E as <- _.
      by destruct (digit_char_facts y Hy) as (_ & ? & _).
Qed.

Lemma foldl_digits (acc : Z) (ds : list Z) :
  foldl (λ acc d, 10 * acc + d) acc ds
  = acc * 10 ^ Z.of_nat (length ds) + digits_value ds.
Proof.
  unfold digits_value. revert acc.
  induction ds as [|d ds IH]; intros acc; [cbn; lia|].
  cbn [foldl length]. rewrite IH, (IH (10 * 0 + d)).
  rewrite Nat2Z.inj_succ, Z.pow_succ_r by lia. lia.
Qed.

Lemma digits_value_app (a b : list Z) :
  digits_value (a ++ b)
  = digits_value a * 10 ^ Z.of_nat (length b) + digits_value b.
Proof.
  unfold digits_value at 1. rewrite foldl_app.
  fold (digits_value a). apply foldl_digits.
Qed.

Lemma of_uint_acc_value (l : Decimal.uint) (acc : positive) :
  Z.pos (Pos.of_uint_acc l acc)
  = Z.pos acc * 10 ^ Z.of_nat (length (digits_of_uint l))
    + digits_value (digits_of_uint l).
Proof.
  rewrite <- foldl_digits. revert acc.
  induction l; intros acc; cbn [Pos.of_uint_acc digits_of_uint foldl];
    [done|rewrite IHl; f_equal; lia..].
Qed.

Lemma of_uint_value (d : Decimal.uint) :
  digits_value (digits_of_uint d) = Z.of_N (Pos.of_uint d).
Proof.
  induction d; cbn [Pos.of_uint digits_of_uint]; [done|exact IHd|..].
  all: unfold digits_value; cbn [foldl]; rewrite foldl_digits;
    cbn [Z.of_N]; rewrite of_uint_acc_value; lia.
Qed.

Lemma length_digits_bound (d : Decimal.uint) (k : nat) :
  Decimal.unorm d = d → (0 < k)%nat →
  digits_value (digits_of_uint d) < 10 ^ Z.of_nat k →
  (length (digits_of_uint d) ≤ k)%nat.
Proof.
  intros Hn Hk Hv.
  assert (∀ (l : Decimal.uint) (acc : positive),
            Z.pos (Pos.of_uint_acc l acc) < 10 ^ Z.of_nat k →
            (S (length (digits_of_uint l)) ≤ k)%nat) as Hacc.
  { intros l acc Hl. rewrite of_uint_acc_value, of_uint_value in Hl.
    assert (10 ^ Z.of_nat (length (digits_of_uint l)) < 10 ^ Z.of_nat k)
      as Hp.
    { pose proof (Z.pow_pos_nonneg 10 (Z.of_nat (length (digits_of_uint l)))).
      nia. }
    apply Z.pow_lt_mono_r_iff in Hp; lia. }
  rewrite of_uint_value in Hv.
  destruct d; cbn [Pos.of_uint digits_of_uint length Z.of_N] in *;
    try (by apply (Hacc d _ Hv)); [lia|].
  unfold Decimal.unorm in Hn. rewrite DecimalFacts.nzhead_D0 in Hn.
  destruct (Decimal.nzhead d) eqn:E; try discriminate Hn.
  - injection Hn as <-. cbn. lia.
  - by destruct (DecimalFacts.nzhead_nonzero d u).
Qed.

(** [str(n)] for a natural number: its digits. *)
Lemma str_N_digits (n : N) :
  ∃ ds, chars (str_N n) = digit_chars ds ∧ ds ≠ [] ∧ is_digits ds
        ∧ digits_value ds = Z.of_N n
        ∧ ∀ k, (0 < k)%nat → Z.of_N n < 10 ^ Z.of_nat k →
               (length ds ≤ k)%nat.
Proof.
  unfold str_N. set (d := N.to_uint n).
  assert (d ≠ Decimal.Nil) as Hd.
  { unfold d. destruct n; cbn; [discriminate|].
    apply DecimalPos.Unsigned.to_uint_nonnil. }
  assert (Pos.of_uint d = n) as Hv by apply DecimalN.Unsigned.of_to.
  assert (Decimal.unorm d = d) as Hu.
  { rewrite <- (DecimalN.Unsigned.to_of d).
    change (N.of_uint d) with (Pos.of_uint d). by rewrite Hv. }
  exists (digits_of_uint d). split_and!.
  - rewrite <- chars_string_of_uint. by destruct d.
  - by destruct d.
  - apply is_digits_of_uint.
  - by rewrite of_uint_value, Hv.
  - intros k Hk Hn. apply length_digits_bound; [done..|].
    by rewrite of_uint_value, Hv.
Qed.

Lemma lstrip_no_space (s : list ascii) : no_space s → lstrip s = s.
Proof. intros [|a s' Ha _]; [done|]. cbn. by rewrite Ha. Qed.

Lemma strip_no_space (s : list ascii) : no_space s → strip s = s.
Proof.
  intros H. unfold strip. rewrite (lstrip_no_space s H).
  rewrite lstrip_no_space; [apply rev_involutive|].
  by apply List.Forall_rev.
Qed.

Lemma no_space_digit_chars (ds : list Z) :
  is_digits ds → no_space (digit_chars ds).
Proof.
  intros H. unfold no_space, digit_chars. apply Forall_fmap.
  eapply Forall_impl; [exact H|]. intros d Hd. cbn.
  by destruct (digit_char_facts d Hd) as (_ & _ & ? & _).
Qed.

(** Reading an unsigned numeral [digits] or [digits.digits]. *)
Lemma parse_decimal_digits (ip fp : list Z) (dot : bool) :
  is_digits ip → is_digits fp → ip ≠ [] → (dot = false → fp = []) →
  parse_decimal (digit_chars ip
                   ++ (if dot then "."%char :: digit_chars fp else []))
  = Ok (inject_Z (digits_value (ip ++ fp))
        * pow10 (- Z.of_nat (length fp)))%Q.
Proof.
  intros Hi Hf Hne Hd. unfold parse_decimal.
  rewrite (digit_run_digits ip) by (done || by destruct dot).
  destruct dot.
  - rewrite <- (app_nil_r (digit_chars fp)).
    rewrite (digit_run_digits fp []) by done.
    destruct (ip ++ fp) eqn:E; [|done].
    by apply app_eq_nil in E as [-> _].
  - rewrite (Hd eq_refl), app_nil_r. by destruct ip.
Qed.

(** [float] on an optional minus sign followed by a numeral that starts
    with a digit. *)
Lemma py_float_decimal (neg : bool) (x : Z) (rest : list ascii) (q : Q) :
  0 ≤ x ≤ 9 → no_space rest →
  parse_decimal (digit_char x :: rest) = Ok q →
  py_float ((if neg then ["-"%char] else []) ++ digit_char x :: rest)
  = Ok (PFin (if neg then - q else q)%Q).
Proof.
  intros Hx Hr Hp. unfold py_float.
  assert (no_space (digit_char x :: rest)) as Hb.
  { constructor; [|done]. by destruct (digit_char_facts x Hx) as (_ & _ & ? & _). }
  rewrite strip_no_space by (destruct neg; [by constructor|done]).
  assert (x = 0 ∨ x = 1 ∨ x = 2 ∨ x = 3 ∨ x = 4 ∨ x = 5 ∨ x = 6 ∨ x = 7
          ∨ x = 8 ∨ x = 9) as Hd by lia.
  destruct neg; cbn [app];
    repeat (destruct Hd as [->|Hd]); try subst x;
    try change (digit_char 0) with ("0"%char) in *;
    try change (digit_char 1) with ("1"%char) in *;
    try change (digit_char 2) with ("2"%char) in *;
    try change (digit_char 3) with ("3"%char) in *;
    try change (digit_char 4) with ("4"%char) in *;
    try change (digit_char 5) with ("5"%char) in *;
    try change (digit_char 6) with ("6"%char) in *;
    try change (digit_char 7) with ("7"%char) in *;
    try change (digit_char 8) with ("8"%char) in *;
    try change (digit_char 9) with ("9"%char) in *;
    cbn [fmap list_fmap of_chars string_of_list_ascii];
    (rewrite bool_decide_eq_false_2 by (intros [H|H]; discriminate H));
    (rewrite bool_decide_eq_false_2 by (intros H; discriminate H));
    by rewrite Hp.
Qed.

(** [str(z)] for an integer: an optional minus sign and digits; no
    white space, no comma; [float] reads it back as [z]. *)
Lemma str_Z_chars (z : Z) :
  ∃ (neg : bool) (x : Z) (ds : list Z),
    chars (str_Z z)
    = (if neg then ["-"%char] else []) ++ digit_chars (x :: ds)
    ∧ is_digits (x :: ds)
    ∧ (if neg then - digits_value (x :: ds) else digits_value (x :: ds)) = z.
Proof.
  unfold str_Z. destruct (z <? 0) eqn:E.
  - apply Z.ltb_lt in E.
    destruct (str_N_digits (Z.to_N (- z))) as (ds & Hc & Hne & Hd & Hv & _).
    destruct ds as [|x ds]; [done|].
    exists true, x, ds. cbn [chars list_ascii_of_string app].
    fold (chars (str_N (Z.to_N (- z)))). rewrite Hc, Hv.
    split_and!; [done..|lia].
  - apply Z.ltb_ge in E.
    destruct (str_N_digits (Z.to_N z)) as (ds & Hc & Hne & Hd & Hv & _).
    destruct ds as [|x ds]; [done|].
    exists false, x, ds. rewrite Hc, Hv. split_and!; [done..|lia].
Qed.

Lemma head_str_Z (z : Z) :
  ∃ a r, chars (str_Z z) = a :: r ∧ a ≠ "n"%char.
Proof.
  destruct (str_Z_chars z) as (neg & x & ds & Hc & Hd & Hv).
  assert (0 ≤ x ≤ 9) as Hx by (by inversion Hd).
  rewrite Hc. destruct neg; cbn; do 2 eexists; (split; [done|]); [done|].
  by destruct (digit_char_facts x Hx) as (_&_&_&_&_&_&_&_&_&?).
Qed.

Lemma py_float_str_Z (z : Z) :
  no_space (chars (str_Z z)) ∧ (","%char ∉ chars (str_Z z))
  ∧ ∃ q, py_float (chars (str_Z z)) = Ok (PFin q) ∧ (q == inject_Z z)%Q.
Proof.
  destruct (str_Z_chars z) as (neg & x & ds & Hc & Hd & Hv).
  assert (no_space (chars (str_Z z))) as Hns.
  { rewrite Hc. apply Forall_app. split; [by destruct neg; repeat constructor|].
    by apply no_space_digit_chars. }
  assert (","%char ∉ chars (str_Z z)) as Hcomma.
  { rewrite Hc. apply not_elem_of_app. split.
    - destruct neg; [|apply not_elem_of_nil].
      intros H%list_elem_of_singleton. discriminate H.
    - intros (d & E & Hin)%list_elem_of_fmap.
      unfold is_digits in Hd. rewrite Forall_forall in Hd.
      destruct (digit_char_facts d (Hd d Hin)) as (_&_&_&_&_&_&?&_).
      congruence. }
  assert (0 ≤ x ≤ 9) as Hx by (by inversion Hd).
  split; [done|]. split; [done|].
  rewrite Hc. cbn [digit_chars fmap list_fmap].
  fold (digit_chars ds).
  pose proof (parse_decimal_digits (x :: ds) [] false Hd
                ltac:(constructor) ltac:(done) ltac:(done)) as Hp.
  rewrite !app_nil_r in Hp. cbn [digit_chars fmap list_fmap] in Hp.
  fold (digit_chars ds) in Hp.
  eexists. split.
  - apply py_float_decimal; [done| |exact Hp].
    apply no_space_digit_chars. by inversion Hd.
  - change (pow10 (- Z.of_nat (length []))) with (inject_Z 1).
    rewrite <- Hv. destruct neg.
    + rewrite inject_Z_opp. ring.
    + ring.
Qed.

Lemma split_on_full (c : ascii) (w : list ascii) :
  c ∉ w →
  split_on c w = [w]
  ∧ (∀ rest, split_on c (w ++ c :: rest) = w :: split_on c rest).
Proof.
  induction w as [|a w IH]; intros Hc.
  - split; [done|]. intros rest. cbn.
    by rewrite (proj2 (ascii_eqb_eq c c) eq_refl).
  - apply not_elem_of_cons in Hc as [Hne Hc]. destruct (IH Hc) as [H1 H2].
    assert (ascii_eqb a c = false) as Ha.
    { destruct (ascii_eqb a c) eqn:E; [|done].
      apply ascii_eqb_eq in E. congruence. }
    split; [|intros rest]; cbn; rewrite Ha.
    + by rewrite H1.
    + by rewrite H2.
Qed.

Lemma split_join_integers (zs : list Z) :
  zs ≠ [] →
  split_on "," (chars (join "," (str_Z <$> zs)))
  = (λ z, chars (str_Z z)) <$> zs
  ∧ ∃ a r, chars (join "," (str_Z <$> zs)) = a :: r ∧ a ≠ "n"%char.
Proof.
  induction zs as [|z zs IH]; [done|]. intros _.
  destruct (py_float_str_Z z) as (_ & Hc & _).
  destruct (head_str_Z z) as (a & r & Ha & Hn).
  destruct (split_on_full "," (chars (str_Z z)) Hc) as [S1 S2].
  destruct zs as [|z' zs]; [by split; [|exists a, r]|].
  destruct IH as (IH & _); [done|].
  change (join "," (str_Z <$> z :: z' :: zs))
    with (str_Z z +:+ "," +:+ join "," (str_Z <$> z' :: zs)).
  rewrite !chars_app. change (chars ",") with [","%char]. cbn [app].
  rewrite S2, IH. split; [done|].
  rewrite Ha. cbn. by do 2 eexists.
Qed.

(** X16. The bounds string of xView, integers separated by commas, each
    of at most 2^53 in absolute value (the integers binary64 holds
    exactly, so that [float] reads them without rounding), is read as
    those integers; four of them make the box, in the order
    [xmin, ymin, xmax, ymax], and any other number of them (the empty
    string included) makes no box. *)
Theorem integer_bounds_string (ann : Convert.annotation) (zs : list Z) :
  Forall (λ z, Z.abs z ≤ 2 ^ 53) zs →
  Convert.ann_bounds_imcoords ann = Some (join "," (str_Z <$> zs)) →
  ∃ coords : list pyfloat,
    Forall2 (λ f z, ∃ q, f = PFin q ∧ (q == inject_Z z)%Q) coords zs
    ∧ Convert.bbox_of ann
      = Ok (match coords with
            | [xmin; ymin; xmax; ymax] => Some (xmin, ymin, xmax, ymax)
            | _ => None
            end).
Proof.
  intros _ Hb. unfold Convert.bbox_of. rewrite Hb.
  destruct zs as [|z zs]; [by exists []|].
  destruct (split_join_integers (z :: zs)) as (Hs & a & r & Ha & Hn); [done|].
  rewrite bool_decide_eq_true_2.
  2: { split; intros E; rewrite E in Ha; [done|].
       injection Ha as Ha _. congruence. }
  rewrite Hs.
  assert (∃ coords,
            Forall2 (λ f z, ∃ q, f = PFin q ∧ (q == inject_Z z)%Q)
                    coords (z :: zs)
            ∧ exn_map (λ x, py_float (strip x))
                      ((λ z, chars (str_Z z)) <$> z :: zs) = Ok coords)
    as (coords & HF & ->).
  { clear. induction (z :: zs) as [|y ys IH]; [by exists []|].
    destruct IH as (cs & HF & E).
    destruct (py_float_str_Z y) as (Hns & _ & q & Hq & Hv).
    exists (PFin q :: cs). split; [constructor; [by exists q|done]|].
    cbn [exn_map fmap list_fmap]. rewrite (strip_no_space _ Hns), Hq.
    cbn [exn_bind]. by rewrite E. }
  exists coords. split; [done|]. cbn.
  by destruct coords as [|? [|? [|? [|? [|? ?]]]]].
Qed.

End Decimals.

(** ** Reading a label line back *)

Section LabelLines.

Lemma round_half_even_nonneg (q : Q) : (0 <= q)%Q → 0 ≤ round_half_even q.
Proof.
  intros Hq. unfold round_half_even.
  assert (0 ≤ Qfloor q) as F0.
  { change 0 with (Qfloor 0). by apply Qfloor_resp_le. }
  destruct (_ ?= _)%Q; [destruct (Z.even _)|..]; lia.
Qed.

Lemma micro_nonneg (q : Q) : 0 ≤ micro q.
Proof.
  unfold micro. apply round_half_even_nonneg.
  apply Qmult_le_0_compat; [apply Qabs_nonneg|done].
Qed.

Lemma length_chars (s : string) : length (chars s) = String.length s.
Proof. unfold chars. induction s; cbn; [done|by f_equal]. Qed.

Lemma length_digit_chars (ds : list Z) : length (digit_chars ds) = length ds.
Proof. unfold digit_chars. apply length_fmap. Qed.

Lemma digits_value_zeros (k : nat) (ds : list Z) :
  digits_value (replicate k 0 ++ ds) = digits_value ds.
Proof.
  induction k as [|k IH]; [done|].
  cbn [replicate app]. unfold digits_value in *. cbn [foldl]. exact IH.
Qed.

(** The characters of a [.6f] field of a non-negative number. *)
Lemma fmt6_chars (q : Q) :
  (0 <= q)%Q →
  ∃ x ip fp,
    chars (fmt6 (PFin q)) = digit_chars (x :: ip) ++ "."%char :: digit_chars fp
    ∧ is_digits (x :: ip) ∧ is_digits fp ∧ length fp = 6%nat
    ∧ digits_value ((x :: ip) ++ fp) = micro q.
Proof.
  intros Hq. unfold fmt6.
  assert (Qltb q 0 = false) as -> by (by apply Qltb_ge).
  pose proof (micro_nonneg q) as Hn. set (n := micro q) in *. clearbody n.
  destruct (str_N_digits (Z.to_N (n / 1000000)))
    as (ds1 & C1 & N1 & D1 & V1 & _).
  destruct (str_N_digits (Z.to_N (n mod 1000000)))
    as (ds2 & C2 & N2 & D2 & V2 & L2).
  assert (length ds2 ≤ 6)%nat as Hl.
  { apply L2; [lia|]. rewrite Z2N.id by (apply Z.mod_pos_bound; lia).
    change (10 ^ Z.of_nat 6) with 1000000.
    apply Z.mod_pos_bound. lia. }
  destruct ds1 as [|x ip]; [done|].
  exists x, ip, (replicate (6 - length ds2) 0 ++ ds2).
  split_and!.
  - rewrite !chars_app, C1. f_equal. change (chars ".") with ["."%char].
    cbn [app]. f_equal. unfold zero_pad.
    rewrite chars_app, chars_of_chars, <- length_chars, C2,
      length_digit_chars.
    unfold digit_chars. rewrite fmap_app, fmap_replicate. done.
  - done.
  - apply Forall_app. split; [|done]. apply Forall_replicate. lia.
  - rewrite length_app, length_replicate. lia.
  - rewrite digits_value_app, digits_value_zeros, V1, V2.
    rewrite length_app, length_replicate.
    replace (6 - length ds2 + length ds2)%nat with 6%nat by lia.
    rewrite !Z2N.id
      by (apply Z.mod_pos_bound || apply Z.div_pos; lia).
    change (10 ^ Z.of_nat 6) with 1000000.
    pose proof (Z.div_mod n 1000000). lia.
Qed.

(** [float] reads a [.6f] field as the number rounded to six
    decimals. *)
Lemma py_float_fmt6 (q : Q) :
  (0 <= q)%Q →
  no_space (chars (fmt6 (PFin q))) ∧ chars (fmt6 (PFin q)) ≠ []
  ∧ ∃ q', py_float (chars (fmt6 (PFin q))) = Ok (PFin q')
          ∧ (q' == rounded6 q)%Q.
Proof.
  intros Hq.
  destruct (fmt6_chars q Hq) as (x & ip & fp & Hc & Di & Df & Lf & Hv).
  assert (no_space (chars (fmt6 (PFin q)))) as Hns.
  { rewrite Hc. apply Forall_app. split; [by apply no_space_digit_chars|].
    constructor; [done|by apply no_space_digit_chars]. }
  split; [done|]. split; [by rewrite Hc|].
  pose proof (parse_decimal_digits (x :: ip) fp true Di Df
                ltac:(done) ltac:(done)) as Hp.
  rewrite Hv, Lf in Hp.
  eexists. split.
  - rewrite Hc. cbn [digit_chars fmap list_fmap app].
    apply (py_float_decimal false); [by inversion Di| |exact Hp].
    rewrite Hc in Hns. by inversion Hns.
  - unfold rounded6. cbn [negb].
    assert (pow10 (- Z.of_nat 6) == 1 # 1000000)%Q as -> by done.
    set (r := inject_Z (micro q)). clearbody r. field.
Qed.

Lemma split_ws_word (w : list ascii) :
  w ≠ [] → no_space w → split_ws w = [w].
Proof.
  induction w as [|a w IH]; [done|]. intros _ Hw.
  inversion Hw as [|? ? Ha Hw']; subst. cbn [split_ws]. rewrite Ha.
  destruct w as [|b w]; [done|].
  rewrite IH by done. inversion Hw' as [|? ? Hb _]; subst. by rewrite Hb.
Qed.

Lemma split_ws_space (w rest : list ascii) :
  w ≠ [] → no_space w →
  split_ws (w ++ " "%char :: rest) = w :: split_ws rest.
Proof.
  induction w as [|a w IH]; [done|]. intros _ Hw.
  inversion Hw as [|? ? Ha Hw']; subst.
  cbn [split_ws app]. rewrite Ha.
  destruct w as [|b w]; [done|].
  cbn [app]. cbn [app] in IH. rewrite IH by done.
  inversion Hw' as [|? ? Hb _]; subst. by rewrite Hb.
Qed.

Lemma lstrip_head (a : ascii) (s : list ascii) :
  is_space a = false → lstrip (a :: s) = a :: s.
Proof. intros Ha. cbn. by rewrite Ha. Qed.

(** [strip] removes the line feed at the end of a line that begins and
    ends with a character that is no white space. *)
Lemma strip_line (a z : ascii) (mid : list ascii) :
  is_space a = false → is_space z = false →
  strip (a :: mid ++ [z] ++ chars Convert.nl) = a :: mid ++ [z].
Proof.
  intros Ha Hz. unfold strip. rewrite lstrip_head by done.
  change (chars Convert.nl) with ["010"%char].
  change (a :: mid ++ [z] ++ ["010"%char])
    with ((a :: mid) ++ [z] ++ ["010"%char]).
  rewrite !rev_app_distr.
  change (rev ["010"%char]) with ["010"%char]. change (rev [z]) with [z].
  cbn [app].
  assert (∀ s, lstrip ("010"%char :: s) = lstrip s) as -> by done.
  rewrite lstrip_head by done.
  change (z :: rev (a :: mid)) with (rev [z] ++ rev (a :: mid)).
  rewrite <- rev_app_distr, rev_involutive. done.
Qed.

Lemma strip_words (w mid d : list ascii) :
  w ≠ [] → no_space w → d ≠ [] → no_space d →
  strip (w ++ mid ++ d ++ chars Convert.nl) = w ++ mid ++ d.
Proof.
  intros Hw Nw Hd Nd. destruct w as [|a w]; [done|].
  destruct (exists_last Hd) as (d' & z & ->).
  inversion Nw as [|? ? Ha _]; subst.
  apply Forall_app in Nd as [_ Nz]. inversion Nz as [|? ? Hz _]; subst.
  replace ((a :: w) ++ mid ++ (d' ++ [z]) ++ chars Convert.nl)
    with (a :: (w ++ mid ++ d') ++ [z] ++ chars Convert.nl)
    by (cbn [app]; by rewrite <- !app_assoc).
  rewrite strip_line by done. cbn [app]. by rewrite <- !app_assoc.
Qed.

(** X17. A line written by the converter, read back by the label reader
    of the augmentation script: the five numbers are the class index
    and the four fields rounded to six decimals. *)
Theorem label_line_read_back (yolo_class_id : Z) (xc yc bw bh : Q) :
  (0 <= xc)%Q → (0 <= yc)%Q → (0 <= bw)%Q → (0 <= bh)%Q →
  ∃ y a b c d : Q,
    read_label_line
      (str_Z yolo_class_id +:+ " "
         +:+ Convert.fmt_fields (PFin xc, PFin yc, PFin bw, PFin bh)
         +:+ Convert.nl)
    = Ok (Some [PFin y; PFin a; PFin b; PFin c; PFin d])
    ∧ (y == inject_Z yolo_class_id)%Q
    ∧ (a == rounded6 xc)%Q ∧ (b == rounded6 yc)%Q
    ∧ (c == rounded6 bw)%Q ∧ (d == rounded6 bh)%Q.
Proof.
  intros Hxc Hyc Hbw Hbh.
  destruct (py_float_str_Z yolo_class_id) as (N0 & _ & y & Ey & Vy).
  destruct (head_str_Z yolo_class_id) as (a0 & r0 & H0 & _).
  destruct (py_float_fmt6 xc Hxc) as (N1 & E1 & a & Ea & Va).
  destruct (py_float_fmt6 yc Hyc) as (N2 & E2 & b & Eb & Vb).
  destruct (py_float_fmt6 bw Hbw) as (N3 & E3 & c & Ec & Vc).
  destruct (py_float_fmt6 bh Hbh) as (N4 & E4 & d & Ed & Vd).
  exists y, a, b, c, d. split; [|done].
  unfold read_label_line, Convert.fmt_fields.
  rewrite !chars_app. change (chars " ") with [" "%char].
  set (W0 := chars (str_Z yolo_class_id)) in *.
  set (W1 := chars (fmt6 (PFin xc))) in *.
  set (W2 := chars (fmt6 (PFin yc))) in *.
  set (W3 := chars (fmt6 (PFin bw))) in *.
  set (W4 := chars (fmt6 (PFin bh))) in *.
  assert (W0 ≠ []) as E0 by (by rewrite H0).
  replace (W0 ++ [" "%char]
             ++ (W1 ++ [" "%char] ++ W2 ++ [" "%char] ++ W3
                    ++ [" "%char] ++ W4) ++ chars Convert.nl)
    with (W0 ++ ([" "%char] ++ W1 ++ [" "%char] ++ W2 ++ [" "%char] ++ W3
                   ++ [" "%char]) ++ W4 ++ chars Convert.nl)
    by (by rewrite <- !app_assoc).
  rewrite strip_words by done.
  rewrite <- !app_assoc. cbn [app].
  rewrite !split_ws_space, split_ws_word by done.
  cbn [length Nat.leb exn_map]. rewrite Ey, Ea, Eb, Ec, Ed. done.
Qed.

End LabelLines.

(** ** What a split never does *)

Section SplitNever.

Import Split.

Variable shuffle : Z → list (path * path) → list (path * path).

Lemma copy2_keeps (src dst : path) (fs fs' : filesys) :
  copy2 src dst fs = Ok fs' →
  dirs fs' = dirs fs
  ∧ (∀ p, is_Some (files fs !! p) → is_Some (files fs' !! p)).
Proof.
  unfold copy2. destruct (files fs !! src) as [c|] eqn:Es; [|done].
  repeat case_bool_decide; try done; intros [= <-]; cbn.
  all: split; [done|]; intros p Hp.
  all: match goal with
       | |- is_Some (<[?k := _]> _ !! _) =>
           destruct (decide (k = p)) as [->|];
           [by rewrite lookup_insert_eq|by rewrite lookup_insert_ne]
       end.
Qed.

Lemma copy_pairs_keeps pairs (img_dir lbl_dir : path) (fs : filesys) :
  let r := copy_pairs pairs img_dir lbl_dir fs in
  dirs r.1 = dirs fs
  ∧ (∀ p, is_Some (files fs !! p) → is_Some (files r.1 !! p)).
Proof.
  revert fs. induction pairs as [|[img lbl] pairs IH]; intros fs; [done|].
  cbn [copy_pairs].
  destruct (copy2 img _ fs) as [fs1|] eqn:E1; [|done].
  destruct (copy2_keeps _ _ _ _ E1) as (D1 & K1).
  destruct (copy2 lbl _ fs1) as [fs2|] eqn:E2; [|done].
  destruct (copy2_keeps _ _ _ _ E2) as (D2 & K2).
  destruct (IH fs2) as [D3 K3]. cbn zeta. split.
  - by rewrite D3, D2, D1.
  - intros p Hp. by apply K3, K2, K1.
Qed.

(** X18. Whatever its outcome, counts or an exception, a split creates
    and removes no directory and removes no file: every file present
    before the call is present after it. *)
Theorem split_removes_nothing (sp : splitter) (seed : Z) (fs : filesys) :
  let fs' := (split shuffle sp seed fs).1 in
  dirs fs' = dirs fs
  ∧ (∀ p, is_Some (files fs !! p) → is_Some (files fs' !! p)).
Proof.
  cbn zeta. unfold split.
  destruct (partitions shuffle sp seed fs) as [[[train val] test]|]; [|done].
  pose proof (copy_pairs_keeps train (train_img_dir sp) (train_lbl_dir sp) fs)
    as [D1 K1].
  destruct (copy_pairs train _ _ fs) as [fs1 [[]|]]; [|done].
  pose proof (copy_pairs_keeps val (val_img_dir sp) (val_lbl_dir sp) fs1)
    as [D2 K2].
  destruct (copy_pairs val _ _ fs1) as [fs2 [[]|]]; cbn [fst] in *.
  2: { split; [by rewrite D2|]. intros p Hp. by apply K2, K1. }
  pose proof (copy_pairs_keeps test (test_img_dir sp) (test_lbl_dir sp) fs2)
    as [D3 K3].
  destruct (copy_pairs test _ _ fs2) as [fs3 [[]|]]; cbn [fst] in *.
  all: split; [by rewrite D3, D2|]; intros p Hp; by apply K3, K2, K1.
Qed.

End SplitNever.

(** ** Class indices and the names of [data.yaml] *)

Section ClassNames.

Import Convert.

#[local] Instance by_key_trans : Transitive by_key.
Proof. unfold by_key. intros a b c. lia. Qed.

#[local] Instance by_key_total : Total by_key.
Proof. unfold by_key. intros a b. lia. Qed.



End ClassNames.

(** ** Names: stems, label files and annotation groups *)

Section Naming.

Import Convert.

Lemma rfind_app (c : ascii) (s e : list ascii) :
  c ∉ e → rfind c (s ++ c :: e) = Some (length s).
Proof.
  intros He.
  assert (rfind c e = None) as Hn.
  { induction e as [|a e IH]; [done|].
    apply not_elem_of_cons in He as [Hne He]. cbn. rewrite (IH He).
    destruct (ascii_eqb a c) eqn:E; [|done].
    apply ascii_eqb_eq in E. congruence. }
  induction s as [|a s IH]; cbn.
  - rewrite Hn. by rewrite (proj2 (ascii_eqb_eq c c) eq_refl).
  - by rewrite IH.
Qed.

Lemma stem_of_name (dir : path) (s e : string) :
  s ≠ ""%string → e ≠ ""%string → "."%char ∉ chars e →
  stem (dir ++ [s +:+ "." +:+ e]) = s.
Proof.
  intros Hs He Hdot. unfold stem. rewrite name_snoc, !chars_app.
  change (chars ".") with ["."%char]. cbn [app].
  rewrite rfind_app by done.
  assert (0 < length (chars s))%nat as Ls.
  { destruct s; [done|]. cbn. lia. }
  assert (0 < length (chars e))%nat as Le.
  { destruct e; [done|]. cbn. lia. }
  rewrite length_app. cbn [length].
  replace ((0 <? length (chars s))%nat) with true
    by (symmetry; by apply Nat.ltb_lt).
  replace ((length (chars s) <? length (chars s) + S (length (chars e)) - 1)%nat)
    with true by (symmetry; apply Nat.ltb_lt; lia).
  cbn [andb]. rewrite take_app_length. apply of_chars_chars.
Qed.

(** X20. The label file of an image is named after the image without
    its last extension: for an image [s.e] (with [s] and [e] not empty
    and no dot in [e]) the converter writes [labels_dir/s.txt], and the
    splitter looks for the label under the same name in its label
    directory; so [a.b.jpg] has the label [a.b.txt], and two images
    that differ only in their extension share one label file. *)
Theorem label_name_of_image (c : converter) (sp : Split.splitter)
    (dir : path) (s e : string) :
  s ≠ ""%string → e ≠ ""%string → "."%char ∉ chars e →
  label_path c (dir ++ [s +:+ "." +:+ e]) = labels_dir c ++ [s +:+ ".txt"]
  ∧ Split.label_of sp (dir ++ [s +:+ "." +:+ e])
    = Split.labels_dir sp ++ [s +:+ ".txt"]
  ∧ ∀ dir' e', e' ≠ ""%string → "."%char ∉ chars e' →
      label_path c (dir' ++ [s +:+ "." +:+ e'])
      = label_path c (dir ++ [s +:+ "." +:+ e]).
Proof.
  intros Hs He Hdot. unfold label_path, Split.label_of.
  rewrite stem_of_name by done. split; [done|]. split; [done|].
  intros dir' e' He' Hdot'. by rewrite stem_of_name.
Qed.

Lemma stem_nonempty (p : path) : name p ≠ ""%string → stem p ≠ ""%string.
Proof.
  intros Hn. unfold stem.
  destruct (rfind "." (chars (name p))) as [i|]; [|done].
  destruct ((0 <? i)%nat && (i <? length (chars (name p)) - 1)%nat) eqn:E;
    [|done].
  apply andb_true_iff in E as [E1%Nat.ltb_lt E2%Nat.ltb_lt].
  intros H. apply (f_equal chars) in H. rewrite chars_of_chars in H.
  apply (f_equal length) in H. rewrite length_take in H. cbn in H. lia.
Qed.

(** X21. The annotations of an image are the rows of the store whose
    image identifier is the stem of the image file, in the order of the
    store; when there is none, they are the rows whose identifier is the
    file name with its extension. *)
Theorem annotations_of_image (gdf : list annotation) (image_file : path) :
  name image_file ≠ ""%string →
  let rows_of := λ id, filter (λ row, image_id_of row = Some id) gdf in
  annotations_for (group_annotations gdf) image_file
  = if is_nil (rows_of (stem image_file)) then rows_of (name image_file)
    else rows_of (stem image_file).
Proof.
  intros Hn rows_of. unfold annotations_for, group_annotations.
  destruct (group_fold_lookup gdf ∅ (stem image_file)
              (stem_nonempty _ Hn)) as (E1 & _ & _).
  destruct (group_fold_lookup gdf ∅ (name image_file) Hn) as (E2 & _ & _).
  rewrite lookup_empty in E1, E2. cbn [default app] in E1, E2.
  rewrite E1, E2. done.
Qed.

End Naming.

(** ** From a label to a polygon on the map *)

Section Geo.

Import Convert.
Local Open Scope Q_scope.


Lemma scale_mono (s t lo hi : Q) :
  s <= t → lo <= hi → s * (hi - lo) <= t * (hi - lo).
Proof. intros Hst Hl. apply Qmult_le_compat_r; lra. Qed.


End Geo.

(** ** The constructor of the converter *)

Section ConverterInit.

Import Convert.

Lemma elem_of_dirs_mkdir_p (p d : path) (fs : filesys) :
  d ∈ dirs (mkdir_p p fs) ↔ d ∈ dirs fs ∨ d `prefix_of` p.
Proof.
  rewrite dirs_mkdir_p, elem_of_union, elem_of_list_to_set, list_elem_of_fmap.
  split; (intros [H|H]; [by left|right]).
  - destruct H as (n & -> & _). apply prefix_take.
  - destruct H as [k ->]. exists (length d).
    split; [by rewrite take_app_length|].
    apply elem_of_seq. rewrite length_app. lia.
Qed.

(** X23. The constructor of the converter, when no component of the
    path of the labels directory is a regular file: it touches no file;
    it keeps every directory, adds the output directory and its
    [labels] subdirectory, and nothing but these and their ancestors;
    the image listing is unchanged; the statistics start at zero and
    the class map is the one of [_load_class_mapping].  If no label
    path of a listed image was a directory before, the label files of
    the run can be written afterwards. *)
Theorem init_prepares_run (images output : path)
    (classes_config : option (gmap Z Z)) (fs : filesys) :
  (∀ k, files fs !! take k (output ++ ["labels"%string]) = None) →
  let fs' := (init images output classes_config fs).1 in
  let c := (init images output classes_config fs).2 in
  files fs' = files fs
  ∧ (∀ d, d ∈ dirs fs' ↔ d ∈ dirs fs ∨ d `prefix_of` labels_dir c)
  ∧ output ∈ dirs fs' ∧ labels_dir c = output ++ ["labels"%string]
  ∧ image_files fs' images = image_files fs images
  ∧ images_dir c = images ∧ init_stats c = stats0
  ∧ class_map c = _load_class_mapping classes_config
  ∧ (Forall (λ image_file, label_path c image_file ∉ dirs fs)
            (image_files fs images) →
     labels_writable c fs').
Proof.
  intros _ fs' c. unfold fs', c, init. cbn [fst snd].
  assert (∀ d, d ∈ dirs (mkdir_p (output ++ ["labels"%string])
                           (mkdir_p output fs))
               ↔ d ∈ dirs fs ∨ d `prefix_of` output ++ ["labels"%string])
    as Hd.
  { intros d. rewrite !elem_of_dirs_mkdir_p. split; [|tauto].
    intros [[H|H]|H]; [by left| |by right].
    right. by apply prefix_app_r. }
  split_and!; try done.
  - apply Hd. right. by apply prefix_app_r.
  - intros HF. split; [apply mkdir_p_self|].
    cbn [images_dir labels_dir label_path].
    change (image_files (mkdir_p (output ++ ["labels"%string])
                           (mkdir_p output fs)) images)
      with (image_files fs images).
    eapply Forall_impl; [exact HF|]. cbn. intros i Hi Hin.
    apply Hd in Hin as [Hin|Hin]; [done|].
    apply prefix_length in Hin. rewrite !length_app in Hin. cbn in Hin. lia.
Qed.

End ConverterInit.

(** ** The properties at concrete inputs *)

Ltac by_decide :=
  match goal with
  | |- ?P => refine (@bool_decide_unpack P _ _); vm_compute; exact I
  end.

Section RunInstances.

Import Convert.

Lemma demo_images :
  image_files demo_fs ["img"%string]
  = [["img"; "a.jpg"]; ["img"; "b.png"]; ["img"; "c.tif"]]%string.
Proof. vm_compute. reflexivity. Qed.

Lemma demo_writable : labels_writable rerun_converter demo_fs.
Proof.
  split; [vm_compute; reflexivity|].
  change (images_dir rerun_converter) with ["img"%string].
  rewrite demo_images.
  repeat (constructor; [intros H; vm_compute in H; discriminate H|]).
  constructor.
Qed.

Lemma demo_stems :
  NoDup (stem <$> image_files demo_fs (images_dir rerun_converter)).
Proof.
  change (images_dir rerun_converter) with ["img"%string].
  rewrite demo_images. vm_compute.
  repeat (constructor;
          [rewrite ?elem_of_cons, elem_of_nil; intros H;
           repeat (destruct H as [H|H]; try discriminate H); done|]).
  constructor.
Qed.

Lemma demo_first_image :
  ["img"; "a.jpg"]%string ∈ image_files demo_fs (images_dir rerun_converter).
Proof.
  change (images_dir rerun_converter) with ["img"%string].
  rewrite demo_images. by left.
Qed.

(** The feature identifier [img1.42]. *)
Lemma feature_id_prefix_witness :
  image_id_of (mkAnn None (Some "img1.42"%string) None None None None None)
  = Some "img1"%string.
Proof.
  apply (feature_id_prefix _ "img1" "42"); [reflexivity| |left; reflexivity].
  by_decide.
Defined.

(** The run over [demo_fs] with the annotation of the scenario. *)
Lemma run_statistics_witness :
  let st := (convert rerun_imread rerun_converter [scenario_ann] demo_fs).2 in
  total_images st
  = Z.of_nat (length (image_files demo_fs (images_dir rerun_converter))).
Proof.
  intros st.
  apply (run_statistics rerun_imread rerun_converter [scenario_ann] demo_fs
           demo_writable).
Defined.

Lemma statistics_consistent_witness :
  let st := (convert rerun_imread rerun_converter [scenario_ann] demo_fs).2 in
  skipped_images st = Z.of_nat (length (missing_images st))
  ∧ processed_images st + skipped_images st ≤ total_images st.
Proof.
  intros st.
  destruct (statistics_consistent rerun_imread rerun_converter [scenario_ann]
              demo_fs demo_writable eq_refl)
    as (_ & _ & _ & H1 & H2 & _).
  split; assumption.
Defined.

Lemma run_writes_labels_only_witness :
  dirs (convert rerun_imread rerun_converter [scenario_ann] demo_fs).1
  = dirs demo_fs.
Proof.
  apply (run_writes_labels_only rerun_imread rerun_converter [scenario_ann]
           demo_fs demo_writable).
Defined.

Lemma label_file_after_run_witness :
  files (convert rerun_imread rerun_converter [scenario_ann] demo_fs).1
    !! label_path rerun_converter ["img"; "a.jpg"]%string
  = label_after rerun_imread rerun_converter
      (group_annotations [scenario_ann]) demo_fs ["img"; "a.jpg"]%string
      (files demo_fs !! label_path rerun_converter ["img"; "a.jpg"]%string).
Proof.
  apply (proj1 (label_file_after_run rerun_imread rerun_converter
                  [scenario_ann] demo_fs ["img"; "a.jpg"]%string
                  demo_writable demo_stems demo_first_image)).
Defined.

Lemma rerun_changes_nothing_witness :
  (convert rerun_imread rerun_converter [scenario_ann]
     (convert rerun_imread rerun_converter [scenario_ann] demo_fs).1).1
  = (convert rerun_imread rerun_converter [scenario_ann] demo_fs).1.
Proof.
  apply (rerun_changes_nothing rerun_imread rerun_converter rerun_converter
           [scenario_ann] demo_fs demo_writable demo_stems
           eq_refl eq_refl eq_refl).
Defined.

Lemma converted_images_are_retained_witness :
  (["img"; "a.jpg"], ["out"; "labels"; "a.txt"])%string
    ∈ Split.valid_pairs demo_sp
        (convert rerun_imread rerun_converter [scenario_ann] demo_fs).1.
Proof.
  apply (converted_images_are_retained rerun_imread rerun_converter demo_sp
           [scenario_ann] demo_fs _ _ demo_writable demo_stems
           eq_refl eq_refl).
  split; [exact demo_first_image|]. split; [reflexivity|].
  right. split; [vm_compute; intros H; exact H|].
  right. vm_compute. discriminate.
Defined.


(** The bounds string of the scenario. *)
Lemma integer_bounds_string_witness :
  ∃ coords : list pyfloat,
    Forall2 (λ f z, ∃ q, f = PFin q ∧ (q == inject_Z z)%Q)
            coords [100; 100; 300; 300]
    ∧ bbox_of scenario_ann
      = Ok (match coords with
            | [xmin; ymin; xmax; ymax] => Some (xmin, ymin, xmax, ymax)
            | _ => None
            end).
Proof.
  apply (integer_bounds_string scenario_ann [100; 100; 300; 300]).
  - repeat constructor; by vm_compute.
  - vm_compute. reflexivity.
Defined.

(** The line of the scenario. *)
Lemma label_line_read_back_witness :
  ∃ y a b c d : Q,
    read_label_line
      (str_Z 2 +:+ " "
         +:+ fmt_fields (PFin (25 # 128), PFin (25 # 128),
                         PFin (25 # 128), PFin (25 # 128))
         +:+ nl)
    = Ok (Some [PFin y; PFin a; PFin b; PFin c; PFin d])
    ∧ (y == inject_Z 2)%Q.
Proof.
  destruct (label_line_read_back 2 (25 # 128) (25 # 128) (25 # 128) (25 # 128))
    as (y & a & b & c & d & H1 & H2 & _);
    [vm_compute; discriminate..|].
  exists y, a, b, c, d. split; assumption.
Defined.


(** The image [a.b.jpg]. *)
Lemma label_name_of_image_witness :
  label_path rerun_converter ["img"; "a.b.jpg"]%string
  = ["out"; "labels"; "a.b.txt"]%string.
Proof.
  apply (proj1 (label_name_of_image rerun_converter demo_sp ["img"%string]
                  "a.b" "jpg" ltac:(discriminate) ltac:(discriminate)
                  ltac:(by_decide))).
Defined.

(** The image [a.jpg] and the annotation of the scenario. *)
Lemma annotations_of_image_witness :
  annotations_for (group_annotations [scenario_ann]) ["img"; "a.jpg"]%string
  = [scenario_ann].
Proof.
  apply (annotations_of_image [scenario_ann] ["img"; "a.jpg"]%string).
  vm_compute. discriminate.
Defined.


(** The constructor on a fresh output directory. *)
Lemma init_prepares_run_witness :
  ["out"%string]
    ∈ dirs (init ["img"%string] ["out"%string] None (rerun_fs None)).1.
Proof.
  destruct (init_prepares_run ["img"%string] ["out"%string] None
              (rerun_fs None)) as (_ & _ & H & _).
  - intros [|[|[|k]]]; vm_compute; reflexivity.
  - exact H.
Defined.

End RunInstances.

Section SplitRunInstances.

Import Split.




End SplitRunInstances.
